(** * MCP transport and session management: a shallow embedding

    The development follows [app/lib/.server/mcp/httpMcpClient.ts]
    (class [HTTPMCPClient]), the process-transport client that is shipped in
    the same file (classes [MCPClient] and [MCPManager]) and
    [app/lib/.server/mcp/mcpLoader.ts] ([loadMCPTools],
    [cleanupMCPServers]).

    Modelling conventions.
    - A JavaScript object used as a record of own string keys
      ([Record<string, T>]) is a [gmap string T]; the prototype-setter key
      is outside the model.  A JavaScript [Map] is an insertion-ordered
      association list with unique keys ([JsMap]).
    - Strings are byte strings; numbers that the code only increments from
      zero are integers in [Z] (the exact range of a double is never left).
    - [async] functions are run to completion; an [await] on a request of the
      process transport delivers what the child process writes back and,
      when the promise is still unsettled, lets the 30 s timer fire.  Loads
      do not interleave.  [fetch] always settles.
    - Class instances carry an object identity [oid]; a spawned child carries
      a [pid].  Calls that reach outside the program ([spawn], [kill],
      writes to the child, [fetch]) are recorded in [io]; logger calls in
      [console]. *)

From Stdlib Require Import ZArith NArith Ascii String Lia.
From stdpp Require Import gmap strings list fin_maps pretty.

Open Scope Z_scope.

(** ** Completions: a call returns or throws *)

Inductive JsError := Error (message : string).

(** [Hang] is a call that never comes back to its caller, and that no
    [catch] sees: an [await] on a promise that never settles, or the death
    of the Node process from an uncaught exception. *)
Inductive Completion (A : Type) :=
| Return (a : A)
| Throw (e : JsError)
| Hang.
Arguments Return {A} a.
Arguments Throw {A} e.
Arguments Hang {A}.

#[global] Instance JsError_eq_dec : EqDecision JsError.
Proof. solve_decision. Defined.

(** Truthiness of an optional string: [undefined] and [''] are falsy. *)
Definition truthy (s : option string) : bool :=
  match s with
  | Some s => negb (String.eqb s EmptyString)
  | None => false
  end.

(** ** JavaScript [Map]: insertion order, unique keys *)

Module JsMap.
Section Ops.
Context {K V : Type} `{EqDecision K}.

Definition t := list (K * V).

Fixpoint get (k : K) (m : list (K * V)) : option V :=
  match m with
  | [] => None
  | (k', v) :: m => if decide (k = k') then Some v else get k m
  end.

Definition has (k : K) (m : list (K * V)) : bool :=
  match get k m with Some _ => true | None => false end.

(** [set] keeps the position of a key that is already present. *)
Fixpoint set (k : K) (v : V) (m : list (K * V)) : list (K * V) :=
  match m with
  | [] => [(k, v)]
  | (k', v') :: m =>
      if decide (k = k') then (k', v) :: m else (k', v') :: set k v m
  end.

Fixpoint delete (k : K) (m : list (K * V)) : list (K * V) :=
  match m with
  | [] => []
  | (k', v') :: m =>
      if decide (k = k') then delete k m else (k', v') :: delete k m
  end.

Definition clear (m : list (K * V)) : list (K * V) := [].

Definition keys (m : list (K * V)) : list K := map fst m.
Definition values (m : list (K * V)) : list V := map snd m.
Definition size (m : list (K * V)) : nat := length m.
End Ops.
End JsMap.

(** ** Values of type [unknown] that travel in messages *)

#[warnings="-register-all"]
Inductive JsonValue :=
| JNull
| JBool (b : bool)
| JNumber (n : Z)
| JString (s : string)
| JArray (items : list JsonValue)
| JObject (fields : list (string * JsonValue)).

(** ** [JSON.stringify] on the values the loader fingerprints *)

Module JSON.
Definition dquote : ascii := ascii_of_N 34.
Definition backslash : ascii := ascii_of_N 92.

Definition hexDigit (n : N) : ascii :=
  if (n <? 10)%N then ascii_of_N (48 + n) else ascii_of_N (87 + n).

(** One code unit of [QuoteJSONString]. *)
Definition escapeChar (c : ascii) : string :=
  let n := N_of_ascii c in
  if (n =? 8)%N then String backslash "b"
  else if (n =? 9)%N then String backslash "t"
  else if (n =? 10)%N then String backslash "n"
  else if (n =? 12)%N then String backslash "f"
  else if (n =? 13)%N then String backslash "r"
  else if (n =? 34)%N then String backslash (String dquote EmptyString)
  else if (n =? 92)%N then String backslash (String backslash EmptyString)
  else if (n <? 32)%N then
    String backslash
      (String "u" (String "0" (String "0"
        (String (hexDigit (n / 16)) (String (hexDigit (n mod 16)) EmptyString)))))
  else String c EmptyString.

Fixpoint escape (s : string) : string :=
  match s with
  | EmptyString => EmptyString
  | String c s => escapeChar c +:+ escape s
  end.

Definition quote (s : string) : string :=
  String dquote (escape s +:+ String dquote EmptyString).

(** [Array.prototype.join] *)
Fixpoint join (sep : string) (items : list string) : string :=
  match items with
  | [] => EmptyString
  | [x] => x
  | x :: items => x +:+ sep +:+ join sep items
  end.

Definition array (items : list string) : string :=
  "[" +:+ join "," items +:+ "]".

(** Properties whose value is [undefined] are left out. *)
Definition object (fields : list (string * option string)) : string :=
  "{" +:+ join ","
    (omap (fun '(k, v) => (fun v => quote k +:+ ":" +:+ v) <$> v) fields)
    +:+ "}".

Definition strings (l : list string) : string := array (map quote l).

(** The members of an object after its first one, each with the comma
    that precedes it. *)
Fixpoint members (fields : list (string * option string)) : string :=
  match fields with
  | [] => EmptyString
  | (k, Some v) :: fields => "," +:+ quote k +:+ ":" +:+ v +:+ members fields
  | (_, None) :: fields => members fields
  end.

Definition record (r : list (string * string)) : string :=
  object (map (fun '(k, v) => (k, Some (quote v))) r).

(** Reading a quoted string back; used to compare fingerprints. *)
Definition unhex (c : ascii) : option N :=
  let n := N_of_ascii c in
  if ((48 <=? n) && (n <=? 57))%N then Some (n - 48)%N
  else if ((97 <=? n) && (n <=? 102))%N then Some (n - 87)%N
  else None.

Definition unescapeLetter (e : ascii) : option ascii :=
  let n := N_of_ascii e in
  if (n =? 98)%N then Some (ascii_of_N 8)
  else if (n =? 116)%N then Some (ascii_of_N 9)
  else if (n =? 110)%N then Some (ascii_of_N 10)
  else if (n =? 102)%N then Some (ascii_of_N 12)
  else if (n =? 114)%N then Some (ascii_of_N 13)
  else if (n =? 34)%N then Some dquote
  else if (n =? 92)%N then Some backslash
  else None.

Definition consResult (c : ascii) (r : option (string * string))
    : option (string * string) :=
  match r with
  | Some (s, rest) => Some (String c s, rest)
  | None => None
  end.

(** [unescape s] reads the body of a quoted string up to its closing
    quote and returns the text and what follows the quote. *)
Fixpoint unescape (s : string) : option (string * string) :=
  match s with
  | EmptyString => None
  | String c s1 =>
      if Ascii.eqb c dquote then Some (EmptyString, s1)
      else if Ascii.eqb c backslash then
        match s1 with
        | EmptyString => None
        | String e s2 =>
            if Ascii.eqb e "u" then
              match s2 with
              | String _ (String _ (String h (String l s6))) =>
                  match unhex h, unhex l with
                  | Some h, Some l =>
                      consResult (ascii_of_N (16 * h + l)) (unescape s6)
                  | _, _ => None
                  end
              | _ => None
              end
            else
              match unescapeLetter e with
              | Some c' => consResult c' (unescape s2)
              | None => None
              end
        end
      else consResult c (unescape s1)
  end.

Definition unquote (s : string) : option (string * string) :=
  match s with
  | String c s => if Ascii.eqb c dquote then unescape s else None
  | EmptyString => None
  end.
End JSON.

(** ** The zod builders the translator calls *)

Inductive ZodTypeAny :=
| z_string
| z_number
| z_boolean
| z_any
| z_array (element : ZodTypeAny)
| z_record (value : ZodTypeAny)
| describe (t : ZodTypeAny) (description : string)
| optional (t : ZodTypeAny).

#[global] Instance ZodTypeAny_eq_dec : EqDecision ZodTypeAny.
Proof. solve_decision. Defined.

(** [z.object(shape)] is represented by its shape. *)
Abbreviation ZodObject := (gmap string ZodTypeAny).

(** ** Tool descriptors ([interface MCPTool]) *)

Record SchemaProperty := {
  prop_type : option string;
  prop_description : option string;
}.

Record InputSchema := {
  schema_type : string;
  properties : option (gmap string SchemaProperty);
  required : option (list string);
}.

Record MCPTool := {
  tool_name : string;
  tool_description : option string;
  inputSchema : InputSchema;
}.

(** [Array.prototype.includes] on strings. *)
Definition includes (l : list string) (key : string) : bool :=
  existsb (String.eqb key) l.

(** The [switch (prop.type)] of [convertJsonSchemaToZod]. *)
Definition zodTypeOf (type : option string) : ZodTypeAny :=
  match type with
  | None => z_any
  | Some ty =>
      if String.eqb ty "string" then z_string
      else if String.eqb ty "number" then z_number
      else if String.eqb ty "boolean" then z_boolean
      else if String.eqb ty "array" then z_array z_any
      else if String.eqb ty "object" then z_record z_any
      else z_any
  end.

(** [!schema.required?.includes(key)] *)
Definition notRequired (schema : InputSchema) (key : string) : bool :=
  match required schema with
  | Some names => negb (includes names key)
  | None => true
  end.

(** The body of the [for] loop for one entry of [Object.entries]. *)
Definition convertProperty (schema : InputSchema) (key : string)
    (prop : SchemaProperty) : ZodTypeAny :=
  let zodType := zodTypeOf (prop_type prop) in
  let zodType :=
    if truthy (prop_description prop)
    then describe zodType (default EmptyString (prop_description prop))
    else zodType in
  if notRequired schema key then optional zodType else zodType.

(** [convertJsonSchemaToZod], the same text in both client classes. *)
Definition convertJsonSchemaToZod (schema : InputSchema) : ZodObject :=
  match properties schema with
  | Some props =>
      map_fold (fun key value (shape : ZodObject) =>
                  <[key := convertProperty schema key value]> shape)
               ∅ props
  | None => ∅
  end.



(** ** JSON-RPC messages ([interface MCPMessage]) *)

(** [id?: number | string] *)
Inductive Id := IdNum (n : Z) | IdStr (s : string).

#[global] Instance Id_eq_dec : EqDecision Id.
Proof. solve_decision. Defined.

Record RpcError := { code : Z; error_message : string }.

(** The [result] of a response, read the way the clients read it: an object
    that may carry a [tools] array. *)
Record RpcResult := {
  result_tools : option (list MCPTool);
  result_other : list (string * JsonValue);
}.

Record MCPMessage := {
  id : option Id;
  method : option string;
  params : option JsonValue;
  result : option RpcResult;
  error : option RpcError;
}.

Definition requestMessage (n : Z) (m : string) (p : JsonValue) : MCPMessage :=
  {| id := Some (IdNum n); method := Some m; params := Some p;
     result := None; error := None |}.

Definition notificationMessage (m : string) (p : JsonValue) : MCPMessage :=
  {| id := None; method := Some m; params := Some p;
     result := None; error := None |}.

(** The parameters of the [initialize] request. *)
Definition initializeParams : JsonValue :=
  JObject [("protocolVersion", JString "2024-11-05");
           ("capabilities",
            JObject [("roots", JObject [("listChanged", JBool true)]);
                     ("sampling", JObject [])]);
           ("clientInfo",
            JObject [("name", JString "chef"); ("version", JString "1.0.0")])].

(** ** What the program does to its surroundings *)

Inductive Level := LogInfo | LogWarn | LogError.

Inductive IOEvent :=
| Spawn (pid : nat) (command : string) (args : list string)
        (env : list (string * string))
| StdinWrite (pid : nat) (message : MCPMessage)
| Kill (pid : nat)
| Fetch (url : string) (headers : list (string * string))
        (message : MCPMessage).

Record Host := {
  io : list IOEvent;
  console : list (Level * string);
  next_oid : nat;
  next_pid : nat;
}.

Definition emit (e : IOEvent) (h : Host) : Host :=
  {| io := io h ++ [e]; console := console h;
     next_oid := next_oid h; next_pid := next_pid h |}.

Definition logger (l : Level) (text : string) (h : Host) : Host :=
  {| io := io h; console := console h ++ [(l, text)];
     next_oid := next_oid h; next_pid := next_pid h |}.

Definition allocOid (h : Host) : nat * Host :=
  (next_oid h,
   {| io := io h; console := console h;
      next_oid := S (next_oid h); next_pid := next_pid h |}).

Definition allocPid (h : Host) : nat * Host :=
  (next_pid h,
   {| io := io h; console := console h;
      next_oid := next_oid h; next_pid := S (next_pid h) |}).

(** Object spread [{...base, ...extra}]. *)
Definition spread (base extra : list (string * string))
    : list (string * string) :=
  foldl (fun m '(k, v) => JsMap.set k v m) base extra.

(** ** State and exceptions *)

Definition M (S A : Type) : Type := S -> Completion A * S.

Definition ret {S A} (a : A) : M S A := fun s => (Return a, s).

Definition throw {S A} (e : JsError) : M S A := fun s => (Throw e, s).

Definition bind {S A B} (m : M S A) (k : A -> M S B) : M S B :=
  fun s =>
    match m s with
    | (Return a, s') => k a s'
    | (Throw e, s') => (Throw e, s')
    | (Hang, s') => (Hang, s')
    end.

(** [try { m } catch (error) { handler error }] *)
Definition tryCatch {S A} (m : M S A) (handler : JsError -> M S A) : M S A :=
  fun s =>
    match m s with
    | (Throw e, s') => handler e s'
    | r => r
    end.

Definition modify {S} (f : S -> S) : M S unit := fun s => (Return tt, f s).

Notation "'let!' x ':=' m 'in' k" := (bind m (fun x => k))
  (at level 10, x name, m at level 200, k at level 200,
   format "'[v' 'let!'  x  :=  m  'in' '/' k ']'").

(** ** What tools are handed to the agent *)

Inductive ClientRef := ProcessClient (oid : nat) | HttpClient (oid : nat).

(** [execute] closes over the client and the tool's name. *)
Record Tool := {
  description : string;
  parameters : ZodObject;
  execute : ClientRef * string;
}.

Definition qualifiedName (server tool : string) : string :=
  "mcp_" +:+ server +:+ "_" +:+ tool.

(** [mcpTool.description || mcpTool.name] *)
Definition descriptionOrName (t : MCPTool) : string :=
  if truthy (tool_description t)
  then default EmptyString (tool_description t)
  else tool_name t.

(** The loop of [getTools], the same text in both client classes. *)
Definition getToolsOf (self : ClientRef) (server : string)
    (tools : list MCPTool) : gmap string Tool :=
  foldl (fun (acc : gmap string Tool) mcpTool =>
           <[qualifiedName server (tool_name mcpTool) :=
               {| description := descriptionOrName mcpTool;
                  parameters := convertJsonSchemaToZod (inputSchema mcpTool);
                  execute := (self, tool_name mcpTool) |}]> acc)
        ∅ tools.

(** [Object.assign(target, source)] *)
Definition Object_assign {V} (target source : gmap string V) : gmap string V :=
  source ∪ target.

(** ** Text of the child's standard output *)

Definition newline : ascii := ascii_of_N 10.

(** [String.prototype.split] with a separator of one character. *)
Fixpoint splitOn (sep : ascii) (s : string) : list string :=
  match s with
  | EmptyString => [EmptyString]
  | String c s =>
      if Ascii.eqb c sep then EmptyString :: splitOn sep s
      else
        match splitOn sep s with
        | piece :: pieces => String c piece :: pieces
        | [] => [String c EmptyString]
        end
  end.

Fixpoint contains (c : ascii) (s : string) : bool :=
  match s with
  | EmptyString => false
  | String c' s => Ascii.eqb c' c || contains c s
  end.

(** What [handleData] asks of a line: [blank line] is [!line.trim()];
    [parse line] is [JSON.parse(line)] read as a message, [inl] when it
    throws or yields [null] (on which [handleMessage] throws inside the same
    [try]). *)
Record LineReader := {
  blank : string -> bool;
  parse : string -> JsError + MCPMessage;
}.

(** Lines as a child writes them: each one ended by a newline, then what it
    has written of the next one. *)
Definition frame (lines : list string) (tail : string) : string :=
  foldr (fun line rest => line +:+ String newline rest) tail lines.

(** ** The process transport: [class MCPClient] *)

(** What a child process does after a line was written to it: the events
    of its [ChildProcess].  [Stdout] is a complete line of its output,
    parsed; [Exit] is the ['exit'] event with its code and signal;
    [ChildError] is the ['error'] event, which Node emits when the command
    could not be executed ([spawn ... ENOENT]), among others. *)
Inductive ChildOutput :=
| Stdout (message : MCPMessage)
| Exit (code : option Z) (signal : option string)
| ChildError (e : JsError).

(** A value in a template literal: [null] when it is missing. *)
Definition orNull (v : option string) : string := default "null" v.

Module MCPClient.

(** [interface MCPServerConfig] of the process transport *)
Record ServerConfig := {
  name : string;
  description : option string;
  command : string;
  args : list string;
  env : option (list (string * string));
}.

(** [ChildProcess]; [stdin] tells whether the stream exists. *)
Record ChildProcess := { pid : nat; stdin : bool }.

Inductive Settlement :=
| Resolved (value : option RpcResult)
| Rejected (reason : JsError).

(** A [setTimeout] callback of [sendRequest] with what it closes over. *)
Record Timer := {
  due : N;
  timer_id : Z;
  timer_method : string;
  timer_promise : nat;
}.

(** The instance fields, then the part of the event loop that belongs to
    this instance: its clock, its scheduled callbacks and the promises
    handed out by [sendRequest] ([pendingRequests] holds the
    [resolve]/[reject] pair of a promise, named by the promise). *)
Record t := {
  oid : nat;
  config : ServerConfig;
  process : option ChildProcess;
  messageId : Z;
  pendingRequests : list (Id * nat);
  tools : list MCPTool;
  buffer : string;
  now : N;
  timers : list Timer;
  promises : list (nat * Settlement);
  next_promise : nat;
}.

(** [new MCPClient(config)] *)
Definition new (o : nat) (cfg : ServerConfig) : t :=
  {| oid := o; config := cfg; process := None; messageId := 0;
     pendingRequests := []; tools := []; buffer := EmptyString;
     now := 0%N; timers := []; promises := []; next_promise := 0%nat |}.

Definition set_process (v : option ChildProcess) (c : t) : t :=
  {| oid := oid c; config := config c; process := v;
     messageId := messageId c; pendingRequests := pendingRequests c;
     tools := tools c; buffer := buffer c; now := now c;
     timers := timers c; promises := promises c;
     next_promise := next_promise c |}.

Definition set_messageId (v : Z) (c : t) : t :=
  {| oid := oid c; config := config c; process := process c;
     messageId := v; pendingRequests := pendingRequests c;
     tools := tools c; buffer := buffer c; now := now c;
     timers := timers c; promises := promises c;
     next_promise := next_promise c |}.

Definition set_pendingRequests (v : list (Id * nat)) (c : t) : t :=
  {| oid := oid c; config := config c; process := process c;
     messageId := messageId c; pendingRequests := v;
     tools := tools c; buffer := buffer c; now := now c;
     timers := timers c; promises := promises c;
     next_promise := next_promise c |}.

Definition set_tools (v : list MCPTool) (c : t) : t :=
  {| oid := oid c; config := config c; process := process c;
     messageId := messageId c; pendingRequests := pendingRequests c;
     tools := v; buffer := buffer c; now := now c;
     timers := timers c; promises := promises c;
     next_promise := next_promise c |}.

Definition set_now (v : N) (c : t) : t :=
  {| oid := oid c; config := config c; process := process c;
     messageId := messageId c; pendingRequests := pendingRequests c;
     tools := tools c; buffer := buffer c; now := v;
     timers := timers c; promises := promises c;
     next_promise := next_promise c |}.

Definition set_timers (v : list Timer) (c : t) : t :=
  {| oid := oid c; config := config c; process := process c;
     messageId := messageId c; pendingRequests := pendingRequests c;
     tools := tools c; buffer := buffer c; now := now c;
     timers := v; promises := promises c;
     next_promise := next_promise c |}.

Definition set_promises (v : list (nat * Settlement)) (c : t) : t :=
  {| oid := oid c; config := config c; process := process c;
     messageId := messageId c; pendingRequests := pendingRequests c;
     tools := tools c; buffer := buffer c; now := now c;
     timers := timers c; promises := v;
     next_promise := next_promise c |}.

Definition set_next_promise (v : nat) (c : t) : t :=
  {| oid := oid c; config := config c; process := process c;
     messageId := messageId c; pendingRequests := pendingRequests c;
     tools := tools c; buffer := buffer c; now := now c;
     timers := timers c; promises := promises c;
     next_promise := v |}.

(** Settling a promise a second time has no effect. *)
Definition settle (p : nat) (o : Settlement) (c : t) : t :=
  if JsMap.has p (promises c) then c
  else set_promises (JsMap.set p o (promises c)) c.

Definition settlement (p : nat) (c : t) : option Settlement :=
  JsMap.get p (promises c).

(** [this.process && this.process.stdin] *)
Definition writable (this : t) : option nat :=
  match process this with
  | Some p => if stdin p then Some (pid p) else None
  | None => None
  end.

Definition notRunning (this : t) : JsError :=
  Error ("MCP server " +:+ name (config this) +:+ " is not running").

(** The delay passed to [setTimeout], in milliseconds. *)
Definition requestTimeout : N := 30000.

Definition timeoutError (m : string) : JsError :=
  Error ("Request timeout for " +:+ m).

(** The synchronous part of [sendRequest]: the guard, the id, and the
    executor of the returned promise. *)
Definition sendRequest (m : string) (p : JsonValue) : M (t * Host) nat :=
  fun '(this, host) =>
    match writable this with
    | None => (Throw (notRunning this), (this, host))
    | Some child =>
        let n := messageId this + 1 in
        let this := set_messageId n this in
        let message := requestMessage n m p in
        let promise := next_promise this in
        let this := set_next_promise (S promise) this in
        let this :=
          set_pendingRequests
            (JsMap.set (IdNum n) promise (pendingRequests this)) this in
        let host := emit (StdinWrite child message) host in
        let this :=
          set_timers
            (timers this ++
             [{| due := now this + requestTimeout; timer_id := n;
                 timer_method := m; timer_promise := promise |}]) this in
        (Return promise, (this, host))
    end.

(** The callback given to [setTimeout]. *)
Definition timeoutCallback (tm : Timer) (this : t) : t :=
  if JsMap.has (IdNum (timer_id tm)) (pendingRequests this) then
    let this :=
      set_pendingRequests
        (JsMap.delete (IdNum (timer_id tm)) (pendingRequests this)) this in
    settle (timer_promise tm) (Rejected (timeoutError (timer_method tm))) this
  else this.

Definition runCallbacks (ready : list Timer) (this : t) : t :=
  foldl (fun c tm => timeoutCallback tm c) this ready.

(** [ms] milliseconds pass: the callbacks that are due run, oldest first. *)
Definition elapse (ms : N) (this : t) : t :=
  let now' := (now this + ms)%N in
  let ready := List.filter (fun tm => (due tm <=? now')%N) (timers this) in
  let later := List.filter (fun tm => negb (due tm <=? now')%N) (timers this) in
  runCallbacks ready (set_now now' (set_timers later this)).

Definition sendNotification (m : string) (p : JsonValue) : M (t * Host) unit :=
  fun '(this, host) =>
    match writable this with
    | None => (Throw (notRunning this), (this, host))
    | Some child =>
        (Return tt, (this, emit (StdinWrite child (notificationMessage m p)) host))
    end.

Definition handleMessage (message : MCPMessage) (s : t * Host) : t * Host :=
  let '(this, host) := s in
  let known :=
    match id message with
    | Some i => JsMap.has i (pendingRequests this)
    | None => false
    end in
  if known then
    let i := default (IdNum 0) (id message) in
    let pending := JsMap.get i (pendingRequests this) in
    let this :=
      set_pendingRequests (JsMap.delete i (pendingRequests this)) this in
    let this :=
      match pending, error message with
      | Some p, Some e => settle p (Rejected (Error (error_message e))) this
      | Some p, None => settle p (Resolved (result message)) this
      | None, _ => this
      end in
    (this, host)
  else if truthy (method message) && bool_decide (id message = None) then
    (this, logger LogInfo
             ("MCP notification from " +:+ name (config this) +:+ ":") host)
  else if truthy (method message) && negb (bool_decide (id message = None)) then
    (this, logger LogWarn
             ("Unexpected request from MCP server " +:+ name (config this)
              +:+ ":") host)
  else (this, host).

(** The listener of the child's ['exit'] event. *)
Definition onExit (code : option Z) (signal : option string) (s : t * Host)
    : t * Host :=
  let '(this, host) := s in
  (set_process None this,
   logger LogInfo
     ("MCP server " +:+ name (config this) +:+ " exited with code "
      +:+ orNull (pretty <$> code) +:+ " and signal " +:+ orNull signal)
     host).

Definition stop : M (t * Host) unit :=
  fun '(this, host) =>
    match process this with
    | None => (Return tt, (this, host))
    | Some p =>
        let host :=
          logger LogInfo ("Stopping MCP server: " +:+ name (config this)) host in
        let host := emit (Kill (pid p)) host in
        let this := set_process None this in
        let this :=
          set_pendingRequests (JsMap.clear (pendingRequests this)) this in
        let this := set_tools [] this in
        (Return tt, (this, host))
    end.

(** [start] registers listeners for the data of [stdout] and of [stderr]
    and for ['exit'], and none for ['error']: when the child emits
    ['error'], Node throws the error as an uncaught exception and the
    hosting process dies. *)
Definition died (outputs : list ChildOutput) : bool :=
  existsb (fun o => match o with ChildError _ => true | _ => false end) outputs.

(** The events that reach the instance while a caller is suspended, up to
    the death of the hosting process. *)
Fixpoint deliver (outputs : list ChildOutput) (s : t * Host) : t * Host :=
  match outputs with
  | [] => s
  | Stdout message :: outputs => deliver outputs (handleMessage message s)
  | Exit code signal :: outputs => deliver outputs (onExit code signal s)
  | ChildError _ :: _ => s
  end.

(** [await] on the promise of [sendRequest]: the child's outputs are
    handled; a promise that is still unsettled waits for the clock.  The
    caller is not resumed when the hosting process has died. *)
Definition await (outputs : list ChildOutput) (promise : nat)
    : M (t * Host) (option RpcResult) :=
  fun s =>
    let '(this, host) := deliver outputs s in
    if died outputs then (Hang, (this, host))
    else
      let this :=
        match settlement promise this with
        | Some _ => this
        | None => elapse requestTimeout this
        end in
      match settlement promise this with
      | Some (Resolved v) => (Return v, (this, host))
      | Some (Rejected e) => (Throw e, (this, host))
      | None => (Hang, (this, host))
      end.

(** [await this.sendRequest(method, params)] against a child that answers
    a written message with [child message]. *)
Definition awaitRequest (child : MCPMessage -> list ChildOutput)
    (m : string) (p : JsonValue) : M (t * Host) (option RpcResult) :=
  let! promise := sendRequest m p in
  fun s => await (child (requestMessage (messageId (fst s)) m p)) promise s.

Definition info (text : t -> string) : M (t * Host) unit :=
  modify (fun '(this, host) => (this, logger LogInfo (text this) host)).

Definition initialize (child : MCPMessage -> list ChildOutput)
    : M (t * Host) unit :=
  let! response := awaitRequest child "initialize" initializeParams in
  let! _ := info (fun this =>
              "MCP server " +:+ name (config this) +:+ " initialized:") in
  sendNotification "notifications/initialized" (JObject []).

Definition fetchTools (child : MCPMessage -> list ChildOutput)
    : M (t * Host) unit :=
  let! response := awaitRequest child "tools/list" (JObject []) in
  match response with
  | Some r =>
      match result_tools r with
      | Some ts =>
          let! _ := modify (fun '(this, host) => (set_tools ts this, host)) in
          info (fun this =>
            "MCP server " +:+ name (config this) +:+ " has "
            +:+ pretty (length (tools this)) +:+ " tools:")
      | None => ret tt
      end
  | None => ret tt
  end.

(** The first half of [start], up to the registration of the listeners;
    [processEnv] is [process.env] of the hosting process.  [spawn()] comes
    back with a [ChildProcess] and its streams also when the command cannot
    be executed: that failure is the child's ['error'] event, see
    [ChildError] and [died]. *)
Definition spawn (processEnv : list (string * string)) (s : t * Host)
    : t * Host :=
  let '(this, host) := s in
  let host :=
    logger LogInfo ("Starting MCP server: " +:+ name (config this)) host in
  let '(child_pid, host) := allocPid host in
  let host :=
    emit (Spawn child_pid (command (config this)) (args (config this))
            (spread processEnv (default [] (env (config this))))) host in
  (set_process (Some {| pid := child_pid; stdin := true |}) this, host).

Definition start (processEnv : list (string * string))
    (child : MCPMessage -> list ChildOutput) : M (t * Host) unit :=
  fun '(this, host) =>
    match process this with
    | Some _ =>
        (Return tt,
         (this, logger LogWarn
                  ("MCP server " +:+ name (config this) +:+ " already started")
                  host))
    | None =>
        (let! _ := initialize child in fetchTools child)
          (spawn processEnv (this, host))
    end.

Definition getTools (this : t) : gmap string Tool :=
  getToolsOf (ProcessClient (oid this)) (name (config this)) (tools this).

Definition callTool (child : MCPMessage -> list ChildOutput)
    (toolName : string) (arguments : JsonValue)
    : M (t * Host) (option RpcResult) :=
  let! _ := info (fun this =>
              "Calling MCP tool " +:+ name (config this) +:+ "." +:+ toolName
              +:+ " with args:") in
  awaitRequest child "tools/call"
    (JObject [("name", JString toolName); ("arguments", arguments)]).

Definition set_buffer (v : string) (c : t) : t :=
  {| oid := oid c; config := config c; process := process c;
     messageId := messageId c; pendingRequests := pendingRequests c;
     tools := tools c; buffer := v; now := now c;
     timers := timers c; promises := promises c;
     next_promise := next_promise c |}.

(** The body of the loop of [handleData] for one complete line. *)
Definition handleLine (reader : LineReader) (line : string) (s : t * Host)
    : t * Host :=
  if blank reader line then s
  else
    match parse reader line with
    | inr message => handleMessage message s
    | inl e =>
        (fst s,
         logger LogError
           ("Failed to parse MCP message from " +:+ name (config (fst s)) +:+ ":")
           (snd s))
    end.

(** The listener of the child's standard output; [data] is
    [data.toString()], the text that this chunk decodes to by itself. *)
Definition handleData (reader : LineReader) (data : string) (s : t * Host)
    : t * Host :=
  let '(this, host) := s in
  let this := set_buffer (buffer this +:+ data) this in
  let lines := splitOn newline (buffer this) in
  let this := set_buffer (List.last lines EmptyString) this in
  foldl (fun s line => handleLine reader line s) (this, host)
        (List.removelast lines).

End MCPClient.

(** ** [class MCPManager] *)

Module MCPManager.

Record t := { clients : list (string * MCPClient.t) }.

(** [new MCPManager()] *)
Definition new : t := {| clients := [] |}.

Definition addServer (processEnv : list (string * string))
    (child : MCPClient.ServerConfig -> MCPMessage -> list ChildOutput)
    (config : MCPClient.ServerConfig) : M (t * Host) unit :=
  fun '(this, host) =>
    if JsMap.has (MCPClient.name config) (clients this) then
      (Return tt,
       (this, logger LogWarn
                ("MCP server " +:+ MCPClient.name config +:+ " already exists")
                host))
    else
      let '(o, host) := allocOid host in
      let client := MCPClient.new o config in
      match MCPClient.start processEnv (child config) (client, host) with
      | (Return _, (client, host)) =>
          (Return tt,
           ({| clients := JsMap.set (MCPClient.name config) client
                            (clients this) |}, host))
      | (Throw e, (_, host)) => (Throw e, (this, host))
      | (Hang, (_, host)) => (Hang, (this, host))
      end.

Definition removeServer (server : string) : M (t * Host) unit :=
  fun '(this, host) =>
    match JsMap.get server (clients this) with
    | None => (Return tt, (this, host))
    | Some client =>
        let '(_, (_, host)) := MCPClient.stop (client, host) in
        (Return tt, ({| clients := JsMap.delete server (clients this) |}, host))
    end.

Definition getAllTools (this : t) : gmap string Tool :=
  foldl (fun allTools client =>
           Object_assign allTools (MCPClient.getTools client))
        ∅ (JsMap.values (clients this)).

(** [Promise.all] over the [stop] of every client, then [clear]. *)
Definition stopAll : M (t * Host) unit :=
  fun '(this, host) =>
    let host :=
      foldl (fun host client => snd (snd (MCPClient.stop (client, host))))
            host (JsMap.values (clients this)) in
    (Return tt, ({| clients := JsMap.clear (clients this) |}, host)).

End MCPManager.

(** ** The HTTP transport: [class HTTPMCPClient] *)

(** How one [fetch] ends: it rejects, or a response arrives whose body
    parses ([inr]) or does not ([inl]). *)
Inductive FetchOutcome :=
| FetchFails (reason : JsError)
| Response (ok : bool) (status : N) (statusText : string)
           (json : JsError + MCPMessage).

Module HTTPMCPClient.

(** [interface HTTPMCPServerConfig] *)
Record ServerConfig := {
  name : string;
  description : option string;
  url : string;
  headers : option (list (string * string));
}.

Record t := {
  oid : nat;
  config : ServerConfig;
  messageId : Z;
  tools : list MCPTool;
  initialized : bool;
}.

(** [new HTTPMCPClient(config)] *)
Definition new (o : nat) (cfg : ServerConfig) : t :=
  {| oid := o; config := cfg; messageId := 0; tools := [];
     initialized := false |}.

Definition set_messageId (v : Z) (c : t) : t :=
  {| oid := oid c; config := config c; messageId := v; tools := tools c;
     initialized := initialized c |}.

Definition set_tools (v : list MCPTool) (c : t) : t :=
  {| oid := oid c; config := config c; messageId := messageId c; tools := v;
     initialized := initialized c |}.

Definition set_initialized (v : bool) (c : t) : t :=
  {| oid := oid c; config := config c; messageId := messageId c;
     tools := tools c; initialized := v |}.

(** [fetch(url, { method: 'POST', headers, body })] as the network
    answers it. *)
Definition Network : Type :=
  string -> list (string * string) -> MCPMessage -> FetchOutcome.

Definition requestHeaders (this : t) : list (string * string) :=
  spread [("Content-Type", "application/json")]
         (default [] (headers (config this))).

Definition post (net : Network) (message : MCPMessage)
    : M (t * Host) FetchOutcome :=
  fun '(this, host) =>
    (Return (net (url (config this)) (requestHeaders this) message),
     (this, emit (Fetch (url (config this)) (requestHeaders this) message) host)).

Definition log (l : Level) (text : t -> string) : M (t * Host) unit :=
  modify (fun '(this, host) => (this, logger l (text this) host)).

Definition sendRequest (net : Network) (m : string) (p : JsonValue)
    : M (t * Host) (option RpcResult) :=
  fun '(this, host) =>
    let n := messageId this + 1 in
    let this := set_messageId n this in
    let message := requestMessage n m p in
    tryCatch
      (let! response := post net message in
       match response with
       | FetchFails e => throw e
       | Response ok status statusText json =>
           if negb ok then
             throw (Error ("HTTP " +:+ pretty status +:+ ": " +:+ statusText))
           else
             match json with
             | inl e => throw e
             | inr data =>
                 match error data with
                 | Some e => throw (Error ("MCP Error: " +:+ error_message e))
                 | None => ret (result data)
                 end
             end
       end)
      (fun e =>
         let! _ := log LogError (fun this =>
                     "HTTP request to " +:+ name (config this) +:+ " failed:") in
         throw e)
      (this, host).

Definition sendNotification (net : Network) (m : string) (p : JsonValue)
    : M (t * Host) unit :=
  tryCatch
    (let! response := post net (notificationMessage m p) in
     match response with
     | FetchFails e => throw e
     | Response _ _ _ _ => ret tt
     end)
    (fun e =>
       log LogError (fun this =>
         "HTTP notification to " +:+ name (config this) +:+ " failed:")).

Definition initialize (net : Network) : M (t * Host) unit :=
  let! response := sendRequest net "initialize" initializeParams in
  let! _ := log LogInfo (fun this =>
              "HTTP MCP server " +:+ name (config this) +:+ " initialized:") in
  sendNotification net "notifications/initialized" (JObject []).

Definition fetchTools (net : Network) : M (t * Host) unit :=
  let! response := sendRequest net "tools/list" (JObject []) in
  match response with
  | Some r =>
      match result_tools r with
      | Some ts =>
          let! _ := modify (fun '(this, host) => (set_tools ts this, host)) in
          log LogInfo (fun this =>
            "HTTP MCP server " +:+ name (config this) +:+ " has "
            +:+ pretty (length (tools this)) +:+ " tools:")
      | None => ret tt
      end
  | None => ret tt
  end.

Definition start (net : Network) : M (t * Host) unit :=
  fun '(this, host) =>
    if initialized this then
      (Return tt,
       (this, logger LogWarn
                ("HTTP MCP server " +:+ name (config this)
                 +:+ " already initialized") host))
    else
      let host :=
        logger LogInfo
          ("Initializing HTTP MCP server: " +:+ name (config this) +:+ " at "
           +:+ url (config this)) host in
      tryCatch
        (let! _ := initialize net in
         let! _ := fetchTools net in
         let! _ := modify (fun '(this, host) => (set_initialized true this, host)) in
         log LogInfo (fun this =>
           "HTTP MCP server " +:+ name (config this)
           +:+ " initialized successfully"))
        (fun e =>
           let! _ := log LogError (fun this =>
                       "Failed to initialize HTTP MCP server "
                       +:+ name (config this) +:+ ":") in
           throw e)
        (this, host).

Definition stop : M (t * Host) unit :=
  let! _ := log LogInfo (fun this =>
              "Stopping HTTP MCP server: " +:+ name (config this)) in
  modify (fun '(this, host) => (set_tools [] (set_initialized false this), host)).

Definition getTools (this : t) : gmap string Tool :=
  getToolsOf (HttpClient (oid this)) (name (config this)) (tools this).

Definition callTool (net : Network) (toolName : string)
    (arguments : JsonValue) : M (t * Host) (option RpcResult) :=
  let! _ := log LogInfo (fun this =>
              "Calling HTTP MCP tool " +:+ name (config this) +:+ "."
              +:+ toolName +:+ " with args:") in
  sendRequest net "tools/call"
    (JObject [("name", JString toolName); ("arguments", arguments)]).

End HTTPMCPClient.

(** ** The loader: [mcpLoader.ts] *)

Inductive Transport := stdio | http.

#[global] Instance Transport_eq_dec : EqDecision Transport.
Proof. solve_decision. Defined.

(** [interface MCPServerConfig] of the loader *)
Module MCPServerConfig.
Record t := {
  name : string;
  description : option string;
  transport : Transport;
  command : option string;
  args : option (list string);
  env : option (list (string * string));
  url : option string;
  headers : option (list (string * string));
}.
End MCPServerConfig.

(** The module-level variables. *)
Record Store := {
  globalMCPManager : option MCPManager.t;
  globalHTTPClients : list (string * HTTPMCPClient.t);
  currentServerConfigs : string;
}.

(** The module as it is when first imported. *)
Definition initialStore : Store :=
  {| globalMCPManager := None; globalHTTPClients := [];
     currentServerConfigs := EmptyString |}.

Definition initialHost : Host :=
  {| io := []; console := []; next_oid := 0%nat; next_pid := 0%nat |}.

(** What surrounds one call of the loader: [process.env], the behaviour of
    the children it may spawn and the network. *)
Record World := {
  process_env : list (string * string);
  child : MCPClient.ServerConfig -> MCPMessage -> list ChildOutput;
  network : HTTPMCPClient.Network;
}.

Definition isServerless (w : World) : bool :=
  truthy (JsMap.get "AWS_LAMBDA_FUNCTION_NAME" (process_env w))
  || truthy (JsMap.get "VERCEL" (process_env w))
  || truthy (JsMap.get "NETLIFY" (process_env w)).

(** [JSON.stringify(stdioServers.map(s => ({ name, command, args, env })))] *)
Definition fingerprintOf (s : MCPServerConfig.t) : string :=
  JSON.object [("name", Some (JSON.quote (MCPServerConfig.name s)));
               ("command", JSON.quote <$> MCPServerConfig.command s);
               ("args", JSON.strings <$> MCPServerConfig.args s);
               ("env", JSON.record <$> MCPServerConfig.env s)].

Definition configHash (stdioServers : list MCPServerConfig.t) : string :=
  JSON.array (map fingerprintOf stdioServers).

Definition set_globalMCPManager (v : option MCPManager.t) (s : Store) : Store :=
  {| globalMCPManager := v; globalHTTPClients := globalHTTPClients s;
     currentServerConfigs := currentServerConfigs s |}.

Definition set_globalHTTPClients (v : list (string * HTTPMCPClient.t))
    (s : Store) : Store :=
  {| globalMCPManager := globalMCPManager s; globalHTTPClients := v;
     currentServerConfigs := currentServerConfigs s |}.

Definition set_currentServerConfigs (v : string) (s : Store) : Store :=
  {| globalMCPManager := globalMCPManager s;
     globalHTTPClients := globalHTTPClients s; currentServerConfigs := v |}.

Definition log (l : Level) (text : string) : M (Store * Host) unit :=
  modify (fun '(store, host) => (store, logger l text host)).

(** A method called on [globalMCPManager]; on [null] the call is a
    [TypeError]. *)
Definition onManager {A} (m : M (MCPManager.t * Host) A) : M (Store * Host) A :=
  fun '(store, host) =>
    match globalMCPManager store with
    | None =>
        (Throw (Error "Cannot read properties of null"), (store, host))
    | Some manager =>
        let '(r, (manager, host)) := m (manager, host) in
        (r, (set_globalMCPManager (Some manager) store, host))
    end.

(** One turn of [for (const server of stdioServers)]. *)
Definition startStdioServer (w : World) (server : MCPServerConfig.t)
    : M (Store * Host) unit :=
  if negb (truthy (MCPServerConfig.command server)) then ret tt
  else
    let! _ := log LogInfo
                ("Starting stdio MCP server: " +:+ MCPServerConfig.name server) in
    onManager
      (MCPManager.addServer (process_env w) (child w)
         {| MCPClient.name := MCPServerConfig.name server;
            MCPClient.description := MCPServerConfig.description server;
            MCPClient.command := default EmptyString (MCPServerConfig.command server);
            MCPClient.args := default [] (MCPServerConfig.args server);
            MCPClient.env := MCPServerConfig.env server |}).

Fixpoint forEach {S A} (body : A -> M S unit) (items : list A) : M S unit :=
  match items with
  | [] => ret tt
  | x :: items => let! _ := body x in forEach body items
  end.

(** The branch taken when the fingerprint differs. *)
Definition restartManager (w : World) (stdioServers : list MCPServerConfig.t)
    (hash : string) : M (Store * Host) unit :=
  let! _ :=
    fun '(store, host) =>
      match globalMCPManager store with
      | Some _ =>
          (let! _ := log LogInfo
                       "Stdio MCP server configs changed, restarting manager" in
           onManager MCPManager.stopAll) (store, host)
      | None => (Return tt, (store, host))
      end in
  let! _ := modify (fun '(store, host) =>
              (set_globalMCPManager (Some MCPManager.new) store, host)) in
  let! _ := forEach (startStdioServer w) stdioServers in
  modify (fun '(store, host) => (set_currentServerConfigs hash store, host)).

(** [globalMCPManager?.getAllTools() || {}] *)
Definition managerTools (store : Store) : gmap string Tool :=
  match globalMCPManager store with
  | Some manager => MCPManager.getAllTools manager
  | None => ∅
  end.

(** [if (stdioServers.length > 0) { ... }]; the result is [allTools] after
    the block. *)
Definition loadStdio (w : World) (stdioServers : list MCPServerConfig.t)
    (allTools : gmap string Tool) : M (Store * Host) (gmap string Tool) :=
  if bool_decide (0 < length stdioServers)%nat then
    if isServerless w then
      let! _ := log LogWarn
        ("Skipping stdio MCP servers in serverless environment. "
         +:+ "Use HTTP transport for serverless deployments.") in
      ret allTools
    else
      let hash := configHash stdioServers in
      let! _ :=
        fun '(store, host) =>
          if negb (String.eqb hash (currentServerConfigs store))
          then restartManager w stdioServers hash (store, host)
          else (Return tt, (store, host)) in
      fun '(store, host) =>
        let stdioTools := managerTools store in
        (Return (Object_assign allTools stdioTools), (store, host))
  else ret allTools.

(** The [try] block of one turn of [for (const server of httpServers)];
    [allTools] is threaded through. *)
Definition loadHttpServer (w : World) (server : MCPServerConfig.t)
    (allTools : gmap string Tool) : M (Store * Host) (gmap string Tool) :=
  let! client :=
    fun '(store, host) =>
      match JsMap.get (MCPServerConfig.name server) (globalHTTPClients store) with
      | Some client => (Return client, (store, host))
      | None =>
          let '(o, host) := allocOid host in
          let client :=
            HTTPMCPClient.new o
              {| HTTPMCPClient.name := MCPServerConfig.name server;
                 HTTPMCPClient.description := MCPServerConfig.description server;
                 HTTPMCPClient.url := default EmptyString (MCPServerConfig.url server);
                 HTTPMCPClient.headers := MCPServerConfig.headers server |} in
          match HTTPMCPClient.start (network w) (client, host) with
          | (Return _, (client, host)) =>
              (Return client,
               (set_globalHTTPClients
                  (JsMap.set (MCPServerConfig.name server) client
                     (globalHTTPClients store)) store, host))
          | (Throw e, (_, host)) => (Throw e, (store, host))
          | (Hang, (_, host)) => (Hang, (store, host))
          end
      end in
  let httpTools := HTTPMCPClient.getTools client in
  let! _ := log LogInfo
              ("Loaded " +:+ pretty (size httpTools)
               +:+ " tools from HTTP server " +:+ MCPServerConfig.name server) in
  ret (Object_assign allTools httpTools).

(** The [for] loop over [httpServers]: a failure of one turn is logged and
    the loop goes on with [allTools] as it was. *)
Fixpoint loadHttpServers (w : World) (httpServers : list MCPServerConfig.t)
    (allTools : gmap string Tool) : M (Store * Host) (gmap string Tool) :=
  match httpServers with
  | [] => ret allTools
  | server :: rest =>
      if negb (truthy (MCPServerConfig.url server))
      then loadHttpServers w rest allTools
      else
        let! allTools :=
          tryCatch (loadHttpServer w server allTools)
            (fun e =>
               let! _ := log LogError
                           ("Failed to load HTTP MCP server "
                            +:+ MCPServerConfig.name server +:+ ":") in
               ret allTools) in
        loadHttpServers w rest allTools
  end.

Definition loadHttp (w : World) (httpServers : list MCPServerConfig.t)
    (allTools : gmap string Tool) : M (Store * Host) (gmap string Tool) :=
  if bool_decide (0 < length httpServers)%nat then
    let! _ := log LogInfo
                ("Initializing " +:+ pretty (length httpServers)
                 +:+ " HTTP MCP server(s)") in
    loadHttpServers w httpServers allTools
  else ret allTools.

Definition stdioServersOf (servers : list MCPServerConfig.t)
    : list MCPServerConfig.t :=
  List.filter (fun s => bool_decide (MCPServerConfig.transport s = stdio)) servers.

Definition httpServersOf (servers : list MCPServerConfig.t)
    : list MCPServerConfig.t :=
  List.filter (fun s => bool_decide (MCPServerConfig.transport s = http)) servers.

(** The [try] block of [loadMCPTools]. *)
Definition loadMCPTools_try (w : World) (servers : list MCPServerConfig.t)
    : M (Store * Host) (gmap string Tool) :=
  let! allTools := loadStdio w (stdioServersOf servers) ∅ in
  let! allTools := loadHttp w (httpServersOf servers) allTools in
  let! _ := log LogInfo
              ("Loaded " +:+ pretty (size allTools) +:+ " total MCP tools") in
  ret allTools.

Definition loadMCPTools (w : World) (servers : list MCPServerConfig.t)
    : M (Store * Host) (gmap string Tool) :=
  tryCatch (loadMCPTools_try w servers)
    (fun e =>
       let! _ := log LogError "Failed to load MCP tools:" in
       ret ∅).

Definition cleanupMCPServers : M (Store * Host) unit :=
  let! _ :=
    fun '(store, host) =>
      match globalMCPManager store with
      | Some _ =>
          (let! _ := log LogInfo "Cleaning up stdio MCP servers" in
           let! _ := onManager MCPManager.stopAll in
           modify (fun '(store, host) =>
             (set_currentServerConfigs EmptyString
                (set_globalMCPManager None store), host))) (store, host)
      | None => (Return tt, (store, host))
      end in
  fun '(store, host) =>
    if bool_decide (0 < JsMap.size (globalHTTPClients store))%nat then
      let host := logger LogInfo "Cleaning up HTTP MCP clients" host in
      let host :=
        foldl (fun host client => snd (snd (HTTPMCPClient.stop (client, host))))
              host (JsMap.values (globalHTTPClients store)) in
      (Return tt,
       (set_globalHTTPClients (JsMap.clear (globalHTTPClients store)) store,
        host))
    else (Return tt, (store, host)).

(** ** One process-transport session under the events that reach it *)

Inductive SessionEvent :=
| CallSendRequest (m : string) (p : JsonValue)
| CallSendNotification (m : string) (p : JsonValue)
| CallStop
| Receive (message : MCPMessage)
| ChildExit (code : option Z) (signal : option string)
| Elapse (ms : N).

Definition step (s : MCPClient.t * Host) (e : SessionEvent)
    : MCPClient.t * Host :=
  match e with
  | CallSendRequest m p => snd (MCPClient.sendRequest m p s)
  | CallSendNotification m p => snd (MCPClient.sendNotification m p s)
  | CallStop => snd (MCPClient.stop s)
  | Receive message => MCPClient.handleMessage message s
  | ChildExit code signal => MCPClient.onExit code signal s
  | Elapse ms => (MCPClient.elapse ms (fst s), snd s)
  end.

Definition runEvents (s : MCPClient.t * Host) (evs : list SessionEvent)
    : MCPClient.t * Host :=
  foldl step s evs.

(** A session right after its child was spawned. *)
Definition spawned (o : nat) (cfg : MCPClient.ServerConfig)
    (processEnv : list (string * string)) (host : Host) : MCPClient.t * Host :=
  MCPClient.spawn processEnv (MCPClient.new o cfg, host).

Definition elapsed (evs : list SessionEvent) : N :=
  foldr (fun e acc => match e with Elapse ms => (ms + acc)%N | _ => acc end)
        0%N evs.

Definition isPending (n : Z) (s : MCPClient.t * Host) : bool :=
  JsMap.has (IdNum n) (MCPClient.pendingRequests (fst s)).

(** Neither [stop()] nor a message that carries the id [n]. *)
Definition quietFor (n : Z) (e : SessionEvent) : bool :=
  match e with
  | CallStop => false
  | Receive message => negb (bool_decide (id message = Some (IdNum n)))
  | _ => true
  end.



(** A process-transport configuration and an HTTP one, used in examples. *)
Definition fsConfig : MCPClient.ServerConfig :=
  {| MCPClient.name := "fs"; MCPClient.description := None;
     MCPClient.command := "npx"; MCPClient.args := ["-y"; "server-filesystem"];
     MCPClient.env := None |}.

Definition remoteConfig : HTTPMCPClient.ServerConfig :=
  {| HTTPMCPClient.name := "remote"; HTTPMCPClient.description := None;
     HTTPMCPClient.url := "https://mcp.example/rpc";
     HTTPMCPClient.headers := None |}.

(** A network on which every [fetch] rejects. *)
Definition unreachable : HTTPMCPClient.Network :=
  fun _ _ _ => FetchFails (Error "fetch failed").

(** ** Bookkeeping of one process-transport session

    What holds of an instance at every moment of its life: ids and promises
    are handed out together, every entry of the pending table is unsettled
    and has its timeout scheduled, and scheduled timeouts lie in the
    future. *)
Record Consistent (c : MCPClient.t) : Prop := {
  ids_follow_promises :
    MCPClient.messageId c = Z.of_nat (MCPClient.next_promise c);
  pending_tracked :
    forall k p, (k, p) ∈ MCPClient.pendingRequests c ->
      k = IdNum (Z.of_nat p + 1)
      /\ (p < MCPClient.next_promise c)%nat
      /\ MCPClient.settlement p c = None
      /\ exists tm, tm ∈ MCPClient.timers c /\ MCPClient.timer_promise tm = p;
  timers_tracked :
    forall tm, tm ∈ MCPClient.timers c ->
      MCPClient.timer_id tm = Z.of_nat (MCPClient.timer_promise tm) + 1
      /\ (MCPClient.timer_promise tm < MCPClient.next_promise c)%nat
      /\ (MCPClient.now c < MCPClient.due tm)%N
      /\ (MCPClient.due tm <= MCPClient.now c + MCPClient.requestTimeout)%N;
  timers_distinct :
    NoDup (MCPClient.timer_promise <$> MCPClient.timers c);
  promises_allocated :
    forall p o, (p, o) ∈ MCPClient.promises c ->
      (p < MCPClient.next_promise c)%nat;
}.

(** The request with id [n], method [m] and promise [p] is outstanding and
    its timeout is scheduled for [d]. *)
Record InFlight (n : Z) (m : string) (p : nat) (d : N) (c : MCPClient.t)
    : Prop := {
  inflight_pending : JsMap.get (IdNum n) (MCPClient.pendingRequests c) = Some p;
  inflight_timer :
    {| MCPClient.due := d; MCPClient.timer_id := n;
       MCPClient.timer_method := m; MCPClient.timer_promise := p |}
    ∈ MCPClient.timers c;
}.

(** The request has timed out. *)
Record TimedOut (n : Z) (m : string) (p : nat) (c : MCPClient.t) : Prop := {
  timedout_rejected :
    MCPClient.settlement p c = Some (MCPClient.Rejected (MCPClient.timeoutError m));
  timedout_evicted : JsMap.has (IdNum n) (MCPClient.pendingRequests c) = false;
  timedout_old : n <= MCPClient.messageId c;
}.

(** The time an event takes. *)
Definition duration (e : SessionEvent) : N :=
  match e with Elapse ms => ms | _ => 0%N end.

(** The id [n] was handed out and is not in the pending table. *)
Definition Gone (n : Z) (c : MCPClient.t) : Prop :=
  JsMap.has (IdNum n) (MCPClient.pendingRequests c) = false
  /\ n <= MCPClient.messageId c.

(** A late reply to the request with id [n]. *)
Definition replyTo (n : Z) : MCPMessage :=
  {| id := Some (IdNum n); method := None; params := None;
     result := Some {| result_tools := None; result_other := [] |};
     error := None |}.

(** The events a child's outputs are for the instance, up to the death of
    the hosting process. *)
Fixpoint toEvents (outputs : list ChildOutput) : list SessionEvent :=
  match outputs with
  | [] => []
  | Stdout message :: outputs => Receive message :: toEvents outputs
  | Exit code signal :: outputs => ChildExit code signal :: toEvents outputs
  | ChildError _ :: _ => []
  end.

(** ** What a call may do to its surroundings *)

(** [h'] is [h] after more calls: the trace has grown at its end, and
    identities were only handed out. *)
Record Grows (h h' : Host) : Prop := {
  grows_io : exists rest, io h' = io h ++ rest;
  grows_oid : (next_oid h <= next_oid h')%nat;
  grows_pid : (next_pid h <= next_pid h')%nat;
}.

(** A computation that always comes back (it returns or throws) and only
    adds to the host. *)
Definition Ok {S A} (host : S -> Host) (m : M S A) : Prop :=
  forall s, fst (m s) <> Hang /\ Grows (host s) (host (snd (m s))).

(** A child that never emits ['error'], and a world in which no child
    does. *)
Definition Runs (child : MCPMessage -> list ChildOutput) : Prop :=
  forall request, MCPClient.died (child request) = false.

Definition ChildrenRun (w : World) : Prop :=
  forall cfg, Runs (child w cfg).

(** A completion other than a return. *)
Definition failed {A} (r : Completion A) : Prop :=
  match r with Return _ => False | _ => True end.

(** The same for a method of a process-transport instance, which moreover
    keeps the bookkeeping consistent and the instance's identity; it comes
    back when [alive] holds. *)
Definition ClientOk {A} (alive : Prop) (m : M (MCPClient.t * Host) A) : Prop :=
  forall c h,
    Consistent c ->
    (alive -> fst (m (c, h)) <> Hang)
    /\ Consistent (fst (snd (m (c, h))))
    /\ Grows h (snd (snd (m (c, h))))
    /\ MCPClient.oid (fst (snd (m (c, h)))) = MCPClient.oid c
    /\ MCPClient.config (fst (snd (m (c, h)))) = MCPClient.config c.

(** ** Sessions that a load starts and stops *)

(** The configuration the loader hands to [addServer] for a server. *)
Definition processConfigOf (server : MCPServerConfig.t) : MCPClient.ServerConfig :=
  {| MCPClient.name := MCPServerConfig.name server;
     MCPClient.description := MCPServerConfig.description server;
     MCPClient.command := default EmptyString (MCPServerConfig.command server);
     MCPClient.args := default [] (MCPServerConfig.args server);
     MCPClient.env := MCPServerConfig.env server |}.

(** [c] is a process-transport session that was created after the host was
    [h0] and whose [start()] returned normally in the world [w]. *)
Definition StartedProcess (w : World) (h0 : Host) (c : MCPClient.t) : Prop :=
  exists h h',
    Grows h0 h
    /\ MCPClient.start (process_env w) (child w (MCPClient.config c))
         (MCPClient.new (next_oid h) (MCPClient.config c), snd (allocOid h))
       = (Return tt, (c, h')).

(** The same for an HTTP session. *)
Definition StartedHttp (w : World) (h0 : Host) (c : HTTPMCPClient.t) : Prop :=
  exists h h',
    Grows h0 h
    /\ HTTPMCPClient.start (network w)
         (HTTPMCPClient.new (next_oid h) (HTTPMCPClient.config c),
          snd (allocOid h))
       = (Return tt, (c, h')).

(** The [kill()] calls of [stopAll] on a manager. *)
Definition kills (manager : MCPManager.t) : list IOEvent :=
  omap (fun c => (fun p => Kill (MCPClient.pid p)) <$> MCPClient.process c)
       (JsMap.values (MCPManager.clients manager)).

(** The contract of a method of an HTTP instance. *)
Definition HttpOk {A} (m : M (HTTPMCPClient.t * Host) A) : Prop :=
  forall c h,
    fst (m (c, h)) <> Hang
    /\ Grows h (snd (snd (m (c, h))))
    /\ HTTPMCPClient.oid (fst (snd (m (c, h)))) = HTTPMCPClient.oid c
    /\ HTTPMCPClient.config (fst (snd (m (c, h)))) = HTTPMCPClient.config c.

(** What the loop over the HTTP servers has done when it went from
    [store], [host] to [store'], [host'] with the tools [result], having
    begun with [acc]. *)
Record HttpLoad (w : World) (servers : list MCPServerConfig.t)
    (acc : gmap string Tool) (store : Store) (host : Host)
    (result : gmap string Tool) (store' : Store) (host' : Host) : Prop := {
  http_manager : globalMCPManager store' = globalMCPManager store;
  http_fingerprint : currentServerConfigs store' = currentServerConfigs store;
  http_grows : Grows host host';
  http_persist :
    forall n c,
      JsMap.get n (globalHTTPClients store) = Some c ->
      JsMap.get n (globalHTTPClients store') = Some c;
  http_new :
    forall n c,
      JsMap.get n (globalHTTPClients store') = Some c ->
      JsMap.get n (globalHTTPClients store) = Some c
      \/ (StartedHttp w host c
          /\ exists server,
               server ∈ servers
               /\ truthy (MCPServerConfig.url server) = true
               /\ MCPServerConfig.name server = n);
  http_keys :
    forall key,
      key ∈ dom result
      <-> key ∈ dom acc
          \/ exists server c,
               server ∈ servers
               /\ truthy (MCPServerConfig.url server) = true
               /\ JsMap.get (MCPServerConfig.name server)
                    (globalHTTPClients store') = Some c
               /\ key ∈ dom (HTTPMCPClient.getTools c);
  http_idle :
    (forall server,
        server ∈ servers -> truthy (MCPServerConfig.url server) = true ->
        JsMap.has (MCPServerConfig.name server) (globalHTTPClients store) = true) ->
    store' = store /\ io host' = io host
    /\ next_oid host' = next_oid host /\ next_pid host' = next_pid host;
}.

(** The [kill()] calls a restart makes on the manager it replaces. *)
Definition killsOf (manager : option MCPManager.t) : list IOEvent :=
  match manager with
  | Some manager => kills manager
  | None => []
  end.

(** ** The example scenario: a process-transport server [fs] with the tools
    [read] and [write], an HTTP server [remote] with the tool [search] *)

Definition plainTool (n : string) : MCPTool :=
  {| tool_name := n; tool_description := None;
     inputSchema := {| schema_type := "object"; properties := None;
                       required := None |} |}.

(** A response to [request] that carries [tools]. *)
Definition responseTo (request : MCPMessage) (tools : option (list MCPTool))
    : MCPMessage :=
  {| id := id request; method := None; params := None;
     result := Some {| result_tools := tools; result_other := [] |};
     error := None |}.

Definition stdioServer (n : string) (c : option string) : MCPServerConfig.t :=
  {| MCPServerConfig.name := n; MCPServerConfig.description := None;
     MCPServerConfig.transport := stdio; MCPServerConfig.command := c;
     MCPServerConfig.args := Some ["-y"]; MCPServerConfig.env := None;
     MCPServerConfig.url := None; MCPServerConfig.headers := None |}.

Definition httpServer (n : string) (u : option string) : MCPServerConfig.t :=
  {| MCPServerConfig.name := n; MCPServerConfig.description := None;
     MCPServerConfig.transport := http; MCPServerConfig.command := None;
     MCPServerConfig.args := None; MCPServerConfig.env := None;
     MCPServerConfig.url := u; MCPServerConfig.headers := None |}.

(** The child [fs] answers every request with its two tools, every other
    child stays silent; the network answers at [https://remote.example]
    with the tool [search] and is unreachable elsewhere. *)
Definition exampleWorld : World :=
  {| process_env := [("PATH", "/usr/bin")];
     child := fun cfg request =>
       if String.eqb (MCPClient.name cfg) "fs"
       then [Stdout (responseTo request (Some [plainTool "read"; plainTool "write"]))]
       else [];
     network := fun url _ request =>
       if String.eqb url "https://remote.example"
       then Response true 200 "OK"
              (inr (responseTo request (Some [plainTool "search"])))
       else FetchFails (Error "fetch failed") |}.

Definition exampleServers : list MCPServerConfig.t :=
  [stdioServer "fs" (Some "npx"); httpServer "remote" (Some "https://remote.example")].

(** The example scenario, loaded on the module as first imported. *)
Definition exampleLoaded : Completion (gmap string Tool) * (Store * Host) :=
  Eval vm_compute in
    loadMCPTools_try exampleWorld exampleServers (initialStore, initialHost).

(** The example servers with a process-transport server [broken] whose
    child never answers, and with an HTTP server [down] that cannot be
    reached. *)
Definition serversWithBrokenProcess : list MCPServerConfig.t :=
  [stdioServer "fs" (Some "npx"); stdioServer "broken" (Some "nope");
   httpServer "remote" (Some "https://remote.example")].

Definition serversWithBrokenHttp : list MCPServerConfig.t :=
  [stdioServer "fs" (Some "npx"); httpServer "down" (Some "https://down.example");
   httpServer "remote" (Some "https://remote.example")].

(** What the fingerprint reads of a server. *)
Definition fingerprinted (s : MCPServerConfig.t)
    : string * option string * option (list string)
      * option (list (string * string)) :=
  (MCPServerConfig.name s, MCPServerConfig.command s, MCPServerConfig.args s,
   MCPServerConfig.env s).

(** The example servers when [remote] cannot be reached. *)
Definition offlineWorld : World :=
  {| process_env := process_env exampleWorld; child := child exampleWorld;
     network := unreachable |}.





(** ** Notions for the contracts of the transports and of the loader *)

(** A reader that agrees with [trim] and [JSON.parse] on the lines of the
    examples: the empty line and a space are blank, [{}] parses to the
    message without fields, and nothing else parses. *)
Definition exampleReader : LineReader :=
  {| blank := fun line => String.eqb line EmptyString || String.eqb line " ";
     parse := fun line =>
       if String.eqb line "{}"
       then inr {| id := None; method := None; params := None;
                   result := None; error := None |}
       else inl (Error "Unexpected token") |}.

Definition isKill (e : IOEvent) : bool :=
  match e with Kill _ => true | _ => false end.

(** [h'] is [h] after calls none of which was a [kill()]. *)
Definition Spares (h h' : Host) : Prop :=
  exists rest, io h' = io h ++ rest /\ Forall (fun e => isKill e = false) rest.

(** The server [fs] of the example, started on its own. *)
Definition fsStarted : Completion unit * (MCPClient.t * Host) :=
  MCPClient.start (process_env exampleWorld) (child exampleWorld fsConfig)
    (MCPClient.new 0 fsConfig, initialHost).

(** A server whose child never answers, added to a new manager. *)
Definition brokenAdded : Completion unit * (MCPManager.t * Host) :=
  MCPManager.addServer (process_env exampleWorld) (child exampleWorld)
    (processConfigOf (stdioServer "broken" (Some "nope")))
    (MCPManager.new, initialHost).

(** What [sendRequest] of the HTTP transport makes of the outcome of its
    [fetch]: the result of the response, or the error it throws. *)
Definition answerOf (o : FetchOutcome) : JsError + option RpcResult :=
  match o with
  | FetchFails e => inl e
  | Response false status statusText _ =>
      inl (Error ("HTTP " +:+ pretty status +:+ ": " +:+ statusText))
  | Response true _ _ (inl e) => inl e
  | Response true _ _ (inr data) =>
      match error data with
      | Some e => inl (Error ("MCP Error: " +:+ error_message e))
      | None => inr (result data)
      end
  end.

(** The tools a response to [tools/list] reports, [old] when it reports
    none. *)
Definition reportedTools (response : option RpcResult) (old : list MCPTool)
    : list MCPTool :=
  match response with
  | Some r => default old (result_tools r)
  | None => old
  end.

Definition accepted (o : FetchOutcome) : bool :=
  match answerOf o with inr _ => true | inl _ => false end.

Definition resultOf (o : FetchOutcome) : option RpcResult :=
  match answerOf o with inr v => v | inl _ => None end.

(** The HTTP server [remote] of the example, before its start. *)
Definition remoteNew : HTTPMCPClient.t :=
  HTTPMCPClient.new 0
    {| HTTPMCPClient.name := "remote"; HTTPMCPClient.description := None;
       HTTPMCPClient.url := "https://remote.example";
       HTTPMCPClient.headers := None |}.

(** The recorded fingerprint is empty as long as there is no manager. *)
Definition Tidy (store : Store) : Prop :=
  globalMCPManager store = None -> currentServerConfigs store = EmptyString.

(** The module with a session registered under the name [remote]. *)
Definition registeredStore : Store :=
  set_globalHTTPClients [("remote", HTTPMCPClient.new 0 remoteConfig)]
    initialStore.


(** The load of these servers on the module as first imported. *)
Definition partialLoaded : Completion (gmap string Tool) * (Store * Host) :=
  loadMCPTools exampleWorld serversWithBrokenProcess (initialStore, initialHost).

(** The example when the command of [broken] cannot be executed: its
    [ChildProcess] emits ['error'] once the first line was written to it. *)
Definition spawnErrorWorld : World :=
  {| process_env := process_env exampleWorld;
     child := fun cfg request =>
       if String.eqb (MCPClient.name cfg) "broken"
       then [ChildError (Error "spawn nope ENOENT")]
       else child exampleWorld cfg request;
     network := network exampleWorld |}.

Definition spawnErrorLoaded
    : Completion (gmap string Tool) * (Store * Host) :=
  loadMCPTools spawnErrorWorld serversWithBrokenProcess
    (initialStore, initialHost).

(** The example servers after [fs] was given a description. *)
Definition exampleServersDescribed : list MCPServerConfig.t :=
  [{| MCPServerConfig.name := "fs"; MCPServerConfig.description := Some "files";
      MCPServerConfig.transport := stdio; MCPServerConfig.command := Some "npx";
      MCPServerConfig.args := Some ["-y"]; MCPServerConfig.env := None;
      MCPServerConfig.url := None; MCPServerConfig.headers := None |};
   httpServer "remote" (Some "https://remote.example")].

(** The items of a joined list after its first one, each with the comma
    that precedes it. *)
Fixpoint tailOf (items : list string) : string :=
  match items with
  | [] => EmptyString
  | y :: items => "," +:+ y +:+ tailOf items
  end.

(** One member of [JSON.stringify] of a record of strings. *)
Definition entryOf (kv : string * string) : string :=
  JSON.quote kv.1 +:+ ":" +:+ JSON.quote kv.2.

(** ** The table of configured servers: the Convex functions [list],
    [listEnabled], [add], [update], [remove] and [toggleEnabled]

    The database is the list of the documents in the order of their
    creation; [insert] gives a document the next unused id, [patch]
    replaces the fields it names, [delete] takes the document out.  A
    mutation runs as one transaction. *)

Module mcpServers.

(** What [mcpServerValidator] lets through. *)
Record Args := {
  name : string;
  description : option string;
  transport : Transport;
  command : option string;
  args : option (list string);
  env : option (list (string * string));
  url : option string;
  headers : option (list (string * string));
  enabled : bool;
}.

(** A document of the table [mcpServers]: the system fields, the owner and
    the validated fields. *)
Record Doc := {
  _id : nat;
  _creationTime : N;
  memberId : nat;
  fields : Args;
}.

(** The table, in the order of creation, with what the database uses to
    make the system fields of the next document. *)
Record Db := {
  docs : list Doc;
  next_id : nat;
  clock : N;
}.

Definition empty : Db := {| docs := []; next_id := 0%nat; clock := 0%N |}.

Definition set_enabled (v : bool) (a : Args) : Args :=
  {| name := name a; description := description a; transport := transport a;
     command := command a; args := args a; env := env a; url := url a;
     headers := headers a; enabled := v |}.

(** [getCurrentMember(ctx)] is defined outside these files: [auth] is what
    it comes back with, the [_id] of the member or the error it throws. *)
Definition getCurrentMember (auth : JsError + nat) : M Db nat :=
  match auth with
  | inr member => ret member
  | inl e => throw e
  end.

(** [withIndex("byMemberId", q => q.eq("memberId", member))] *)
Definition byMemberId (member : nat) (db : Db) : list Doc :=
  List.filter (fun d => Nat.eqb (memberId d) member) (docs db).

(** [ctx.db.get(id)] *)
Definition get (id : nat) (db : Db) : option Doc :=
  List.find (fun d => Nat.eqb (_id d) id) (docs db).

(** [ctx.db.insert("mcpServers", { memberId, ...fields })] *)
Definition insert (member : nat) (a : Args) : M Db nat :=
  fun db =>
    (Return (next_id db),
     {| docs := docs db ++ [{| _id := next_id db; _creationTime := clock db;
                               memberId := member; fields := a |}];
        next_id := S (next_id db); clock := (clock db + 1)%N |}).

(** [ctx.db.patch(id, fields)] with [fields] computed from the document. *)
Definition patch (id : nat) (f : Args -> Args) : M Db unit :=
  modify (fun db =>
    {| docs := map (fun d => if Nat.eqb (_id d) id
                             then {| _id := _id d; _creationTime := _creationTime d;
                                     memberId := memberId d; fields := f (fields d) |}
                             else d) (docs db);
       next_id := next_id db; clock := clock db |}).

(** [ctx.db.delete(id)] *)
Definition delete (id : nat) : M Db unit :=
  modify (fun db =>
    {| docs := List.filter (fun d => negb (Nat.eqb (_id d) id)) (docs db);
       next_id := next_id db; clock := clock db |}).

(** The first document of [member] with the name [n]. *)
Definition byName (member : nat) (n : string) (db : Db) : option Doc :=
  List.find (fun d => String.eqb (name (fields d)) n) (byMemberId member db).

Definition alreadyExists (n : string) : JsError :=
  Error ("An MCP server with the name " +:+ String JSON.dquote n
         +:+ String JSON.dquote " already exists").

(** "Validate based on transport type". *)
Definition validate (a : Args) : M Db unit :=
  match transport a with
  | stdio =>
      if negb (truthy (command a))
      then throw (Error "Command is required for stdio transport")
      else ret tt
  | http =>
      if negb (truthy (url a))
      then throw (Error "URL is required for HTTP transport")
      else ret tt
  end.

Definition listEnabled (auth : JsError + nat) : M Db (option (list Doc)) :=
  tryCatch
    (let! member := getCurrentMember auth in
     fun db =>
       (Return (Some (List.filter (fun d => enabled (fields d))
                        (byMemberId member db))), db))
    (fun _ => ret None).

Definition add (auth : JsError + nat) (a : Args) : M Db nat :=
  let! member := getCurrentMember auth in
  fun db =>
    match byName member (name a) db with
    | Some _ => (Throw (alreadyExists (name a)), db)
    | None => (let! _ := validate a in insert member a) db
    end.

(** The owner's check that [update], [remove] and [toggleEnabled] begin
    with. *)
Definition owned (member : nat) (serverId : nat) (verb : string) : M Db Doc :=
  fun db =>
    match get serverId db with
    | None => (Throw (Error "MCP server not found"), db)
    | Some server =>
        if negb (Nat.eqb (memberId server) member)
        then (Throw (Error ("You don't have permission to " +:+ verb
                            +:+ " this MCP server")), db)
        else (Return server, db)
    end.

Definition update (auth : JsError + nat) (serverId : nat) (updates : Args)
    : M Db unit :=
  let! member := getCurrentMember auth in
  let! server := owned member serverId "update" in
  let! _ :=
    fun db =>
      if negb (String.eqb (name updates) (name (fields server))) then
        match byName member (name updates) db with
        | Some existing =>
            if negb (Nat.eqb (_id existing) serverId)
            then (Throw (alreadyExists (name updates)), db)
            else (Return tt, db)
        | None => (Return tt, db)
        end
      else (Return tt, db) in
  let! _ := validate updates in
  patch serverId (fun _ => updates).

Definition remove (auth : JsError + nat) (serverId : nat) : M Db unit :=
  let! member := getCurrentMember auth in
  let! server := owned member serverId "delete" in
  delete serverId.

Definition toggleEnabled (auth : JsError + nat) (serverId : nat) : M Db bool :=
  let! member := getCurrentMember auth in
  let! server := owned member serverId "update" in
  let newEnabled := negb (enabled (fields server)) in
  let! _ := patch serverId (set_enabled newEnabled) in
  ret newEnabled.

Definition list (auth : JsError + nat) : M Db (option (list Doc)) :=
  tryCatch
    (let! member := getCurrentMember auth in
     fun db => (Return (Some (byMemberId member db)), db))
    (fun _ => ret None).

End mcpServers.

(** The documents have distinct ids below the next one, and no member has
    two servers of the same name. *)
Record Sound (db : mcpServers.Db) : Prop := {
  ids_distinct : NoDup (mcpServers._id <$> mcpServers.docs db);
  ids_used :
    forall d, d ∈ mcpServers.docs db ->
      (mcpServers._id d < mcpServers.next_id db)%nat;
  names_distinct :
    forall d1 d2,
      d1 ∈ mcpServers.docs db -> d2 ∈ mcpServers.docs db ->
      mcpServers.memberId d1 = mcpServers.memberId d2 ->
      mcpServers.name (mcpServers.fields d1)
      = mcpServers.name (mcpServers.fields d2) ->
      d1 = d2;
}.

(** A server has the endpoint of its transport. *)
Definition hasEndpoint (a : mcpServers.Args) : bool :=
  match mcpServers.transport a with
  | stdio => truthy (mcpServers.command a)
  | http => truthy (mcpServers.url a)
  end.

Definition Valid (db : mcpServers.Db) : Prop :=
  forall d, d ∈ mcpServers.docs db -> hasEndpoint (mcpServers.fields d) = true.

(** The table after member 1 has added the process-transport server [fs]. *)
Definition fsArgs : mcpServers.Args :=
  {| mcpServers.name := "fs"; mcpServers.description := None;
     mcpServers.transport := stdio; mcpServers.command := Some "npx";
     mcpServers.args := Some ["-y"]; mcpServers.env := None;
     mcpServers.url := None; mcpServers.headers := None;
     mcpServers.enabled := true |}.

Definition exampleTable : mcpServers.Db :=
  snd (mcpServers.add (inr 1%nat) fsArgs mcpServers.empty).

(** * Properties *)


Lemma string_app_assoc (a b c : string) : (a +:+ b) +:+ c = a +:+ (b +:+ c).
Proof.
  induction a as [|x a IH]; [reflexivity|].
  change (String x ((a +:+ b) +:+ c) = String x (a +:+ (b +:+ c))).
  by f_equal.
Qed.

Lemma string_app_inv_head (a b c : string) : a +:+ b = a +:+ c -> b = c.
Proof.
  induction a as [|x a IH]; [done|].
  change (String x (a +:+ b) = String x (a +:+ c) -> b = c).
  intros [= H]. auto.
Qed.

Lemma unescape_escapeChar (c : ascii) (rest : string) :
  JSON.unescape (JSON.escapeChar c +:+ rest)
  = JSON.consResult c (JSON.unescape rest).
Proof.
  destruct c as [[] [] [] [] [] [] [] []]; reflexivity.
Qed.

Lemma unescape_escape (s rest : string) :
  JSON.unescape (JSON.escape s +:+ String JSON.dquote rest) = Some (s, rest).
Proof.
  induction s as [|c s IH]; [reflexivity|].
  cbn [JSON.escape]. rewrite string_app_assoc, unescape_escapeChar, IH.
  reflexivity.
Qed.

Lemma unquote_quote (s rest : string) :
  JSON.unquote (JSON.quote s +:+ rest) = Some (s, rest).
Proof.
  unfold JSON.quote.
  change (JSON.unescape ((JSON.escape s +:+ String JSON.dquote EmptyString) +:+ rest)
          = Some (s, rest)).
  rewrite string_app_assoc. apply unescape_escape.
Qed.

Lemma quote_inj_prefix (s1 s2 r1 r2 : string) :
  JSON.quote s1 +:+ r1 = JSON.quote s2 +:+ r2 -> s1 = s2 /\ r1 = r2.
Proof.
  intros H. pose proof (unquote_quote s1 r1) as H1.
  rewrite H, unquote_quote in H1. by injection H1 as -> ->.
Qed.

(** ** Facts about [JsMap] *)

Section JsMapFacts.
Context {K V : Type} `{EqDecision K}.
Implicit Types (m : list (K * V)) (k : K) (v : V).

Lemma get_set_eq m k v : JsMap.get k (JsMap.set k v m) = Some v.
Proof.
  induction m as [|[k' v'] m IH]; simpl.
  - by rewrite decide_True.
  - destruct (decide (k = k')) as [->|Hne]; simpl.
    + by rewrite decide_True.
    + by rewrite decide_False.
Qed.

Lemma get_set_ne m k k' v :
  k' <> k -> JsMap.get k' (JsMap.set k v m) = JsMap.get k' m.
Proof.
  intros Hne. induction m as [|[k2 v2] m IH]; simpl.
  - by rewrite decide_False.
  - destruct (decide (k = k2)) as [->|Hk]; simpl.
    + by rewrite !decide_False.
    + destruct (decide (k' = k2)); auto.
Qed.

Lemma get_delete_eq m k : JsMap.get k (JsMap.delete k m) = None.
Proof.
  induction m as [|[k' v'] m IH]; simpl; [done|].
  destruct (decide (k = k')); simpl; [done|]. by rewrite decide_False.
Qed.

Lemma get_delete_ne m k k' :
  k' <> k -> JsMap.get k' (JsMap.delete k m) = JsMap.get k' m.
Proof.
  intros Hne. induction m as [|[k2 v2] m IH]; simpl; [done|].
  destruct (decide (k = k2)) as [->|Hk]; simpl.
  - by rewrite decide_False.
  - destruct (decide (k' = k2)); auto.
Qed.

Lemma has_get m k : JsMap.has k m = bool_decide (is_Some (JsMap.get k m)).
Proof.
  unfold JsMap.has. destruct (JsMap.get k m); symmetry.
  - by apply bool_decide_eq_true.
  - apply bool_decide_eq_false. by intros [? ?].
Qed.

Lemma has_false_get m k : JsMap.has k m = false <-> JsMap.get k m = None.
Proof. unfold JsMap.has. destruct (JsMap.get k m); naive_solver. Qed.

Lemma has_true_get m k : JsMap.has k m = true <-> is_Some (JsMap.get k m).
Proof.
  rewrite has_get. apply bool_decide_eq_true.
Qed.

Lemma get_Some_elem m k v : JsMap.get k m = Some v -> (k, v) ∈ m.
Proof.
  induction m as [|[k' v'] m IH]; simpl; [done|].
  destruct (decide (k = k')) as [->|Hne].
  - intros [= ->]. left.
  - intros Hg. right. auto.
Qed.

Lemma elem_get_is_Some m k v : (k, v) ∈ m -> is_Some (JsMap.get k m).
Proof.
  induction m as [|[k' v'] m IH]; [by intros ?%elem_of_nil|].
  intros [[= -> ->]|Hin]%elem_of_cons; simpl.
  - rewrite decide_True by done. eauto.
  - destruct (decide (k = k')); eauto.
Qed.

Lemma elem_of_set m k v x : x ∈ JsMap.set k v m -> x = (k, v) \/ x ∈ m.
Proof.
  induction m as [|[k' v'] m IH]; simpl.
  - intros ->%list_elem_of_singleton. by left.
  - destruct (decide (k = k')) as [->|Hne].
    + intros [->|Hin]%elem_of_cons; [by left | right; by right].
    + intros [->|Hin]%elem_of_cons; [right; left|].
      destruct (IH Hin); [by left | right; by right].
Qed.

Lemma elem_of_set_other m k v x : x ∈ m -> x.1 <> k -> x ∈ JsMap.set k v m.
Proof.
  induction m as [|[k' v'] m IH]; [by intros ?%elem_of_nil|].
  intros [->|Hin]%elem_of_cons Hne; simpl in *.
  - rewrite decide_False by done. left.
  - destruct (decide (k = k')); right; auto.
Qed.

Lemma elem_of_delete m k x : x ∈ JsMap.delete k m <-> x ∈ m /\ x.1 <> k.
Proof.
  induction m as [|[k' v'] m IH]; simpl.
  - split; [by intros ?%elem_of_nil | by intros [?%elem_of_nil _]].
  - destruct (decide (k = k')) as [->|Hne].
    + rewrite IH, elem_of_cons. split.
      * intros [? ?]. auto.
      * intros [[->|Hin] Hx]; [done | auto].
    + rewrite !elem_of_cons, IH. split.
      * intros [->|[? ?]]; [split; [by left | simpl; congruence] | auto].
      * intros [[->|Hin] Hx]; [by left | by right].
Qed.
End JsMapFacts.

(** ** The schema translator *)








(** ** Notifications *)

(** C8, as the code has it.  On the HTTP transport [sendNotification] always
    returns normally, leaves the client as it was, and a rejected [fetch] is
    logged as an error.  On the process transport it throws "not running"
    when the instance has no child process with a standard input, and
    otherwise writes the message and returns. *)
Theorem notification_failures :
  (forall net m p this host,
      exists host',
        HTTPMCPClient.sendNotification net m p (this, host)
        = (Return tt, (this, host'))
        /\ io host' = io host
             ++ [Fetch (HTTPMCPClient.url (HTTPMCPClient.config this))
                       (HTTPMCPClient.requestHeaders this)
                       (notificationMessage m p)]
        /\ forall e,
             net (HTTPMCPClient.url (HTTPMCPClient.config this))
                 (HTTPMCPClient.requestHeaders this) (notificationMessage m p)
             = FetchFails e ->
             console host'
             = console host
               ++ [(LogError,
                    "HTTP notification to "
                    +:+ HTTPMCPClient.name (HTTPMCPClient.config this)
                    +:+ " failed:")])
  /\ (forall m p this host,
        MCPClient.writable this = None ->
        MCPClient.sendNotification m p (this, host)
        = (Throw (MCPClient.notRunning this), (this, host)))
  /\ (forall m p this host child,
        MCPClient.writable this = Some child ->
        MCPClient.sendNotification m p (this, host)
        = (Return tt,
           (this, emit (StdinWrite child (notificationMessage m p)) host))).
Proof.
  split; [|split].
  - intros net m p this host.
    unfold HTTPMCPClient.sendNotification, tryCatch, bind, HTTPMCPClient.post.
    destruct (net _ _ _) as [e|ok status text json] eqn:Hnet; simpl.
    + eexists. split; [reflexivity|]. split; [reflexivity|]. reflexivity.
    + eexists. split; [reflexivity|]. split; [reflexivity|].
      intros e He. discriminate.
  - intros m p this host Hw. unfold MCPClient.sendNotification. by rewrite Hw.
  - intros m p this host child Hw. unfold MCPClient.sendNotification.
    by rewrite Hw.
Qed.

Lemma notification_failures_witness :
  (exists host',
      HTTPMCPClient.sendNotification unreachable "notifications/initialized"
        (JObject []) (HTTPMCPClient.new 0 remoteConfig, initialHost)
      = (Return tt, (HTTPMCPClient.new 0 remoteConfig, host'))
      /\ console host'
         = [(LogError, "HTTP notification to remote failed:")])
  /\ MCPClient.sendNotification "notifications/initialized" (JObject [])
       (MCPClient.new 0 fsConfig, initialHost)
     = (Throw (Error "MCP server fs is not running"),
        (MCPClient.new 0 fsConfig, initialHost)).
Proof.
  split.
  - destruct (proj1 notification_failures unreachable
                "notifications/initialized" (JObject [])
                (HTTPMCPClient.new 0 remoteConfig) initialHost)
      as (host' & Hrun & _ & Hlog).
    exists host'. split; [exact Hrun|].
    apply (Hlog (Error "fetch failed")). reflexivity.
  - apply (proj1 (proj2 notification_failures)). reflexivity.
Defined.

(** The claim as the specification words it fails on the process transport:
    a notification sent after the child has exited is a thrown error. *)
Lemma notification_throws_on_process_transport :
  ~ (forall m p s,
        exists s', MCPClient.sendNotification m p s = (Return tt, s')).
Proof.
  intros H.
  destruct (H "notifications/initialized" (JObject [])
              (MCPClient.onExit (Some 0) None
                 (spawned 0 fsConfig [] initialHost)))
    as [s' Hs'].
  vm_compute in Hs'. discriminate.
Qed.

(** ** Promises and timeouts of the process transport *)

Lemma settle_fields p o c :
  MCPClient.oid (MCPClient.settle p o c) = MCPClient.oid c
  /\ MCPClient.config (MCPClient.settle p o c) = MCPClient.config c
  /\ MCPClient.process (MCPClient.settle p o c) = MCPClient.process c
  /\ MCPClient.messageId (MCPClient.settle p o c) = MCPClient.messageId c
  /\ MCPClient.pendingRequests (MCPClient.settle p o c)
     = MCPClient.pendingRequests c
  /\ MCPClient.tools (MCPClient.settle p o c) = MCPClient.tools c
  /\ MCPClient.now (MCPClient.settle p o c) = MCPClient.now c
  /\ MCPClient.timers (MCPClient.settle p o c) = MCPClient.timers c
  /\ MCPClient.next_promise (MCPClient.settle p o c) = MCPClient.next_promise c.
Proof.
  unfold MCPClient.settle. destruct (JsMap.has p (MCPClient.promises c));
    repeat split.
Qed.

Lemma settlement_settle_eq p o c :
  MCPClient.settlement p c = None ->
  MCPClient.settlement p (MCPClient.settle p o c) = Some o.
Proof.
  unfold MCPClient.settlement, MCPClient.settle. intros Hn.
  rewrite (proj2 (has_false_get _ _) Hn). simpl. apply get_set_eq.
Qed.

Lemma settlement_settle_ne p p' o c :
  p' <> p ->
  MCPClient.settlement p' (MCPClient.settle p o c) = MCPClient.settlement p' c.
Proof.
  unfold MCPClient.settlement, MCPClient.settle. intros Hne.
  destruct (JsMap.has p (MCPClient.promises c)); [done|].
  simpl. by apply get_set_ne.
Qed.

Lemma settlement_settle_keep p p' o o' c :
  MCPClient.settlement p' c = Some o' ->
  MCPClient.settlement p' (MCPClient.settle p o c) = Some o'.
Proof.
  intros Hs. destruct (decide (p' = p)) as [->|Hne].
  - unfold MCPClient.settle.
    rewrite (proj2 (has_true_get _ p)); [done|].
    unfold MCPClient.settlement in Hs. rewrite Hs. eauto.
  - by rewrite settlement_settle_ne.
Qed.

Lemma promises_settle p o c x :
  x ∈ MCPClient.promises (MCPClient.settle p o c) ->
  x = (p, o) \/ x ∈ MCPClient.promises c.
Proof.
  unfold MCPClient.settle. destruct (JsMap.has p (MCPClient.promises c)).
  - by right.
  - simpl. apply elem_of_set.
Qed.

Lemma timeoutCallback_fields tm c :
  MCPClient.oid (MCPClient.timeoutCallback tm c) = MCPClient.oid c
  /\ MCPClient.config (MCPClient.timeoutCallback tm c) = MCPClient.config c
  /\ MCPClient.process (MCPClient.timeoutCallback tm c) = MCPClient.process c
  /\ MCPClient.messageId (MCPClient.timeoutCallback tm c) = MCPClient.messageId c
  /\ MCPClient.tools (MCPClient.timeoutCallback tm c) = MCPClient.tools c
  /\ MCPClient.now (MCPClient.timeoutCallback tm c) = MCPClient.now c
  /\ MCPClient.timers (MCPClient.timeoutCallback tm c) = MCPClient.timers c
  /\ MCPClient.next_promise (MCPClient.timeoutCallback tm c)
     = MCPClient.next_promise c.
Proof.
  unfold MCPClient.timeoutCallback.
  destruct (JsMap.has _ _); [|repeat split].
  match goal with |- context [MCPClient.settle ?p ?o ?c'] =>
    destruct (settle_fields p o c') as (-> & -> & -> & -> & _ & -> & -> & -> & ->)
  end.
  repeat split.
Qed.

Lemma timeoutCallback_pending tm c :
  MCPClient.pendingRequests (MCPClient.timeoutCallback tm c)
  = JsMap.delete (IdNum (MCPClient.timer_id tm)) (MCPClient.pendingRequests c).
Proof.
  unfold MCPClient.timeoutCallback.
  destruct (JsMap.has _ _) eqn:Hhas.
  - match goal with |- context [MCPClient.settle ?p ?o ?c'] =>
      destruct (settle_fields p o c') as (_ & _ & _ & _ & -> & _)
    end. reflexivity.
  - apply has_false_get in Hhas. symmetry.
    induction (MCPClient.pendingRequests c) as [|[k v] l IH]; [done|].
    simpl in *. destruct (decide (_ = k)); [done|]. f_equal. auto.
Qed.

Lemma timeoutCallback_settlement_keep tm c p o :
  MCPClient.settlement p c = Some o ->
  MCPClient.settlement p (MCPClient.timeoutCallback tm c) = Some o.
Proof.
  intros Hs. unfold MCPClient.timeoutCallback.
  destruct (JsMap.has _ _); [|done]. by apply settlement_settle_keep.
Qed.

Lemma timeoutCallback_settlement_ne tm c p :
  MCPClient.timer_promise tm <> p ->
  MCPClient.settlement p (MCPClient.timeoutCallback tm c)
  = MCPClient.settlement p c.
Proof.
  intros Hne. unfold MCPClient.timeoutCallback.
  destruct (JsMap.has _ _); [|done]. by rewrite settlement_settle_ne.
Qed.

Lemma timeoutCallback_fires tm c :
  JsMap.has (IdNum (MCPClient.timer_id tm)) (MCPClient.pendingRequests c) = true ->
  MCPClient.settlement (MCPClient.timer_promise tm) c = None ->
  MCPClient.settlement (MCPClient.timer_promise tm)
    (MCPClient.timeoutCallback tm c)
  = Some (MCPClient.Rejected (MCPClient.timeoutError (MCPClient.timer_method tm))).
Proof.
  intros Hhas Hs. unfold MCPClient.timeoutCallback. rewrite Hhas.
  by apply settlement_settle_eq.
Qed.

Lemma timeoutCallback_promises tm c x :
  x ∈ MCPClient.promises (MCPClient.timeoutCallback tm c) ->
  x.1 = MCPClient.timer_promise tm \/ x ∈ MCPClient.promises c.
Proof.
  unfold MCPClient.timeoutCallback. destruct (JsMap.has _ _); [|by right].
  intros [->|Hin]%promises_settle; [by left | by right].
Qed.

Lemma runCallbacks_fields ready c :
  MCPClient.oid (MCPClient.runCallbacks ready c) = MCPClient.oid c
  /\ MCPClient.config (MCPClient.runCallbacks ready c) = MCPClient.config c
  /\ MCPClient.process (MCPClient.runCallbacks ready c) = MCPClient.process c
  /\ MCPClient.messageId (MCPClient.runCallbacks ready c) = MCPClient.messageId c
  /\ MCPClient.tools (MCPClient.runCallbacks ready c) = MCPClient.tools c
  /\ MCPClient.now (MCPClient.runCallbacks ready c) = MCPClient.now c
  /\ MCPClient.timers (MCPClient.runCallbacks ready c) = MCPClient.timers c
  /\ MCPClient.next_promise (MCPClient.runCallbacks ready c)
     = MCPClient.next_promise c.
Proof.
  revert c. induction ready as [|tm ready IH]; intros c; [repeat split|].
  change (MCPClient.runCallbacks (tm :: ready) c)
    with (MCPClient.runCallbacks ready (MCPClient.timeoutCallback tm c)).
  destruct (IH (MCPClient.timeoutCallback tm c))
    as (-> & -> & -> & -> & -> & -> & -> & ->).
  apply timeoutCallback_fields.
Qed.

Lemma runCallbacks_pending ready c x :
  x ∈ MCPClient.pendingRequests (MCPClient.runCallbacks ready c)
  <-> x ∈ MCPClient.pendingRequests c
      /\ forall tm, tm ∈ ready -> x.1 <> IdNum (MCPClient.timer_id tm).
Proof.
  revert c. induction ready as [|tm ready IH]; intros c.
  - simpl. split; [|by intros [? _]]. intros Hx. split; [done|].
    by intros tm ?%elem_of_nil.
  - change (MCPClient.runCallbacks (tm :: ready) c)
      with (MCPClient.runCallbacks ready (MCPClient.timeoutCallback tm c)).
    rewrite IH, timeoutCallback_pending, elem_of_delete. split.
    + intros [[Hx Hne] Hall]. split; [done|].
      intros tm' [->|Hin]%elem_of_cons; auto.
    + intros [Hx Hall]. split; [split; [done|]|].
      * apply Hall. left.
      * intros tm' Hin. apply Hall. by right.
Qed.

Lemma runCallbacks_get_other ready c k :
  (forall tm, tm ∈ ready -> IdNum (MCPClient.timer_id tm) <> k) ->
  JsMap.get k (MCPClient.pendingRequests (MCPClient.runCallbacks ready c))
  = JsMap.get k (MCPClient.pendingRequests c).
Proof.
  revert c. induction ready as [|tm ready IH]; intros c Hall; [done|].
  change (MCPClient.runCallbacks (tm :: ready) c)
    with (MCPClient.runCallbacks ready (MCPClient.timeoutCallback tm c)).
  rewrite IH by (intros tm' Hin; apply Hall; by right).
  rewrite timeoutCallback_pending. apply get_delete_ne.
  intros ->. eapply Hall; [left|done].
Qed.

Lemma runCallbacks_settlement_keep ready c p o :
  MCPClient.settlement p c = Some o ->
  MCPClient.settlement p (MCPClient.runCallbacks ready c) = Some o.
Proof.
  revert c. induction ready as [|tm ready IH]; intros c Hs; [done|].
  apply IH. by apply timeoutCallback_settlement_keep.
Qed.

Lemma runCallbacks_settlement_ne ready c p :
  (forall tm, tm ∈ ready -> MCPClient.timer_promise tm <> p) ->
  MCPClient.settlement p (MCPClient.runCallbacks ready c)
  = MCPClient.settlement p c.
Proof.
  revert c. induction ready as [|tm ready IH]; intros c Hall; [done|].
  change (MCPClient.runCallbacks (tm :: ready) c)
    with (MCPClient.runCallbacks ready (MCPClient.timeoutCallback tm c)).
  rewrite IH by (intros tm' Hin; apply Hall; by right).
  apply timeoutCallback_settlement_ne. apply Hall. left.
Qed.

Lemma runCallbacks_promises ready c x :
  x ∈ MCPClient.promises (MCPClient.runCallbacks ready c) ->
  (exists tm, tm ∈ ready /\ x.1 = MCPClient.timer_promise tm)
  \/ x ∈ MCPClient.promises c.
Proof.
  revert c. induction ready as [|tm ready IH]; intros c; [by right|].
  change (MCPClient.runCallbacks (tm :: ready) c)
    with (MCPClient.runCallbacks ready (MCPClient.timeoutCallback tm c)).
  intros [(tm' & Hin & Heq)|Hin]%IH.
  - left. exists tm'. split; [by right | done].
  - apply timeoutCallback_promises in Hin as [Heq|Hin]; [|by right].
    left. exists tm. split; [left | done].
Qed.

(** A timer that is due rejects its promise when its entry is still in the
    pending table. *)
Lemma runCallbacks_times_out ready c tm :
  tm ∈ ready ->
  NoDup (MCPClient.timer_promise <$> ready) ->
  (forall tm', tm' ∈ ready ->
     MCPClient.timer_id tm' = Z.of_nat (MCPClient.timer_promise tm') + 1) ->
  JsMap.has (IdNum (MCPClient.timer_id tm)) (MCPClient.pendingRequests c) = true ->
  MCPClient.settlement (MCPClient.timer_promise tm) c = None ->
  MCPClient.settlement (MCPClient.timer_promise tm)
    (MCPClient.runCallbacks ready c)
  = Some (MCPClient.Rejected (MCPClient.timeoutError (MCPClient.timer_method tm))).
Proof.
  revert c. induction ready as [|tm' ready IH]; intros c Hin Hnd Hid Hhas Hs.
  { by apply elem_of_nil in Hin. }
  change (MCPClient.runCallbacks (tm' :: ready) c)
    with (MCPClient.runCallbacks ready (MCPClient.timeoutCallback tm' c)).
  rewrite fmap_cons in Hnd. apply NoDup_cons in Hnd as [Hnotin Hnd].
  apply elem_of_cons in Hin as [->|Hin].
  - apply runCallbacks_settlement_keep. by apply timeoutCallback_fires.
  - assert (MCPClient.timer_promise tm' <> MCPClient.timer_promise tm) as Hne.
    { intros Heq. apply Hnotin. rewrite Heq.
      apply list_elem_of_fmap. eauto. }
    apply IH; try done.
    + intros tm2 H2. apply Hid. by right.
    + rewrite timeoutCallback_pending.
      apply has_true_get. rewrite get_delete_ne; [by apply has_true_get|].
      intros [= Heq]. apply Hne.
      rewrite (Hid tm), (Hid tm') in Heq; [lia | left | by right].
    + by rewrite timeoutCallback_settlement_ne.
Qed.

Lemma elem_of_List_filter {A} (f : A -> bool) (l : list A) (x : A) :
  x ∈ List.filter f l <-> x ∈ l /\ f x = true.
Proof. rewrite !list_elem_of_In. apply filter_In. Qed.

Lemma NoDup_fmap_List_filter {A B} (g : A -> B) (f : A -> bool) (l : list A) :
  NoDup (g <$> l) -> NoDup (g <$> List.filter f l).
Proof.
  induction l as [|x l IH]; [done|]. rewrite fmap_cons.
  intros [Hnotin Hnd]%NoDup_cons. simpl. destruct (f x); [|auto].
  rewrite fmap_cons. apply NoDup_cons. split; [|auto].
  intros (y & Hy & [Hin _]%elem_of_List_filter)%list_elem_of_fmap.
  apply Hnotin. apply list_elem_of_fmap. eauto.
Qed.

Lemma elapse_fields ms c :
  MCPClient.oid (MCPClient.elapse ms c) = MCPClient.oid c
  /\ MCPClient.config (MCPClient.elapse ms c) = MCPClient.config c
  /\ MCPClient.process (MCPClient.elapse ms c) = MCPClient.process c
  /\ MCPClient.messageId (MCPClient.elapse ms c) = MCPClient.messageId c
  /\ MCPClient.tools (MCPClient.elapse ms c) = MCPClient.tools c
  /\ MCPClient.now (MCPClient.elapse ms c) = (MCPClient.now c + ms)%N
  /\ MCPClient.timers (MCPClient.elapse ms c)
     = List.filter
         (fun tm => negb (MCPClient.due tm <=? MCPClient.now c + ms)%N)
         (MCPClient.timers c)
  /\ MCPClient.next_promise (MCPClient.elapse ms c) = MCPClient.next_promise c.
Proof.
  unfold MCPClient.elapse.
  match goal with |- context [MCPClient.runCallbacks ?r ?c0] =>
    destruct (runCallbacks_fields r c0)
      as (-> & -> & -> & -> & -> & -> & -> & ->)
  end.
  repeat split.
Qed.

Lemma elapse_pending ms c x :
  x ∈ MCPClient.pendingRequests (MCPClient.elapse ms c)
  <-> x ∈ MCPClient.pendingRequests c
      /\ forall tm, tm ∈ MCPClient.timers c ->
           (MCPClient.due tm <= MCPClient.now c + ms)%N ->
           x.1 <> IdNum (MCPClient.timer_id tm).
Proof.
  unfold MCPClient.elapse. rewrite runCallbacks_pending. simpl.
  split; intros [Hx Hall]; (split; [done|]).
  - intros tm Hin Hdue. apply Hall. apply elem_of_List_filter.
    split; [done|]. by apply N.leb_le.
  - intros tm [Hin Hdue%N.leb_le]%elem_of_List_filter. auto.
Qed.

Lemma elapse_settlement_keep ms c p o :
  MCPClient.settlement p c = Some o ->
  MCPClient.settlement p (MCPClient.elapse ms c) = Some o.
Proof. intros Hs. by apply runCallbacks_settlement_keep. Qed.

Lemma elapse_settlement_ne ms c p :
  (forall tm, tm ∈ MCPClient.timers c ->
     (MCPClient.due tm <= MCPClient.now c + ms)%N ->
     MCPClient.timer_promise tm <> p) ->
  MCPClient.settlement p (MCPClient.elapse ms c) = MCPClient.settlement p c.
Proof.
  intros Hall. unfold MCPClient.elapse.
  rewrite runCallbacks_settlement_ne; [done|].
  intros tm [Hin Hdue%N.leb_le]%elem_of_List_filter. auto.
Qed.

Lemma Consistent_elapse ms c : Consistent c -> Consistent (MCPClient.elapse ms c).
Proof.
  intros [Hids Hpend Htim Hnd Hprom].
  destruct (elapse_fields ms c) as (_ & _ & _ & Hm & _ & Hnow & Htimers & Hnext).
  assert (forall k p tm,
             (k, p) ∈ MCPClient.pendingRequests (MCPClient.elapse ms c) ->
             tm ∈ MCPClient.timers c -> MCPClient.timer_promise tm = p ->
             ~ (MCPClient.due tm <= MCPClient.now c + ms)%N) as Hlate.
  { intros k p tm [Hin Hall]%elapse_pending Htm Hp Hdue.
    destruct (Hpend k p Hin) as (-> & _).
    destruct (Htim tm Htm) as (Hid & _).
    apply (Hall tm Htm Hdue). simpl. by rewrite Hid, Hp. }
  split.
  - by rewrite Hm, Hnext.
  - intros k p Hin. pose proof Hin as [Hin0 _]%elapse_pending.
    destruct (Hpend k p Hin0) as (-> & Hlt & Hs & tm & Htm & Hp).
    split; [done|]. split; [by rewrite Hnext|]. split.
    + rewrite elapse_settlement_ne; [done|].
      intros tm' Htm' Hdue Hp'. by apply (Hlate _ _ tm' Hin Htm' Hp').
    + exists tm. split; [|done]. rewrite Htimers.
      apply elem_of_List_filter. split; [done|].
      apply negb_true_iff, N.leb_gt.
      pose proof (Hlate _ _ tm Hin Htm Hp). lia.
  - intros tm. rewrite Htimers.
    intros [Hin Hdue%negb_true_iff%N.leb_gt]%elem_of_List_filter.
    destruct (Htim tm Hin) as (Hid & Hlt & _ & Hle).
    split; [done|]. split; [by rewrite Hnext|]. rewrite Hnow. split; lia.
  - rewrite Htimers. by apply NoDup_fmap_List_filter.
  - intros p o Hin. rewrite Hnext. unfold MCPClient.elapse in Hin.
    apply runCallbacks_promises in Hin as [(tm & Htm & Heq)|Hin].
    + apply elem_of_List_filter in Htm as [Htm _]. simpl in Heq.
      rewrite Heq. by apply Htim.
    + simpl in Hin. eauto.
Qed.

Lemma settlement_unallocated c p :
  Consistent c -> (MCPClient.next_promise c <= p)%nat ->
  MCPClient.settlement p c = None.
Proof.
  intros Hc Hle. unfold MCPClient.settlement.
  destruct (JsMap.get p (MCPClient.promises c)) as [o|] eqn:Hg; [|done].
  apply get_Some_elem in Hg. apply (promises_allocated c Hc) in Hg. lia.
Qed.

Lemma sendRequest_running m p c h child :
  MCPClient.writable c = Some child ->
  exists c',
    MCPClient.sendRequest m p (c, h)
    = (Return (MCPClient.next_promise c),
       (c', emit (StdinWrite child
                    (requestMessage (MCPClient.messageId c + 1) m p)) h))
    /\ MCPClient.messageId c' = MCPClient.messageId c + 1
    /\ MCPClient.next_promise c' = S (MCPClient.next_promise c)
    /\ MCPClient.pendingRequests c'
       = JsMap.set (IdNum (MCPClient.messageId c + 1)) (MCPClient.next_promise c)
           (MCPClient.pendingRequests c)
    /\ MCPClient.timers c'
       = MCPClient.timers c
         ++ [{| MCPClient.due := MCPClient.now c + MCPClient.requestTimeout;
                MCPClient.timer_id := MCPClient.messageId c + 1;
                MCPClient.timer_method := m;
                MCPClient.timer_promise := MCPClient.next_promise c |}]
    /\ MCPClient.promises c' = MCPClient.promises c
    /\ MCPClient.now c' = MCPClient.now c
    /\ MCPClient.process c' = MCPClient.process c
    /\ MCPClient.tools c' = MCPClient.tools c
    /\ MCPClient.config c' = MCPClient.config c
    /\ MCPClient.oid c' = MCPClient.oid c.
Proof.
  intros Hw. unfold MCPClient.sendRequest. rewrite Hw.
  eexists. split; [reflexivity|]. repeat split.
Qed.

Lemma sendRequest_stopped m p c h :
  MCPClient.writable c = None ->
  MCPClient.sendRequest m p (c, h) = (Throw (MCPClient.notRunning c), (c, h)).
Proof. intros Hw. unfold MCPClient.sendRequest. by rewrite Hw. Qed.

Lemma Consistent_sendRequest m p c h :
  Consistent c -> Consistent (fst (snd (MCPClient.sendRequest m p (c, h)))).
Proof.
  intros Hc. destruct (MCPClient.writable c) as [child|] eqn:Hw.
  2:{ by rewrite sendRequest_stopped. }
  destruct (sendRequest_running m p c h child Hw)
    as (c' & -> & Hm & Hnext & Hpend & Htimers & Hprom & Hnow & _).
  simpl. destruct Hc as [Hids Hp Ht Hnd Hpr].
  assert (forall q, MCPClient.settlement q c' = MCPClient.settlement q c) as Hset.
  { intros q. unfold MCPClient.settlement. by rewrite Hprom. }
  split.
  - rewrite Hm, Hnext. lia.
  - intros k q. rewrite Hpend, Htimers.
    intros [[= -> ->]|Hin]%elem_of_set.
    + split; [f_equal; lia|]. split; [lia|]. split.
      * rewrite Hset. apply settlement_unallocated; [by split | lia].
      * eexists. split; [apply elem_of_app; right; left | done].
    + destruct (Hp k q Hin) as (-> & Hlt & Hs & tm & Htm & Hq).
      split; [done|]. split; [lia|]. split; [by rewrite Hset|].
      exists tm. split; [apply elem_of_app; by left | done].
  - intros tm. rewrite Htimers, Hnext, Hnow.
    intros [Hin|Hin]%elem_of_app.
    + destruct (Ht tm Hin) as (? & ? & ?). split; [done|]. split; [lia|done].
    + apply list_elem_of_singleton in Hin as ->. simpl. split; [lia|].
      split; [lia|]. unfold MCPClient.requestTimeout. lia.
  - rewrite Htimers, fmap_app. apply NoDup_app. split; [done|]. split.
    + intros q (tm & -> & Htm)%list_elem_of_fmap Hq.
      apply list_elem_of_singleton in Hq.
      destruct (Ht tm Htm) as (_ & Hlt & _). simpl in Hq. lia.
    + apply NoDup_singleton.
  - intros q o. rewrite Hprom, Hnext. intros Hin. apply Hpr in Hin. lia.
Qed.

Lemma handleMessage_fields message c h :
  let c' := fst (MCPClient.handleMessage message (c, h)) in
  MCPClient.oid c' = MCPClient.oid c
  /\ MCPClient.config c' = MCPClient.config c
  /\ MCPClient.process c' = MCPClient.process c
  /\ MCPClient.messageId c' = MCPClient.messageId c
  /\ MCPClient.tools c' = MCPClient.tools c
  /\ MCPClient.now c' = MCPClient.now c
  /\ MCPClient.timers c' = MCPClient.timers c
  /\ MCPClient.next_promise c' = MCPClient.next_promise c.
Proof.
  unfold MCPClient.handleMessage.
  destruct (match id message with Some i => _ | None => false end).
  - simpl.
    destruct (JsMap.get _ _) as [q|], (error message) as [e|]; simpl;
      try (repeat split; fail);
      match goal with |- context [MCPClient.settle ?p ?o ?c'] =>
        destruct (settle_fields p o c') as (-> & -> & -> & -> & _ & -> & -> & -> & ->)
      end; repeat split.
  - repeat (case_match; simpl); repeat split.
Qed.

(** A message whose id is not in the pending table changes nothing in the
    instance. *)
Lemma handleMessage_unmatched message c h :
  (forall i, id message = Some i ->
             JsMap.has i (MCPClient.pendingRequests c) = false) ->
  fst (MCPClient.handleMessage message (c, h)) = c.
Proof.
  intros Hid. unfold MCPClient.handleMessage.
  destruct (id message) as [i|] eqn:Hi.
  - rewrite (Hid i eq_refl). by repeat (case_match; simpl).
  - by repeat (case_match; simpl).
Qed.

(** A message whose id is in the pending table removes the entry and
    settles its promise. *)
Lemma handleMessage_matched message c h i q :
  id message = Some i ->
  JsMap.get i (MCPClient.pendingRequests c) = Some q ->
  fst (MCPClient.handleMessage message (c, h))
  = MCPClient.settle q
      (match error message with
       | Some e => MCPClient.Rejected (Error (error_message e))
       | None => MCPClient.Resolved (result message)
       end)
      (MCPClient.set_pendingRequests
         (JsMap.delete i (MCPClient.pendingRequests c)) c).
Proof.
  intros Hi Hg. unfold MCPClient.handleMessage. rewrite Hi. simpl.
  rewrite (proj2 (has_true_get _ i)) by (rewrite Hg; eauto).
  rewrite Hg. by destruct (error message).
Qed.

Lemma Consistent_handleMessage message c h :
  Consistent c -> Consistent (fst (MCPClient.handleMessage message (c, h))).
Proof.
  intros Hc.
  destruct (id message) as [i|] eqn:Hi.
  2:{ rewrite handleMessage_unmatched; [done|]. intros i. by rewrite Hi. }
  destruct (JsMap.get i (MCPClient.pendingRequests c)) as [q|] eqn:Hg.
  2:{ rewrite handleMessage_unmatched; [done|]. intros i'. rewrite Hi.
      intros [= <-]. by apply has_false_get. }
  rewrite (handleMessage_matched _ _ _ _ _ Hi Hg).
  set (o := match error message with Some _ => _ | None => _ end).
  set (c0 := MCPClient.set_pendingRequests _ c).
  destruct (settle_fields q o c0) as (_ & _ & _ & Hm & Hpend & _ & Hnow & Htim & Hnext).
  destruct Hc as [Hids Hp Ht Hnd Hpr].
  apply get_Some_elem in Hg. destruct (Hp i q Hg) as (-> & Hq & _).
  split.
  - by rewrite Hm, Hnext.
  - intros k r. rewrite Hpend, Hnext, Htim. simpl.
    intros [Hin Hne]%elem_of_delete.
    destruct (Hp k r Hin) as (-> & Hlt & Hs & Htm).
    split; [done|]. split; [done|]. split; [|done].
    rewrite settlement_settle_ne; [done|]. intros ->. by apply Hne.
  - intros tm. rewrite Htim, Hnext, Hnow. apply Ht.
  - by rewrite Htim.
  - intros r o'. rewrite Hnext. intros [[= -> ->]|Hin]%promises_settle; [done|].
    eapply Hpr, Hin.
Qed.

Lemma Consistent_new o cfg : Consistent (MCPClient.new o cfg).
Proof.
  split; simpl; try done.
  - by intros k p ?%elem_of_nil.
  - by intros tm ?%elem_of_nil.
  - apply NoDup_nil_2.
  - by intros p q ?%elem_of_nil.
Qed.

Lemma Consistent_set_process v c :
  Consistent c -> Consistent (MCPClient.set_process v c).
Proof. intros [? ? ? ? ?]. by split. Qed.

Lemma Consistent_stop c h :
  Consistent c -> Consistent (fst (snd (MCPClient.stop (c, h)))).
Proof.
  intros Hc. unfold MCPClient.stop. destruct (MCPClient.process c); [|done].
  simpl. destruct Hc as [? ? ? ? ?]. split; simpl; try done.
  by intros k p ?%elem_of_nil.
Qed.

Lemma Consistent_step s e : Consistent (fst s) -> Consistent (fst (step s e)).
Proof.
  destruct s as [c h]. intros Hc. destruct e; simpl.
  - by apply Consistent_sendRequest.
  - unfold MCPClient.sendNotification. by destruct (MCPClient.writable c).
  - by apply Consistent_stop.
  - by apply Consistent_handleMessage.
  - by apply Consistent_set_process.
  - by apply Consistent_elapse.
Qed.

Lemma Consistent_runEvents s evs :
  Consistent (fst s) -> Consistent (fst (runEvents s evs)).
Proof.
  revert s. induction evs as [|e evs IH]; intros s Hc; [done|].
  apply IH. by apply Consistent_step.
Qed.

Lemma Consistent_spawned o cfg env h : Consistent (fst (spawned o cfg env h)).
Proof. apply Consistent_set_process, Consistent_new. Qed.

(** ** A request from its send to its removal *)

Lemma NoDup_fmap_eq {A B} (f : A -> B) (l : list A) (x y : A) :
  NoDup (f <$> l) -> x ∈ l -> y ∈ l -> f x = f y -> x = y.
Proof.
  induction l as [|z l IH]; [by intros _ ?%elem_of_nil|].
  rewrite fmap_cons. intros [Hnotin Hnd]%NoDup_cons.
  intros [->|Hx]%elem_of_cons [->|Hy]%elem_of_cons Heq; auto.
  - exfalso. apply Hnotin. rewrite Heq. apply list_elem_of_fmap. eauto.
  - exfalso. apply Hnotin. rewrite <- Heq. apply list_elem_of_fmap. eauto.
Qed.

Lemma InFlight_facts n m p d c :
  Consistent c -> InFlight n m p d c ->
  n = Z.of_nat p + 1
  /\ MCPClient.settlement p c = None
  /\ (MCPClient.now c < d)%N
  /\ (d <= MCPClient.now c + MCPClient.requestTimeout)%N
  /\ n <= MCPClient.messageId c.
Proof.
  intros Hc [Hg Ht]. apply get_Some_elem in Hg.
  destruct (pending_tracked c Hc _ _ Hg) as ([= ->] & Hlt & Hs & _).
  destruct (timers_tracked c Hc _ Ht) as (_ & _ & Hnow & Hdue). simpl in *.
  rewrite (ids_follow_promises c Hc). repeat split; try done. lia.
Qed.

(** The timer of an outstanding request is the only one with its id. *)
Lemma InFlight_timer_unique n m p d c tm :
  Consistent c -> InFlight n m p d c -> tm ∈ MCPClient.timers c ->
  MCPClient.timer_id tm = n \/ MCPClient.timer_promise tm = p ->
  tm = {| MCPClient.due := d; MCPClient.timer_id := n;
          MCPClient.timer_method := m; MCPClient.timer_promise := p |}.
Proof.
  intros Hc Hf Htm Heq.
  destruct (InFlight_facts _ _ _ _ _ Hc Hf) as (Hn & _).
  destruct Hf as [_ Ht].
  apply (NoDup_fmap_eq MCPClient.timer_promise (MCPClient.timers c));
    [apply (timers_distinct c Hc) | done | done |].
  simpl. destruct Heq as [Hid|Hp]; [|done].
  destruct (timers_tracked c Hc _ Htm) as (Hid' & _). lia.
Qed.


Ltac send_cases m p c h :=
  let child := fresh "child" in
  let Hw := fresh "Hw" in
  destruct (MCPClient.writable c) as [child|] eqn:Hw;
  [ let c' := fresh "c'" in
    let Hrun := fresh "Hrun" in
    destruct (sendRequest_running m p c h child Hw)
      as (c' & Hrun & Hsent_id & Hsent_next & Hsent_pending & Hsent_timers
          & Hsent_promises & Hsent_now & Hsent_process & Hsent_tools
          & Hsent_config & Hsent_oid);
    rewrite Hrun; cbn [fst snd]
  | rewrite (sendRequest_stopped m p c h Hw); cbn [fst snd] ].

Lemma now_step s e :
  MCPClient.now (fst (step s e)) = (MCPClient.now (fst s) + duration e)%N.
Proof.
  destruct s as [c h]. destruct e as [m p|m p| |message| |ms];
    cbn [step duration fst snd]; rewrite ?N.add_0_r.
  - send_cases m p c h; [by rewrite Hsent_now | done].
  - unfold MCPClient.sendNotification. by destruct (MCPClient.writable c).
  - unfold MCPClient.stop. by destruct (MCPClient.process c).
  - by destruct (handleMessage_fields message c h) as (_ & _ & _ & _ & _ & -> & _).
  - done.
  - by destruct (elapse_fields ms c) as (_ & _ & _ & _ & _ & -> & _).
Qed.

(** While neither [stop()] nor a response for [n] nor the deadline comes,
    the request stays outstanding. *)
Lemma InFlight_quiet n m p d c h e :
  Consistent c -> InFlight n m p d c ->
  quietFor n e = true -> (MCPClient.now c + duration e < d)%N ->
  InFlight n m p d (fst (step (c, h) e)).
Proof.
  intros Hc Hf Hq Ht.
  destruct (InFlight_facts _ _ _ _ _ Hc Hf) as (Hn & Hs & Hnow & Hdue & Hle).
  pose proof Hf as [Hg Htm].
  destruct e as [m' p'|m' p'| |message| |ms];
    cbn [step duration quietFor fst snd] in *.
  - send_cases m' p' c h; [|done]. split.
    + rewrite Hsent_pending, get_set_ne; [done|]. intros [= Heq]. lia.
    + rewrite Hsent_timers. apply elem_of_app. by left.
  - unfold MCPClient.sendNotification. by destruct (MCPClient.writable c).
  - done.
  - apply negb_true_iff, bool_decide_eq_false in Hq.
    destruct (handleMessage_fields message c h)
      as (_ & _ & _ & _ & _ & _ & Htimers & _).
    split; [|by rewrite Htimers].
    destruct (id message) as [i|] eqn:Hi.
    2:{ rewrite handleMessage_unmatched; [done|]. intros i. by rewrite Hi. }
    destruct (JsMap.get i (MCPClient.pendingRequests c)) as [q|] eqn:Hgi.
    2:{ rewrite handleMessage_unmatched; [done|]. intros i'. rewrite Hi.
        intros [= <-]. by apply has_false_get. }
    rewrite (handleMessage_matched _ _ _ _ _ Hi Hgi).
    match goal with |- context [MCPClient.settle ?a ?b ?c0] =>
      destruct (settle_fields a b c0) as (_ & _ & _ & _ & -> & _)
    end.
    cbn. rewrite get_delete_ne; [done|]. intros <-. by apply Hq.
  - by split.
  - destruct (elapse_fields ms c) as (_ & _ & _ & _ & _ & _ & Htimers & _).
    split.
    + unfold MCPClient.elapse. rewrite runCallbacks_get_other; [done|].
      intros tm [Hin Hready%N.leb_le]%elem_of_List_filter [= Hid].
      rewrite (InFlight_timer_unique _ _ _ _ _ tm Hc Hf Hin) in Hready by auto.
      cbn in Hready. lia.
    + rewrite Htimers. apply elem_of_List_filter. split; [done|].
      cbn. apply negb_true_iff, N.leb_gt. lia.
Qed.

(** The deadline passes: the request times out. *)
Lemma InFlight_timeout n m p d c ms :
  Consistent c -> InFlight n m p d c -> (d <= MCPClient.now c + ms)%N ->
  TimedOut n m p (MCPClient.elapse ms c).
Proof.
  intros Hc Hf Hd.
  destruct (InFlight_facts _ _ _ _ _ Hc Hf) as (Hn & Hs & Hnow & Hdue & Hle).
  pose proof Hf as [Hg Htm].
  set (tm := {| MCPClient.due := d; MCPClient.timer_id := n;
                MCPClient.timer_method := m; MCPClient.timer_promise := p |}).
  split.
  - unfold MCPClient.elapse.
    apply (runCallbacks_times_out _ _ tm).
    + apply elem_of_List_filter. split; [done|]. by apply N.leb_le.
    + apply NoDup_fmap_List_filter, (timers_distinct c Hc).
    + intros tm' [Hin _]%elem_of_List_filter.
      by destruct (timers_tracked c Hc _ Hin).
    + cbn. apply has_true_get. rewrite Hg. eauto.
    + done.
  - apply has_false_get.
    destruct (JsMap.get (IdNum n)
                (MCPClient.pendingRequests (MCPClient.elapse ms c)))
      as [q|] eqn:Hq; [|done].
    apply get_Some_elem, elapse_pending in Hq as [_ Hall].
    exfalso. by apply (Hall tm Htm Hd).
  - by destruct (elapse_fields ms c) as (_ & _ & _ & -> & _).
Qed.

(** A response that carries the id settles the promise and removes the
    entry. *)
Lemma InFlight_response n m p d c h message :
  Consistent c -> InFlight n m p d c -> id message = Some (IdNum n) ->
  Gone n (fst (MCPClient.handleMessage message (c, h)))
  /\ MCPClient.settlement p (fst (MCPClient.handleMessage message (c, h)))
     = Some (match error message with
             | Some e => MCPClient.Rejected (Error (error_message e))
             | None => MCPClient.Resolved (result message)
             end).
Proof.
  intros Hc Hf Hi.
  destruct (InFlight_facts _ _ _ _ _ Hc Hf) as (Hn & Hs & Hnow & Hdue & Hle).
  pose proof Hf as [Hg Htm].
  rewrite (handleMessage_matched _ _ _ _ _ Hi Hg).
  match goal with |- context [MCPClient.settle ?a ?b ?c0] =>
    destruct (settle_fields a b c0) as (_ & _ & _ & Hm & Hp & _)
  end.
  split; [split|].
  - rewrite Hp. cbn. apply has_false_get, get_delete_eq.
  - by rewrite Hm.
  - by apply settlement_settle_eq.
Qed.


Lemma messageId_step s e :
  MCPClient.messageId (fst s) <= MCPClient.messageId (fst (step s e)).
Proof.
  destruct s as [c h]. destruct e as [m p|m p| |message| |ms];
    cbn [step fst snd].
  - send_cases m p c h; [rewrite Hsent_id; lia | done].
  - unfold MCPClient.sendNotification. by destruct (MCPClient.writable c).
  - unfold MCPClient.stop. by destruct (MCPClient.process c).
  - by destruct (handleMessage_fields message c h) as (_ & _ & _ & -> & _).
  - done.
  - by destruct (elapse_fields ms c) as (_ & _ & _ & -> & _).
Qed.

(** An id that has left the table never comes back. *)
Lemma Gone_step n c h e : Gone n c -> Gone n (fst (step (c, h) e)).
Proof.
  intros [Hg Hle]. split; [|pose proof (messageId_step (c, h) e); simpl in *; lia].
  apply has_false_get in Hg. apply has_false_get.
  destruct e as [m p|m p| |message| |ms]; cbn [step fst snd].
  - send_cases m p c h; [|done].
    rewrite Hsent_pending, get_set_ne; [done|]. intros [= Heq]. lia.
  - unfold MCPClient.sendNotification. by destruct (MCPClient.writable c).
  - unfold MCPClient.stop. by destruct (MCPClient.process c).
  - destruct (id message) as [i|] eqn:Hi.
    2:{ rewrite handleMessage_unmatched; [done|]. intros i. by rewrite Hi. }
    destruct (JsMap.get i (MCPClient.pendingRequests c)) as [q|] eqn:Hgi.
    2:{ rewrite handleMessage_unmatched; [done|]. intros i'. rewrite Hi.
        intros [= <-]. by apply has_false_get. }
    rewrite (handleMessage_matched _ _ _ _ _ Hi Hgi).
    match goal with |- context [MCPClient.settle ?a ?b ?c0] =>
      destruct (settle_fields a b c0) as (_ & _ & _ & _ & -> & _)
    end.
    cbn. destruct (decide (IdNum n = i)) as [<-|Hne].
    + apply get_delete_eq.
    + by rewrite get_delete_ne.
  - done.
  - destruct (JsMap.get (IdNum n)
                (MCPClient.pendingRequests (MCPClient.elapse ms c)))
      as [q|] eqn:Hq; [|done].
    apply get_Some_elem, elapse_pending in Hq as [Hin _].
    apply elem_get_is_Some in Hin as [? Hin]. congruence.
Qed.

Lemma Gone_runEvents n s evs : Gone n (fst s) -> Gone n (fst (runEvents s evs)).
Proof.
  revert s. induction evs as [|e evs IH]; intros [c h] Hg; [done|].
  apply IH. by apply Gone_step.
Qed.

(** A settled promise stays as it was settled. *)
Lemma settlement_step p o c h e :
  MCPClient.settlement p c = Some o ->
  MCPClient.settlement p (fst (step (c, h) e)) = Some o.
Proof.
  intros Hs. destruct e as [m q|m q| |message| |ms]; cbn [step fst snd].
  - send_cases m q c h; [|done].
    unfold MCPClient.settlement in *. by rewrite Hsent_promises.
  - unfold MCPClient.sendNotification. by destruct (MCPClient.writable c).
  - unfold MCPClient.stop. by destruct (MCPClient.process c).
  - destruct (id message) as [i|] eqn:Hi.
    2:{ rewrite handleMessage_unmatched; [done|]. intros i. by rewrite Hi. }
    destruct (JsMap.get i (MCPClient.pendingRequests c)) as [r|] eqn:Hgi.
    2:{ rewrite handleMessage_unmatched; [done|]. intros i'. rewrite Hi.
        intros [= <-]. by apply has_false_get. }
    rewrite (handleMessage_matched _ _ _ _ _ Hi Hgi).
    by apply settlement_settle_keep.
  - done.
  - by apply elapse_settlement_keep.
Qed.

Lemma settlement_runEvents p o s evs :
  MCPClient.settlement p (fst s) = Some o ->
  MCPClient.settlement p (fst (runEvents s evs)) = Some o.
Proof.
  revert s. induction evs as [|e evs IH]; intros [c h] Hs; [done|].
  apply IH. by apply settlement_step.
Qed.

Lemma elapsed_cons e evs : elapsed (e :: evs) = (duration e + elapsed evs)%N.
Proof. by destruct e. Qed.

Lemma TimedOut_runEvents n m p s evs :
  TimedOut n m p (fst s) -> TimedOut n m p (fst (runEvents s evs)).
Proof.
  intros [Hs Hg Hle].
  destruct (Gone_runEvents n s evs (conj Hg Hle)) as [Hg' Hle'].
  split; [by apply settlement_runEvents | done | done].
Qed.

(** Through events that neither stop the session nor answer the request,
    the request is outstanding until its deadline and timed out from then
    on. *)
Lemma quiet_run n m p d evs :
  forall c h,
    Consistent c -> InFlight n m p d c ->
    forallb (quietFor n) evs = true ->
    ((MCPClient.now c + elapsed evs < d)%N ->
       InFlight n m p d (fst (runEvents (c, h) evs))
       /\ Consistent (fst (runEvents (c, h) evs)))
    /\ ((d <= MCPClient.now c + elapsed evs)%N ->
       TimedOut n m p (fst (runEvents (c, h) evs))).
Proof.
  induction evs as [|e evs IH]; intros c h Hc Hf Hq.
  - destruct (InFlight_facts _ _ _ _ _ Hc Hf) as (_ & _ & Hnow & _).
    cbn. split; [done|]. lia.
  - cbn [forallb] in Hq. apply andb_true_iff in Hq as [Hqe Hq].
    rewrite elapsed_cons.
    change (runEvents (c, h) (e :: evs)) with (runEvents (step (c, h) e) evs).
    pose proof (now_step (c, h) e) as Hnow. cbn [fst] in Hnow.
    destruct (decide (MCPClient.now c + duration e < d)%N) as [Ht|Ht].
    + pose proof (InFlight_quiet n m p d c h e Hc Hf Hqe Ht) as Hf'.
      pose proof (Consistent_step (c, h) e Hc) as Hc'.
      destruct (step (c, h) e) as [c1 h1]. cbn [fst] in *.
      destruct (IH c1 h1 Hc' Hf' Hq) as [IH1 IH2].
      split; intros Hd; [apply IH1|apply IH2]; lia.
    + split; [lia|]. intros _. apply TimedOut_runEvents.
      destruct e; cbn [duration] in Ht;
        try (destruct (InFlight_facts _ _ _ _ _ Hc Hf) as (_ & _ & ? & _); lia).
      cbn [step fst snd]. apply (InFlight_timeout n m p d c ms Hc Hf). lia.
Qed.

Lemma sendRequest_InFlight m params c h promise s1 :
  Consistent c ->
  MCPClient.sendRequest m params (c, h) = (Return promise, s1) ->
  Consistent (fst s1)
  /\ promise = MCPClient.next_promise c
  /\ MCPClient.messageId (fst s1) = MCPClient.messageId c + 1
  /\ MCPClient.now (fst s1) = MCPClient.now c
  /\ InFlight (MCPClient.messageId (fst s1)) m promise
       (MCPClient.now c + MCPClient.requestTimeout) (fst s1).
Proof.
  intros Hc Hrun. pose proof (Consistent_sendRequest m params c h Hc) as Hc'.
  rewrite Hrun in Hc'. cbn [fst snd] in Hc'. split; [done|].
  revert Hrun. send_cases m params c h; [|done].
  intros [= <- <-]. cbn [fst snd]. split; [done|]. split; [done|].
  split; [done|]. split.
  - rewrite Hsent_pending, Hsent_id. apply get_set_eq.
  - rewrite Hsent_timers, Hsent_id. apply elem_of_app. right. left.
Qed.

(** C3, as the code has it.  A request whose response never arrives, on a
    session that is not stopped in the meantime, stays unsettled and in the
    pending table for as long as less than 30000 ms have passed; once 30000
    ms have passed it is rejected with "Request timeout for <method>" and out
    of the pending table, whatever happens later, and a message that then
    carries its id leaves the instance unchanged. *)
Theorem request_timeout :
  forall o cfg env host evs0 m params promise s1,
    MCPClient.sendRequest m params (runEvents (spawned o cfg env host) evs0)
    = (Return promise, s1) ->
    forall evs,
      forallb (quietFor (MCPClient.messageId (fst s1))) evs = true ->
      ((elapsed evs < MCPClient.requestTimeout)%N ->
         MCPClient.settlement promise (fst (runEvents s1 evs)) = None
         /\ isPending (MCPClient.messageId (fst s1)) (runEvents s1 evs) = true)
      /\ ((MCPClient.requestTimeout <= elapsed evs)%N ->
          forall later,
            MCPClient.settlement promise (fst (runEvents s1 (evs ++ later)))
            = Some (MCPClient.Rejected (MCPClient.timeoutError m))
            /\ isPending (MCPClient.messageId (fst s1))
                 (runEvents s1 (evs ++ later)) = false
            /\ forall message,
                 id message = Some (IdNum (MCPClient.messageId (fst s1))) ->
                 fst (MCPClient.handleMessage message
                        (runEvents s1 (evs ++ later)))
                 = fst (runEvents s1 (evs ++ later))).
Proof.
  intros o cfg env host evs0 m params promise s1 Hsend evs Hq.
  pose proof (Consistent_runEvents _ evs0 (Consistent_spawned o cfg env host))
    as Hc0.
  destruct (runEvents (spawned o cfg env host) evs0) as [c0 h0].
  cbn [fst] in Hc0.
  destruct (sendRequest_InFlight _ _ _ _ _ _ Hc0 Hsend)
    as (Hc1 & _ & _ & Hnow & Hf).
  destruct s1 as [c1 h1]. cbn [fst] in *.
  destruct (quiet_run _ _ _ _ evs c1 h1 Hc1 Hf Hq) as [Hearly Hlate].
  split.
  - intros Ht. destruct Hearly as [Hf' Hc']; [lia|].
    destruct (InFlight_facts _ _ _ _ _ Hc' Hf') as (_ & Hs & _). split; [done|].
    unfold isPending. apply has_true_get. destruct Hf' as [-> _]. eauto.
  - intros Ht later. unfold runEvents. rewrite foldl_app.
    fold (runEvents (c1, h1) evs).
    fold (runEvents (runEvents (c1, h1) evs) later).
    assert (TimedOut (MCPClient.messageId c1) m promise
              (fst (runEvents (runEvents (c1, h1) evs) later))) as [Hs Hg Hle].
    { apply TimedOut_runEvents, Hlate. lia. }
    split; [done|]. split; [done|].
    intros message Hi.
    destruct (runEvents (runEvents (c1, h1) evs) later) as [c2 h2].
    apply handleMessage_unmatched. rewrite Hi. by intros i [= <-].
Qed.

Lemma request_timeout_witness :
  MCPClient.settlement 0
    (fst (runEvents
            (snd (MCPClient.sendRequest "tools/call" (JObject [])
                    (spawned 0 fsConfig [] initialHost)))
            ([Elapse 30000] ++ [Receive (replyTo 1)])))
  = Some (MCPClient.Rejected (Error "Request timeout for tools/call")).
Proof.
  pose proof (request_timeout 0 fsConfig [] initialHost [] "tools/call"
                (JObject []) 0%nat
                (snd (MCPClient.sendRequest "tools/call" (JObject [])
                        (spawned 0 fsConfig [] initialHost)))
                eq_refl [Elapse 30000] eq_refl) as [_ H].
  assert (MCPClient.requestTimeout <= elapsed [Elapse 30000])%N as Ht
    by (by vm_compute).
  exact (proj1 (H Ht [Receive (replyTo 1)])).
Defined.

(** The claim as the specification words it does not hold when the session
    is stopped while the request is outstanding: [stop()] empties the
    pending table, the timer finds nothing to reject and the call never
    settles. *)
Lemma request_never_settles_after_stop :
  ~ (forall evs m params promise s1,
        MCPClient.sendRequest m params (spawned 0 fsConfig [] initialHost)
        = (Return promise, s1) ->
        (forall message,
            Receive message ∈ evs ->
            id message <> Some (IdNum (MCPClient.messageId (fst s1)))) ->
        (MCPClient.requestTimeout <= elapsed evs)%N ->
        MCPClient.settlement promise (fst (runEvents s1 evs))
        = Some (MCPClient.Rejected (MCPClient.timeoutError m))).
Proof.
  intros H.
  specialize (H [CallStop; Elapse 30000] "tools/call" (JObject []) 0%nat
                (snd (MCPClient.sendRequest "tools/call" (JObject [])
                        (spawned 0 fsConfig [] initialHost)))
                eq_refl).
  assert (MCPClient.requestTimeout <= elapsed [CallStop; Elapse 30000])%N
    as Ht by (by vm_compute).
  assert (forall message,
             Receive message ∈ [CallStop; Elapse 30000] ->
             id message <> Some (IdNum 1)) as Hno.
  { intros message Hin. exfalso.
    apply elem_of_cons in Hin as [Hin|Hin]; [discriminate|].
    apply elem_of_cons in Hin as [Hin|Hin]; [discriminate|].
    by apply elem_of_nil in Hin. }
  specialize (H Hno Ht). vm_compute in H. discriminate H.
Qed.

(** ** Ids and the pending table over the life of a session *)

Lemma io_handleMessage message c h :
  io (snd (MCPClient.handleMessage message (c, h))) = io h.
Proof.
  unfold MCPClient.handleMessage. by repeat (case_match; cbn).
Qed.








(** ** Calls come back and only add to the host *)

Lemma Grows_refl h : Grows h h.
Proof. split; [exists []; by rewrite app_nil_r | lia | lia]. Qed.

Lemma Grows_trans h1 h2 h3 : Grows h1 h2 -> Grows h2 h3 -> Grows h1 h3.
Proof.
  intros [[r1 H1] ? ?] [[r2 H2] ? ?]. split; [|lia|lia].
  exists (r1 ++ r2). by rewrite H2, H1, app_assoc.
Qed.

Lemma Grows_emit e h : Grows h (emit e h).
Proof. split; [by exists [e] | done | done]. Qed.

Lemma Grows_logger l text h : Grows h (logger l text h).
Proof. split; [exists []; cbn; by rewrite app_nil_r | done | done]. Qed.

Lemma Grows_allocOid h : Grows h (snd (allocOid h)).
Proof. split; [exists []; cbn; by rewrite app_nil_r | cbn; lia | done]. Qed.

Lemma Grows_allocPid h : Grows h (snd (allocPid h)).
Proof. split; [exists []; cbn; by rewrite app_nil_r | done | cbn; lia]. Qed.

Ltac client_ok := split; [|split; [|split; [|split]]].

Section Contracts.
Context {S : Type} (host : S -> Host).

Lemma Ok_ret {A} (a : A) : Ok host (ret a).
Proof. intros s. cbn. split; [done|apply Grows_refl]. Qed.

Lemma Ok_throw {A} e : Ok host (@throw S A e).
Proof. intros s. cbn. split; [done|apply Grows_refl]. Qed.

Lemma Ok_bind {A B} (m : M S A) (k : A -> M S B) :
  Ok host m -> (forall a, Ok host (k a)) -> Ok host (bind m k).
Proof.
  intros Hm Hk s. unfold bind. destruct (Hm s) as [Hh Hg].
  destruct (m s) as [[a|e|] s1]; cbn in *; [|done|done].
  destruct (Hk a s1) as [Hh' Hg']. split; [done|].
  by apply (Grows_trans _ (host s1)).
Qed.

Lemma Ok_tryCatch {A} (m : M S A) (handler : JsError -> M S A) :
  Ok host m -> (forall e, Ok host (handler e)) -> Ok host (tryCatch m handler).
Proof.
  intros Hm Hk s. unfold tryCatch. destruct (Hm s) as [Hh Hg].
  destruct (m s) as [[a|e|] s1]; cbn in *; [done| |done].
  destruct (Hk e s1) as [Hh' Hg']. split; [done|].
  by apply (Grows_trans _ (host s1)).
Qed.

Lemma Ok_modify (f : S -> S) :
  (forall s, Grows (host s) (host (f s))) -> Ok host (modify f).
Proof. intros Hf s. cbn. split; [done|apply Hf]. Qed.
End Contracts.

Lemma ClientOk_ret {A} alive (a : A) : ClientOk alive (ret a).
Proof. intros c h Hc. cbn. client_ok; try done. apply Grows_refl. Qed.

Lemma ClientOk_bind {A B} alive (m : M (MCPClient.t * Host) A)
    (k : A -> M (MCPClient.t * Host) B) :
  ClientOk alive m -> (forall a, ClientOk alive (k a)) -> ClientOk alive (bind m k).
Proof.
  intros Hm Hk c h Hc. unfold bind.
  destruct (Hm c h Hc) as (Hh & Hc1 & Hg & Ho & Hcfg).
  destruct (m (c, h)) as [[a|e|] [c1 h1]]; cbn [fst snd] in *;
    [|by client_ok|client_ok; [intros Ha; by destruct (Hh Ha)|done..]].
  destruct (Hk a c1 h1 Hc1) as (Hh' & Hc' & Hg' & Ho' & Hcfg').
  split; [done|]. split; [done|]. split; [by apply (Grows_trans _ h1)|].
  split; congruence.
Qed.

Lemma ClientOk_info alive text : ClientOk alive (MCPClient.info text).
Proof.
  intros c h Hc. cbn. client_ok; try done. apply Grows_logger.
Qed.

Lemma ClientOk_sendRequest alive m p : ClientOk alive (MCPClient.sendRequest m p).
Proof.
  intros c h Hc. pose proof (Consistent_sendRequest m p c h Hc) as Hc'.
  revert Hc'. send_cases m p c h; intros Hc'.
  - split; [done|]. split; [done|]. split; [apply Grows_emit|]. by split.
  - split; [done|]. split; [done|]. split; [apply Grows_refl|]. by split.
Qed.

Lemma ClientOk_sendNotification alive m p :
  ClientOk alive (MCPClient.sendNotification m p).
Proof.
  intros c h Hc. unfold MCPClient.sendNotification.
  destruct (MCPClient.writable c); cbn; client_ok; try done.
  - apply Grows_emit.
  - apply Grows_refl.
Qed.

Lemma step_identity s e :
  MCPClient.oid (fst (step s e)) = MCPClient.oid (fst s)
  /\ MCPClient.config (fst (step s e)) = MCPClient.config (fst s).
Proof.
  destruct s as [c h]. destruct e as [m p|m p| |message|code signal|ms];
    cbn [step fst snd].
  - send_cases m p c h; by split.
  - unfold MCPClient.sendNotification. by destruct (MCPClient.writable c).
  - unfold MCPClient.stop. by destruct (MCPClient.process c).
  - by destruct (handleMessage_fields message c h) as (-> & -> & _).
  - done.
  - by destruct (elapse_fields ms c) as (-> & -> & _).
Qed.

Lemma step_Grows s e : Grows (snd s) (snd (step s e)).
Proof.
  destruct s as [c h]. destruct e as [m p|m p| |message|code signal|ms];
    cbn [step fst snd]; try apply Grows_refl.
  - send_cases m p c h; [apply Grows_emit | apply Grows_refl].
  - unfold MCPClient.sendNotification.
    destruct (MCPClient.writable c); [apply Grows_emit | apply Grows_refl].
  - unfold MCPClient.stop. destruct (MCPClient.process c); cbn [fst snd].
    + eapply Grows_trans; [apply Grows_logger | apply Grows_emit].
    + apply Grows_refl.
  - unfold MCPClient.handleMessage.
    repeat (case_match; cbn [fst snd]);
      first [apply Grows_refl | apply Grows_logger].
  - apply Grows_logger.
Qed.

Lemma runEvents_identity s evs :
  MCPClient.oid (fst (runEvents s evs)) = MCPClient.oid (fst s)
  /\ MCPClient.config (fst (runEvents s evs)) = MCPClient.config (fst s).
Proof.
  revert s. induction evs as [|e evs IH]; intros s; [done|].
  change (runEvents s (e :: evs)) with (runEvents (step s e) evs).
  destruct (IH (step s e)) as [-> ->]. apply step_identity.
Qed.

Lemma runEvents_Grows s evs : Grows (snd s) (snd (runEvents s evs)).
Proof.
  revert s. induction evs as [|e evs IH]; intros s; [apply Grows_refl|].
  eapply Grows_trans; [apply (step_Grows s e) | apply IH].
Qed.

Lemma deliver_runEvents outputs s :
  MCPClient.deliver outputs s = runEvents s (toEvents outputs).
Proof.
  revert s. induction outputs as [|[message|code signal|e] outputs IH];
    intros s; [done| | |done]; cbn [MCPClient.deliver toEvents]; by rewrite IH.
Qed.

(** The events of a child's outputs take no time, and none of them is a
    call of [stop()]. *)
Lemma elapsed_toEvents outputs : elapsed (toEvents outputs) = 0%N.
Proof.
  induction outputs as [|[message|code signal|e] outputs IH]; try done.
Qed.

Lemma toEvents_passive outputs :
  Forall (fun e => e <> CallStop) (toEvents outputs).
Proof.
  induction outputs as [|[message|code signal|e] outputs IH]; cbn;
    try by constructor.
Qed.

(** While the caller is suspended the request stays outstanding or its
    promise gets settled. *)
Lemma deliver_tracks n m p d outputs :
  forall c h,
    Consistent c -> InFlight n m p d c ->
    InFlight n m p d (fst (MCPClient.deliver outputs (c, h)))
    \/ is_Some (MCPClient.settlement p (fst (MCPClient.deliver outputs (c, h)))).
Proof.
  induction outputs as [|o outputs IH]; intros c h Hc Hf; [by left|].
  destruct (InFlight_facts _ _ _ _ _ Hc Hf) as (_ & _ & Hnow & _).
  destruct o as [message|code signal|e]; cbn [MCPClient.deliver]; [| |by left].
  - pose proof (Consistent_step (c, h) (Receive message) Hc) as Hc'.
    cbn [step] in Hc'.
    destruct (decide (id message = Some (IdNum n))) as [Hi|Hi].
    + right.
      destruct (InFlight_response n m p d c h message Hc Hf Hi) as [_ Hs].
      rewrite deliver_runEvents.
      rewrite (settlement_runEvents p _ _ _ Hs). eauto.
    + assert (InFlight n m p d (fst (step (c, h) (Receive message)))) as Hf'.
      { apply InFlight_quiet; [done | done | | cbn; lia].
        cbn. by rewrite bool_decide_eq_false_2. }
      cbn [step] in Hf'.
      destruct (MCPClient.handleMessage message (c, h)) as [c1 h1]. by apply IH.
  - pose proof (Consistent_step (c, h) (ChildExit code signal) Hc) as Hc'.
    assert (InFlight n m p d (fst (step (c, h) (ChildExit code signal)))) as Hf'.
    { apply InFlight_quiet; [done | done | done | cbn; lia]. }
    cbn [step] in Hc', Hf'.
    destruct (MCPClient.onExit code signal (c, h)) as [c1 h1]. by apply IH.
Qed.

(** An [await] on an outstanding request comes back, with the response or
    with the timeout, unless the child emits ['error']. *)
Lemma await_comes_back n m p d outputs c h :
  Consistent c -> InFlight n m p d c ->
  (MCPClient.died outputs = false ->
   fst (MCPClient.await outputs p (c, h)) <> Hang)
  /\ Consistent (fst (snd (MCPClient.await outputs p (c, h))))
  /\ Grows h (snd (snd (MCPClient.await outputs p (c, h))))
  /\ MCPClient.oid (fst (snd (MCPClient.await outputs p (c, h)))) = MCPClient.oid c
  /\ MCPClient.config (fst (snd (MCPClient.await outputs p (c, h))))
     = MCPClient.config c.
Proof.
  intros Hc Hf. unfold MCPClient.await.
  pose proof (deliver_tracks n m p d outputs c h Hc Hf) as Htr.
  rewrite deliver_runEvents in *.
  pose proof (Consistent_runEvents (c, h) (toEvents outputs) Hc) as Hc1.
  pose proof (runEvents_Grows (c, h) (toEvents outputs)) as Hg1.
  destruct (runEvents_identity (c, h) (toEvents outputs)) as [Ho1 Hcfg1].
  destruct (runEvents (c, h) (toEvents outputs)) as [c1 h1].
  cbn [fst snd] in *.
  destruct (MCPClient.died outputs); [by client_ok|].
  set (c2 := match MCPClient.settlement p c1 with
             | Some _ => c1
             | None => MCPClient.elapse MCPClient.requestTimeout c1
             end).
  assert (is_Some (MCPClient.settlement p c2) /\ Consistent c2
          /\ MCPClient.oid c2 = MCPClient.oid c
          /\ MCPClient.config c2 = MCPClient.config c) as ([o Hs] & Hc2 & Ho2 & Hcfg2).
  { subst c2. destruct (MCPClient.settlement p c1) as [o|] eqn:Hs.
    - split; [rewrite Hs; eauto|]. by split.
    - destruct Htr as [Hf1|[? ?]]; [|done].
      destruct (InFlight_facts _ _ _ _ _ Hc1 Hf1) as (_ & _ & _ & Hdue & _).
      destruct (InFlight_timeout n m p d c1 MCPClient.requestTimeout Hc1 Hf1 Hdue)
        as [-> _ _].
      split; [eauto|]. split; [by apply Consistent_elapse|].
      destruct (elapse_fields MCPClient.requestTimeout c1) as (-> & -> & _).
      by split. }
  rewrite Hs. by destruct o; client_ok.
Qed.

Lemma ClientOk_awaitRequest child m p :
  ClientOk (Runs child) (MCPClient.awaitRequest child m p).
Proof.
  intros c h Hc. unfold MCPClient.awaitRequest, bind.
  destruct (MCPClient.sendRequest m p (c, h)) as [[promise|e|] [c1 h1]] eqn:Hsend.
  - destruct (sendRequest_InFlight _ _ _ _ _ _ Hc Hsend)
      as (Hc1 & _ & _ & _ & Hf).
    destruct (ClientOk_sendRequest True m p c h Hc) as (_ & _ & Hg & Ho & Hcfg).
    rewrite Hsend in Hg, Ho, Hcfg. cbn [fst snd] in *.
    destruct (await_comes_back _ _ _ _
                (child (requestMessage (MCPClient.messageId c1) m p))
                c1 h1 Hc1 Hf) as (Hh & Hc2 & Hg2 & Ho2 & Hcfg2).
    client_ok; try done; try congruence.
    + intros Hruns. apply Hh, Hruns.
    + by apply (Grows_trans _ h1).
  - destruct (ClientOk_sendRequest True m p c h Hc) as (_ & ? & ? & ? & ?).
    rewrite Hsend in *. by client_ok.
  - destruct (ClientOk_sendRequest True m p c h Hc) as (Hh & _).
    rewrite Hsend in Hh. by destruct (Hh I).
Qed.

Lemma Consistent_set_tools v c : Consistent c -> Consistent (MCPClient.set_tools v c).
Proof. intros [? ? ? ? ?]. by split. Qed.

Lemma ClientOk_initialize child :
  ClientOk (Runs child) (MCPClient.initialize child).
Proof.
  apply ClientOk_bind; [apply ClientOk_awaitRequest|]. intros response.
  apply ClientOk_bind; [apply ClientOk_info|]. intros _.
  apply ClientOk_sendNotification.
Qed.

Lemma ClientOk_fetchTools child :
  ClientOk (Runs child) (MCPClient.fetchTools child).
Proof.
  apply ClientOk_bind; [apply ClientOk_awaitRequest|]. intros [r|];
    [|apply ClientOk_ret].
  destruct (result_tools r) as [ts|]; [|apply ClientOk_ret].
  apply ClientOk_bind; [|intros _; apply ClientOk_info].
  intros c h Hc. cbn. client_ok; try done.
  - by apply Consistent_set_tools.
  - apply Grows_refl.
Qed.

Lemma Grows_spawn env c h : Grows h (snd (MCPClient.spawn env (c, h))).
Proof.
  cbn. eapply Grows_trans; [apply Grows_logger|].
  eapply Grows_trans; [apply Grows_allocPid | apply Grows_emit].
Qed.

(** [start()] comes back unless the child emits ['error']. *)
Lemma ClientOk_start env child :
  ClientOk (Runs child) (MCPClient.start env child).
Proof.
  intros c h Hc. unfold MCPClient.start.
  destruct (MCPClient.process c) eqn:Hp.
  - cbn. client_ok; try done. apply Grows_logger.
  - pose proof (Grows_spawn env c h) as Hg.
    assert (Consistent (fst (MCPClient.spawn env (c, h)))) as Hc1
      by by apply Consistent_set_process.
    assert (MCPClient.oid (fst (MCPClient.spawn env (c, h))) = MCPClient.oid c
            /\ MCPClient.config (fst (MCPClient.spawn env (c, h)))
               = MCPClient.config c) as [Ho Hcfg] by done.
    destruct (MCPClient.spawn env (c, h)) as [c1 h1]. cbn [fst snd] in *.
    destruct (ClientOk_bind _ _ _ (ClientOk_initialize child)
                (fun _ => ClientOk_fetchTools child) c1 h1 Hc1)
      as (Hh & Hc2 & Hg2 & Ho2 & Hcfg2).
    client_ok; try done; try congruence. by apply (Grows_trans _ h1).
Qed.

(** ** The HTTP client *)

Ltac http_ok := split; [|split; [|split]].

Lemma HttpOk_ret {A} (a : A) : HttpOk (ret a).
Proof. intros c h. cbn. http_ok; try done. apply Grows_refl. Qed.

Lemma HttpOk_throw {A} e : HttpOk (@throw _ A e).
Proof. intros c h. cbn. http_ok; try done. apply Grows_refl. Qed.

Lemma HttpOk_bind {A B} (m : M (HTTPMCPClient.t * Host) A)
    (k : A -> M (HTTPMCPClient.t * Host) B) :
  HttpOk m -> (forall a, HttpOk (k a)) -> HttpOk (bind m k).
Proof.
  intros Hm Hk c h. unfold bind. destruct (Hm c h) as (Hh & Hg & Ho & Hcfg).
  destruct (m (c, h)) as [[a|e|] [c1 h1]]; cbn [fst snd] in *; try done.
  destruct (Hk a c1 h1) as (Hh' & Hg' & Ho' & Hcfg').
  http_ok; try done; try congruence. by apply (Grows_trans _ h1).
Qed.

Lemma HttpOk_tryCatch {A} (m : M (HTTPMCPClient.t * Host) A) handler :
  HttpOk m -> (forall e, HttpOk (handler e)) -> HttpOk (tryCatch m handler).
Proof.
  intros Hm Hk c h. unfold tryCatch. destruct (Hm c h) as (Hh & Hg & Ho & Hcfg).
  destruct (m (c, h)) as [[a|e|] [c1 h1]]; cbn [fst snd] in *; try done.
  destruct (Hk e c1 h1) as (Hh' & Hg' & Ho' & Hcfg').
  http_ok; try done; try congruence. by apply (Grows_trans _ h1).
Qed.

Lemma HttpOk_log l text : HttpOk (HTTPMCPClient.log l text).
Proof. intros c h. cbn. http_ok; try done. apply Grows_logger. Qed.

Lemma HttpOk_post net message : HttpOk (HTTPMCPClient.post net message).
Proof. intros c h. cbn. http_ok; try done. apply Grows_emit. Qed.

Lemma HttpOk_sendRequest net m p : HttpOk (HTTPMCPClient.sendRequest net m p).
Proof.
  intros c h. unfold HTTPMCPClient.sendRequest.
  match goal with |- context [tryCatch ?a ?b (?c1, h)] =>
    assert (HttpOk (tryCatch a b)) as Hok; [|exact (Hok c1 h)]
  end.
  apply HttpOk_tryCatch.
  - apply HttpOk_bind; [apply HttpOk_post|].
    intros [e|ok status text [e|data]]; try apply HttpOk_throw.
    + destruct (negb ok); apply HttpOk_throw.
    + destruct (negb ok); [apply HttpOk_throw|].
      destruct (error data); [apply HttpOk_throw | apply HttpOk_ret].
  - intros e. apply HttpOk_bind; [apply HttpOk_log|].
    intros _. apply HttpOk_throw.
Qed.

Lemma HttpOk_sendNotification net m p :
  HttpOk (HTTPMCPClient.sendNotification net m p).
Proof.
  apply HttpOk_tryCatch.
  - apply HttpOk_bind; [apply HttpOk_post|].
    intros [e|ok status text json]; [apply HttpOk_throw | apply HttpOk_ret].
  - intros e. apply HttpOk_log.
Qed.

Lemma HttpOk_initialize net : HttpOk (HTTPMCPClient.initialize net).
Proof.
  apply HttpOk_bind; [apply HttpOk_sendRequest|]. intros response.
  apply HttpOk_bind; [apply HttpOk_log|]. intros _.
  apply HttpOk_sendNotification.
Qed.

Lemma HttpOk_fetchTools net : HttpOk (HTTPMCPClient.fetchTools net).
Proof.
  apply HttpOk_bind; [apply HttpOk_sendRequest|].
  intros [r|]; [|apply HttpOk_ret].
  destruct (result_tools r) as [ts|]; [|apply HttpOk_ret].
  apply HttpOk_bind; [|intros _; apply HttpOk_log].
  intros c h. cbn. http_ok; try done. apply Grows_refl.
Qed.

Lemma HttpOk_start net : HttpOk (HTTPMCPClient.start net).
Proof.
  intros c h. unfold HTTPMCPClient.start.
  destruct (HTTPMCPClient.initialized c).
  - cbn. http_ok; try done. apply Grows_logger.
  - match goal with |- context [tryCatch ?a ?b (c, ?h1)] =>
      assert (HttpOk (tryCatch a b)) as Hok;
        [|destruct (Hok c h1) as (? & ? & ? & ?)]
    end.
    + apply HttpOk_tryCatch.
      * apply HttpOk_bind; [apply HttpOk_initialize|]. intros _.
        apply HttpOk_bind; [apply HttpOk_fetchTools|]. intros _.
        apply HttpOk_bind; [|intros _; apply HttpOk_log].
        intros c' h'. cbn. http_ok; try done. apply Grows_refl.
      * intros e. apply HttpOk_bind; [apply HttpOk_log|].
        intros _. apply HttpOk_throw.
    + http_ok; try done.
      eapply Grows_trans; [apply Grows_logger | done].
Qed.

(** ** The loop over the HTTP servers *)

Lemma dom_Object_assign (target source : gmap string Tool) key :
  key ∈ dom (Object_assign target source)
  <-> key ∈ dom target \/ key ∈ dom source.
Proof. unfold Object_assign. rewrite dom_union, elem_of_union. tauto. Qed.

(** One turn of the loop for a server that has a url. *)
Lemma http_turn w server acc store host :
  exists result store' host',
    tryCatch (loadHttpServer w server acc)
      (fun e =>
         let! _ := log LogError
                     ("Failed to load HTTP MCP server "
                      +:+ MCPServerConfig.name server +:+ ":") in
         ret acc) (store, host)
    = (Return result, (store', host'))
    /\ Grows host host'
    /\ globalMCPManager store' = globalMCPManager store
    /\ currentServerConfigs store' = currentServerConfigs store
    /\ ((exists c,
           JsMap.get (MCPServerConfig.name server) (globalHTTPClients store)
           = Some c
           /\ store' = store
           /\ result = Object_assign acc (HTTPMCPClient.getTools c)
           /\ io host' = io host /\ next_oid host' = next_oid host
           /\ next_pid host' = next_pid host)
        \/ (JsMap.get (MCPServerConfig.name server) (globalHTTPClients store)
            = None
            /\ exists c,
                 StartedHttp w host c
                 /\ globalHTTPClients store'
                    = JsMap.set (MCPServerConfig.name server) c
                        (globalHTTPClients store)
                 /\ result = Object_assign acc (HTTPMCPClient.getTools c))
        \/ (JsMap.get (MCPServerConfig.name server) (globalHTTPClients store)
            = None
            /\ store' = store /\ result = acc)).
Proof.
  unfold tryCatch, loadHttpServer, bind at 1.
  destruct (JsMap.get (MCPServerConfig.name server) (globalHTTPClients store))
    as [c|] eqn:Hget.
  - cbn. eexists _, _, _. split; [reflexivity|].
    split; [apply Grows_logger|]. split; [done|]. split; [done|].
    left. exists c. by repeat split.
  - cbn [allocOid].
    match goal with |- context [HTTPMCPClient.start ?net (?c0, ?h0)] =>
      destruct (HttpOk_start net c0 h0) as (Hh & Hg & Ho & Hcfg);
      destruct (HTTPMCPClient.start net (c0, h0)) as [[[]|e|] [c1 h1]] eqn:Hstart
    end; cbn [fst snd] in *; [| |done].
    + cbn. eexists _, _, _. split; [reflexivity|]. split.
      { eapply Grows_trans; [apply (Grows_allocOid host)|].
        eapply Grows_trans; [exact Hg | apply Grows_logger]. }
      split; [done|]. split; [done|]. right. left. split; [done|].
      exists c1. split; [|by split].
      exists host, h1. split; [apply Grows_refl|].
      rewrite Hcfg. exact Hstart.
    + cbn. eexists _, _, _. split; [reflexivity|]. split.
      { eapply Grows_trans; [apply (Grows_allocOid host)|].
        eapply Grows_trans; [exact Hg | apply Grows_logger]. }
      split; [done|]. split; [done|]. right. right. by repeat split.
Qed.

Lemma StartedHttp_weaken w h0 h1 c :
  Grows h0 h1 -> StartedHttp w h1 c -> StartedHttp w h0 c.
Proof.
  intros Hg (h & h' & Hg' & Hs). exists h, h'.
  split; [by apply (Grows_trans _ h1) | done].
Qed.

Lemma loadHttpServers_spec w servers :
  forall acc store host,
  exists result store' host',
    loadHttpServers w servers acc (store, host) = (Return result, (store', host'))
    /\ HttpLoad w servers acc store host result store' host'.
Proof.
  induction servers as [|server rest IH]; intros acc store host.
  { exists acc, store, host. split; [done|]. split; try done.
    - apply Grows_refl.
    - intros n c Hg. by left.
    - intros key. split; [by left|].
      intros [?|(server & c & Hin%elem_of_nil & _)]; done. }
  cbn [loadHttpServers].
  destruct (truthy (MCPServerConfig.url server)) eqn:Hurl; cbn [negb].
  { (* the server has a url *)
    unfold bind at 1.
    destruct (http_turn w server acc store host)
      as (acc1 & store1 & host1 & -> & Hg1 & Hm1 & Hf1 & Hcase).
    destruct (IH acc1 store1 host1)
      as (result & store' & host' & -> & [Hm Hf Hg Hpersist Hnew Hkeys Hidle]).
    exists result, store', host'. split; [done|].
    assert (forall n c,
               JsMap.get n (globalHTTPClients store) = Some c ->
               JsMap.get n (globalHTTPClients store1) = Some c) as Hpersist1.
    { intros n c Hget.
      destruct Hcase as [(c0 & _ & -> & _)|[(Hnone & c0 & _ & -> & _)|(_ & -> & _)]];
        try done.
      rewrite get_set_ne; [done|]. intros ->. congruence. }
    split.
    - congruence.
    - congruence.
    - by apply (Grows_trans _ host1).
    - auto.
    - intros n c Hget. destruct (Hnew n c Hget) as [Hold|(Hst & s' & Hin & Hu & Hn)].
      + destruct Hcase
          as [(c0 & _ & -> & _)|[(Hnone & c0 & Hst & Heq & _)|(_ & -> & _)]];
          [by left| |by left].
        rewrite Heq in Hold.
        destruct (decide (n = MCPServerConfig.name server)) as [->|Hne].
        * rewrite get_set_eq in Hold. injection Hold as <-.
          right. split; [done|]. exists server. split; [left|done].
        * rewrite get_set_ne in Hold by done. by left.
      + right. split; [by apply (StartedHttp_weaken _ _ host1)|].
        exists s'. split; [by right | done].
    - intros key. rewrite Hkeys. split.
      + intros [Hacc|(s' & c & Hin & Hu & Hget & Hk)].
        * destruct Hcase
            as [(c0 & Hget0 & -> & -> & _)
               |[(Hnone & c0 & Hst & Heq & ->)|(_ & -> & ->)]].
          -- apply dom_Object_assign in Hacc as [?|Hk]; [by left|].
             right. exists server, c0. split; [left|]. split; [done|].
             split; [by apply Hpersist | done].
          -- apply dom_Object_assign in Hacc as [?|Hk]; [by left|].
             right. exists server, c0. split; [left|]. split; [done|].
             split; [|done]. apply Hpersist. rewrite Heq. apply get_set_eq.
          -- by left.
        * right. exists s', c. split; [by right | done].
      + intros [Hacc|(s' & c & Hin & Hu & Hget & Hk)].
        * left.
          destruct Hcase
            as [(c0 & _ & _ & -> & _)|[(_ & c0 & _ & _ & ->)|(_ & _ & ->)]];
            try done; apply dom_Object_assign; by left.
        * apply elem_of_cons in Hin as [->|Hin].
          2:{ right. exists s', c. by repeat split. }
          destruct Hcase
            as [(c0 & Hget0 & -> & -> & _)
               |[(Hnone & c0 & Hst & Heq & ->)|(Hnone & -> & ->)]].
          -- left. apply dom_Object_assign. right.
             apply Hpersist in Hget0. congruence.
          -- left. apply dom_Object_assign. right.
             assert (JsMap.get (MCPServerConfig.name server)
                       (globalHTTPClients store') = Some c0) as Hc0.
             { apply Hpersist. rewrite Heq. apply get_set_eq. }
             congruence.
          -- destruct (Hnew _ _ Hget) as [Hold|(_ & s2 & Hin2 & Hu2 & Hn2)];
               [congruence|].
             right. exists s2, c. split; [done|]. split; [done|].
             split; [by rewrite Hn2 | done].
    - intros Hall.
      assert (JsMap.has (MCPServerConfig.name server) (globalHTTPClients store)
              = true) as Hhas by (apply Hall; [left | done]).
      apply has_true_get in Hhas as [c0 Hc0].
      destruct Hcase
        as [(c1 & _ & -> & _ & Hio & Ho & Hp)
           |[(Hnone & _)|(Hnone & _)]]; [|congruence|congruence].
      destruct Hidle as (-> & -> & -> & ->).
      { intros s' Hin Hu. apply Hall; [by right | done]. }
      done. }
  (* the server has no url: the turn is skipped *)
  destruct (IH acc store host)
    as (result & store' & host' & -> & [Hm Hf Hg Hpersist Hnew Hkeys Hidle]).
  exists result, store', host'. split; [done|]. split; try done.
  - intros n c Hget.
    destruct (Hnew n c Hget) as [?|(Hst & s' & Hin & Hu & Hn)]; [by left|].
    right. split; [done|]. exists s'. split; [by right | done].
  - intros key. rewrite Hkeys. split.
    + intros [?|(s' & c & Hin & Hrest)]; [by left|].
      right. exists s', c. split; [by right | done].
    + intros [?|(s' & c & Hin & Hu & Hrest)]; [by left|].
      apply elem_of_cons in Hin as [->|Hin]; [congruence|].
      right. exists s', c. tauto.
  - intros Hall. apply Hidle. intros s' Hin Hu. apply Hall; [by right | done].
Qed.

(** ** The process-transport cohort *)

Lemma StartedProcess_weaken w h0 h1 c :
  Grows h0 h1 -> StartedProcess w h1 c -> StartedProcess w h0 c.
Proof.
  intros Hg (h & h' & Hg' & Hs). exists h, h'.
  split; [by apply (Grows_trans _ h1) | done].
Qed.

(** [addServer] registers the session exactly when its [start()] returns. *)
Lemma addServer_spec w cfg manager host :
  exists r manager' host',
    MCPManager.addServer (process_env w) (child w) cfg (manager, host)
    = (r, (manager', host'))
    /\ (Runs (child w cfg) -> r <> Hang) /\ Grows host host'
    /\ ((JsMap.has (MCPClient.name cfg) (MCPManager.clients manager) = true
         /\ r = Return tt /\ manager' = manager)
        \/ (JsMap.has (MCPClient.name cfg) (MCPManager.clients manager) = false
            /\ r = Return tt
            /\ exists c,
                 MCPManager.clients manager'
                 = JsMap.set (MCPClient.name cfg) c (MCPManager.clients manager)
                 /\ MCPClient.config c = cfg
                 /\ StartedProcess w host c)
        \/ (JsMap.has (MCPClient.name cfg) (MCPManager.clients manager) = false
            /\ failed r /\ manager' = manager)).
Proof.
  unfold MCPManager.addServer.
  destruct (JsMap.has (MCPClient.name cfg) (MCPManager.clients manager)) eqn:Hhas.
  - eexists _, _, _. split; [reflexivity|]. split; [done|].
    split; [apply Grows_logger|]. left. by repeat split.
  - cbn [allocOid].
    match goal with |- context [MCPClient.start ?env ?ch (?c0, ?h0)] =>
      destruct (ClientOk_start env ch c0 h0 (Consistent_new _ _))
        as (Hh & _ & Hg & Ho & Hcfg);
      destruct (MCPClient.start env ch (c0, h0)) as [[[]|e|] [c1 h1]] eqn:Hstart
    end; cbn [fst snd] in *.
    + eexists _, _, _. split; [reflexivity|]. split; [done|]. split.
      { eapply Grows_trans; [apply (Grows_allocOid host) | exact Hg]. }
      right. left. split; [done|]. split; [done|].
      exists c1. split; [done|]. split; [done|].
      exists host, h1. split; [apply Grows_refl|]. rewrite Hcfg. exact Hstart.
    + eexists _, _, _. split; [reflexivity|]. split; [done|]. split.
      { eapply Grows_trans; [apply (Grows_allocOid host) | exact Hg]. }
      right. right. by repeat split.
    + eexists _, _, _. split; [reflexivity|]. split; [exact Hh|]. split.
      { eapply Grows_trans; [apply (Grows_allocOid host) | exact Hg]. }
      right. right. by repeat split.
Qed.

Lemma set_globalMCPManager_same store manager :
  globalMCPManager store = Some manager ->
  set_globalMCPManager (Some manager) store = store.
Proof. destruct store. cbn. by intros ->. Qed.

(** One turn of the loop that starts the cohort. *)
Lemma startStdioServer_spec w server store host manager :
  globalMCPManager store = Some manager ->
  exists r manager1 host1,
    startStdioServer w server (store, host)
    = (r, (set_globalMCPManager (Some manager1) store, host1))
    /\ (ChildrenRun w -> r <> Hang) /\ Grows host host1
    /\ ((truthy (MCPServerConfig.command server) = false
         /\ r = Return tt /\ manager1 = manager /\ host1 = host)
        \/ (truthy (MCPServerConfig.command server) = true
            /\ ((JsMap.has (MCPServerConfig.name server)
                   (MCPManager.clients manager) = true
                 /\ r = Return tt /\ manager1 = manager)
                \/ (JsMap.has (MCPServerConfig.name server)
                      (MCPManager.clients manager) = false
                    /\ r = Return tt
                    /\ exists c,
                         MCPManager.clients manager1
                         = JsMap.set (MCPServerConfig.name server) c
                             (MCPManager.clients manager)
                         /\ MCPClient.config c = processConfigOf server
                         /\ StartedProcess w host c)
                \/ (JsMap.has (MCPServerConfig.name server)
                      (MCPManager.clients manager) = false
                    /\ failed r /\ manager1 = manager)))).
Proof.
  intros Hm. unfold startStdioServer.
  destruct (truthy (MCPServerConfig.command server)) eqn:Hcmd; cbn [negb].
  2:{ exists (Return tt), manager, host.
      rewrite set_globalMCPManager_same by done. split; [done|].
      split; [done|]. split; [apply Grows_refl|]. left. by repeat split. }
  unfold bind at 1, log, modify, onManager. rewrite Hm.
  fold (processConfigOf server).
  destruct (addServer_spec w (processConfigOf server) manager
              (logger LogInfo
                 ("Starting stdio MCP server: " +:+ MCPServerConfig.name server)
                 host))
    as (r1 & manager1 & host1 & -> & Hh1 & Hg1 & Hcase).
  exists r1, manager1, host1. split; [done|].
  split; [intros Hw; apply Hh1, Hw|]. split.
  { eapply Grows_trans; [apply Grows_logger | exact Hg1]. }
  right. split; [done|].
  destruct Hcase as [?|[(? & ? & c & ? & ? & Hst)|?]]; [by left| |by right; right].
  right. left. split; [done|]. split; [done|]. exists c.
  split; [done|]. split; [done|].
  eapply StartedProcess_weaken; [apply Grows_logger | exact Hst].
Qed.

(** The loop that starts the cohort, on a store that has a manager. *)
Lemma startAll_spec w servers :
  forall store host manager,
    globalMCPManager store = Some manager ->
    exists r manager' host',
      forEach (startStdioServer w) servers (store, host)
      = (r, (set_globalMCPManager (Some manager') store, host'))
      /\ (ChildrenRun w -> r <> Hang) /\ Grows host host'
      /\ (forall n c,
            JsMap.get n (MCPManager.clients manager) = Some c ->
            JsMap.get n (MCPManager.clients manager') = Some c)
      /\ (forall n c,
            (n, c) ∈ MCPManager.clients manager' ->
            (n, c) ∈ MCPManager.clients manager
            \/ (StartedProcess w host c
                /\ exists server,
                     server ∈ servers
                     /\ truthy (MCPServerConfig.command server) = true
                     /\ MCPServerConfig.name server = n
                     /\ MCPClient.config c = processConfigOf server))
      /\ (r = Return tt ->
          forall server,
            server ∈ servers ->
            truthy (MCPServerConfig.command server) = true ->
            JsMap.has (MCPServerConfig.name server)
              (MCPManager.clients manager') = true).
Proof.
  induction servers as [|server rest IH]; intros store host manager Hm.
  { exists (Return tt), manager, host.
    rewrite set_globalMCPManager_same by done. split; [done|].
    split; [done|]. split; [apply Grows_refl|]. split; [auto|].
    split; [by left|]. by intros _ server ?%elem_of_nil. }
  cbn [forEach]. unfold bind at 1.
  destruct (startStdioServer_spec w server store host manager Hm)
    as (r1 & manager1 & host1 & -> & Hh1 & Hg1 & Hcase).
  assert (forall n c,
             JsMap.get n (MCPManager.clients manager) = Some c ->
             JsMap.get n (MCPManager.clients manager1) = Some c) as Hpersist1.
  { intros n c Hget.
    destruct Hcase
      as [(_ & _ & -> & _)
         |(_ & [(_ & _ & ->)|[(Hnone & _ & c1 & -> & _)|(_ & _ & ->)]])];
      try done.
    rewrite get_set_ne; [done|]. intros ->.
    apply has_false_get in Hnone. congruence. }
  destruct r1 as [[]|e|].
  - (* the turn returned: the loop goes on *)
    destruct (IH (set_globalMCPManager (Some manager1) store) host1 manager1 eq_refl)
      as (r & manager' & host' & Hrun & Hh & Hg & Hpersist & Hnew & Hall).
    exists r, manager', host'. split.
    { rewrite Hrun. by destruct store. }
    split; [done|]. split; [by apply (Grows_trans _ host1)|].
    split; [auto|]. split.
    + intros n c Hget.
      destruct (Hnew n c Hget) as [Hold|(Hst & s' & Hin & Hrest)].
      * destruct Hcase
          as [(_ & _ & -> & _)
             |(Hcmd & [(_ & _ & ->)
                      |[(Hnone & _ & c1 & Heq & Hcfg & Hst)|(_ & [] & _)]])];
          [by left | by left |].
        rewrite Heq in Hold. apply elem_of_set in Hold as [[= -> ->]|Hold].
        -- right. split; [done|]. exists server. split; [left|done].
        -- by left.
      * right. split; [by apply (StartedProcess_weaken _ _ host1)|].
        exists s'. split; [by right | done].
    + intros Hr s' Hin Hc. apply elem_of_cons in Hin as [->|Hin]; [|by apply Hall].
      apply has_true_get.
      destruct Hcase
        as [(Hcmd & _)
           |(_ & [(Hhas & _ & ->)|[(_ & _ & c1 & Heq & _)|(_ & [] & _)]])].
      * congruence.
      * apply has_true_get in Hhas as [c Hc']. eauto.
      * exists c1. apply Hpersist. rewrite Heq. apply get_set_eq.
  - (* the turn threw: the loop is left *)
    exists (Throw e), manager1, host1. split; [done|]. split; [done|].
    split; [done|]. split; [done|]. split; [|done].
    intros n c Hget.
    destruct Hcase
      as [(_ & [=] & _)|(_ & [(_ & [=] & _)|[(_ & [=] & _)|(_ & _ & ->)]])].
    by left.
  - (* the hosting process died in the turn *)
    exists Hang, manager1, host1. split; [done|]. split; [done|].
    split; [done|]. split; [done|]. split; [|done].
    intros n c Hget.
    destruct Hcase
      as [(_ & [=] & _)|(_ & [(_ & [=] & _)|[(_ & [=] & _)|(_ & _ & ->)]])].
    by left.
Qed.

Lemma stopAll_host clients :
  forall host,
    let host' :=
      foldl (fun host client => snd (snd (MCPClient.stop (client, host))))
            host clients in
    io host'
    = io host
      ++ omap (fun c => (fun p => Kill (MCPClient.pid p)) <$> MCPClient.process c)
              clients
    /\ next_oid host' = next_oid host /\ next_pid host' = next_pid host.
Proof.
  induction clients as [|c clients IH]; intros host.
  { cbn. by rewrite app_nil_r. }
  cbn [foldl omap].
  destruct (IH (snd (snd (MCPClient.stop (c, host))))) as (-> & -> & ->).
  unfold MCPClient.stop.
  destruct (MCPClient.process c) as [p|] eqn:Hp; cbn; rewrite Hp; cbn.
  - by rewrite <- app_assoc.
  - done.
Qed.

Lemma stopAll_spec manager host :
  exists host',
    MCPManager.stopAll (manager, host)
    = (Return tt, ({| MCPManager.clients := [] |}, host'))
    /\ io host' = io host ++ kills manager
    /\ next_oid host' = next_oid host /\ next_pid host' = next_pid host.
Proof.
  unfold MCPManager.stopAll. eexists. split; [reflexivity|].
  apply stopAll_host.
Qed.

Lemma Grows_of_io h h' rest :
  io h' = io h ++ rest -> next_oid h' = next_oid h -> next_pid h' = next_pid h ->
  Grows h h'.
Proof. intros Hio Ho Hp. split; [eauto | lia | lia]. Qed.

(** The restart of the cohort: the old sessions are killed, a new manager is
    made and the loop over the servers fills it. *)
Lemma restartManager_spec w servers hash store host :
  exists r manager' host',
    restartManager w servers hash (store, host)
    = (r,
       (match r with
        | Return _ =>
            set_currentServerConfigs hash
              (set_globalMCPManager (Some manager') store)
        | _ => set_globalMCPManager (Some manager') store
        end, host'))
    /\ (ChildrenRun w -> r <> Hang) /\ Grows host host'
    /\ (exists rest,
          io host' = io host ++ killsOf (globalMCPManager store) ++ rest)
    /\ (forall n c,
          (n, c) ∈ MCPManager.clients manager' ->
          StartedProcess w host c
          /\ exists server,
               server ∈ servers
               /\ truthy (MCPServerConfig.command server) = true
               /\ MCPServerConfig.name server = n
               /\ MCPClient.config c = processConfigOf server)
    /\ (r = Return tt ->
        forall server,
          server ∈ servers ->
          truthy (MCPServerConfig.command server) = true ->
          JsMap.has (MCPServerConfig.name server)
            (MCPManager.clients manager') = true).
Proof.
  unfold restartManager.
  (* the old manager is stopped *)
  assert (exists host1,
             (fun '(store, host) =>
                match globalMCPManager store with
                | Some _ =>
                    (let! _ := log LogInfo
                                 "Stdio MCP server configs changed, restarting manager" in
                     onManager MCPManager.stopAll) (store, host)
                | None => (Return tt, (store, host))
                end) (store, host)
             = (Return tt,
                (match globalMCPManager store with
                 | Some _ =>
                     set_globalMCPManager
                       (Some {| MCPManager.clients := [] |}) store
                 | None => store
                 end, host1))
             /\ io host1 = io host ++ killsOf (globalMCPManager store)
             /\ next_oid host1 = next_oid host
             /\ next_pid host1 = next_pid host) as (host1 & Hstop & Hio1 & Ho1 & Hp1).
  { cbn beta iota. destruct (globalMCPManager store) as [old|] eqn:Hold.
    - unfold bind, log, modify, onManager. rewrite Hold.
      destruct (stopAll_spec old
                  (logger LogInfo
                     "Stdio MCP server configs changed, restarting manager" host))
        as (host1 & -> & Hio & Ho & Hp).
      exists host1. split; [done|]. by repeat split.
    - exists host. split; [done|]. cbn. by rewrite app_nil_r. }
  unfold bind at 1. rewrite Hstop. clear Hstop.
  unfold bind at 1, modify.
  set (store1 := set_globalMCPManager (Some MCPManager.new)
                   match globalMCPManager store with
                   | Some _ =>
                       set_globalMCPManager
                         (Some {| MCPManager.clients := [] |}) store
                   | None => store
                   end).
  destruct (startAll_spec w servers store1 host1 MCPManager.new eq_refl)
    as (r & manager' & host' & Hrun & Hh & Hg & _ & Hnew & Hall).
  assert (Grows host host1) as Hg1 by (by eapply Grows_of_io).
  assert (forall m, set_globalMCPManager m store1 = set_globalMCPManager m store)
    as Hstore.
  { intros m. subst store1. by destruct store as [[?|] ? ?]. }
  unfold bind at 1. rewrite Hrun, Hstore.
  exists r, manager', host'.
  split; [by destruct r as [[]| |]|]. split; [done|].
  split; [by apply (Grows_trans _ host1)|]. split.
  { destruct Hg as [[rest Hrest] _ _]. exists rest.
    by rewrite Hrest, Hio1, app_assoc. }
  split; [|done].
  intros n c Hget.
  destruct (Hnew n c Hget) as [Hold|[Hst Hrest]]; [by apply elem_of_nil in Hold|].
  split; [by apply (StartedProcess_weaken _ _ host1) | done].
Qed.

(** The block for the process-transport servers: skipped, left as it is, or
    restarted. *)
Lemma loadStdio_spec w servers acc store host :
  exists r store' host',
    loadStdio w servers acc (store, host) = (r, (store', host'))
    /\ (ChildrenRun w -> r <> Hang) /\ Grows host host'
    /\ globalHTTPClients store' = globalHTTPClients store
    /\ (((servers = [] \/ isServerless w = true)
         /\ r = Return acc /\ store' = store /\ io host' = io host
         /\ next_oid host' = next_oid host /\ next_pid host' = next_pid host)
        \/ (servers <> [] /\ isServerless w = false
            /\ currentServerConfigs store = configHash servers
            /\ r = Return (Object_assign acc (managerTools store))
            /\ store' = store /\ host' = host)
        \/ (servers <> [] /\ isServerless w = false
            /\ currentServerConfigs store <> configHash servers
            /\ exists manager',
                 globalMCPManager store' = Some manager'
                 /\ (exists rest,
                        io host' = io host ++ killsOf (globalMCPManager store)
                                     ++ rest)
                 /\ (forall n c,
                        (n, c) ∈ MCPManager.clients manager' ->
                        StartedProcess w host c
                        /\ exists server,
                             server ∈ servers
                             /\ truthy (MCPServerConfig.command server) = true
                             /\ MCPServerConfig.name server = n
                             /\ MCPClient.config c = processConfigOf server)
                 /\ ((r = Return (Object_assign acc (MCPManager.getAllTools manager'))
                      /\ currentServerConfigs store' = configHash servers
                      /\ forall server,
                           server ∈ servers ->
                           truthy (MCPServerConfig.command server) = true ->
                           JsMap.has (MCPServerConfig.name server)
                             (MCPManager.clients manager') = true)
                     \/ (failed r
                         /\ currentServerConfigs store'
                            = currentServerConfigs store)))).
Proof.
  unfold loadStdio.
  destruct servers as [|server rest].
  { cbn. exists (Return acc), store, host. split; [done|]. split; [done|].
    split; [apply Grows_refl|]. split; [done|]. left. split; [by left|done]. }
  rewrite bool_decide_eq_true_2 by (cbn; lia).
  destruct (isServerless w) eqn:Hsl.
  { cbn. eexists _, _, _. split; [reflexivity|]. split; [done|].
    split; [apply Grows_logger|]. split; [done|]. left. split; [by right|done]. }
  unfold bind at 1.
  destruct (String.eqb_spec (configHash (server :: rest))
              (currentServerConfigs store)) as [Heq|Hne]; cbn [negb].
  { exists (Return (Object_assign acc (managerTools store))), store, host.
    split; [done|]. split; [done|]. split; [apply Grows_refl|].
    split; [done|]. right. left. by repeat split. }
  destruct (restartManager_spec w (server :: rest)
              (configHash (server :: rest)) store host)
    as (r & manager' & host' & -> & Hh & Hg & Hio & Hnew & Hall).
  destruct r as [[]|e|].
  - eexists _, _, _. split; [reflexivity|]. split; [done|]. split; [done|].
    split; [done|]. right. right. split; [done|]. split; [done|].
    split; [congruence|]. exists manager'. split; [done|]. split; [done|].
    split; [done|]. left. split; [done|]. split; [done|]. by apply Hall.
  - eexists _, _, _. split; [reflexivity|]. split; [done|]. split; [done|].
    split; [done|]. right. right. split; [done|]. split; [done|].
    split; [congruence|]. exists manager'. split; [done|]. split; [done|].
    split; [done|]. by right.
  - eexists _, _, _. split; [reflexivity|].
    split; [intros Hw; by destruct (Hh Hw)|]. split; [done|].
    split; [done|]. right. right. split; [done|]. split; [done|].
    split; [congruence|]. exists manager'. split; [done|]. split; [done|].
    split; [done|]. by right.
Qed.

Lemma loadHttp_spec w servers acc store host :
  exists result store' host',
    loadHttp w servers acc (store, host) = (Return result, (store', host'))
    /\ HttpLoad w servers acc store host result store' host'.
Proof.
  unfold loadHttp. destruct servers as [|server rest].
  { cbn. destruct (loadHttpServers_spec w [] acc store host)
      as (result & store' & host' & [= <- <- <-] & Hspec).
    eauto. }
  rewrite bool_decide_eq_true_2 by (cbn; lia).
  unfold bind at 1, log, modify.
  match goal with |- context [loadHttpServers w ?l acc (store, ?h1)] =>
    destruct (loadHttpServers_spec w l acc store h1)
      as (result & store' & host' & -> & [Hm Hf Hg Hpersist Hnew Hkeys Hidle])
  end.
  exists result, store', host'. split; [done|]. split; try done.
  - eapply Grows_trans; [apply Grows_logger | done].
  - intros n c Hget.
    destruct (Hnew n c Hget) as [?|[Hst Hrest]]; [by left|].
    right. split; [|done].
    eapply StartedHttp_weaken; [apply Grows_logger | done].
Qed.

(** ** The loader *)

(** What the [try] block did is the block for the process-transport servers
    followed, when that returned, by the loop over the HTTP servers. *)
Lemma loadMCPTools_try_spec w servers store host :
  exists r1 store1 host1,
    loadStdio w (stdioServersOf servers) ∅ (store, host) = (r1, (store1, host1))
    /\ ((failed r1
         /\ loadMCPTools_try w servers (store, host) = (r1, (store1, host1)))
        \/ (exists acc result store' host',
              r1 = Return acc
              /\ loadHttp w (httpServersOf servers) acc (store1, host1)
                 = (Return result, (store', host'))
              /\ HttpLoad w (httpServersOf servers) acc store1 host1
                   result store' host'
              /\ loadMCPTools_try w servers (store, host)
                 = (Return result,
                    (store',
                     logger LogInfo
                       ("Loaded " +:+ pretty (size result) +:+ " total MCP tools")
                       host')))).
Proof.
  destruct (loadStdio_spec w (stdioServersOf servers) ∅ store host)
    as (r1 & store1 & host1 & Hrun & Hh & _).
  exists r1, store1, host1. split; [done|].
  destruct r1 as [acc|e|].
  - right.
    destruct (loadHttp_spec w (httpServersOf servers) acc store1 host1)
      as (result & store' & host' & Hhttp & Hspec).
    exists acc, result, store', host'. split; [done|]. split; [done|].
    split; [done|]. unfold loadMCPTools_try. unfold bind at 1. rewrite Hrun.
    cbn beta iota. unfold bind at 1. by rewrite Hhttp.
  - left. split; [done|].
    unfold loadMCPTools_try. unfold bind at 1. by rewrite Hrun.
  - left. split; [done|].
    unfold loadMCPTools_try. unfold bind at 1. by rewrite Hrun.
Qed.

(** When no child emits ['error'], [loadMCPTools] returns a tool mapping:
    the one its [try] block built, or the empty one when something in the
    block threw; it neither throws nor stays suspended. *)
Theorem loader_returns w servers s :
  ChildrenRun w ->
  exists tools s',
    loadMCPTools w servers s = (Return tools, s')
    /\ (loadMCPTools_try w servers s = (Return tools, s')
        \/ exists e s1,
             loadMCPTools_try w servers s = (Throw e, s1)
             /\ tools = ∅
             /\ s' = (fst s1, logger LogError "Failed to load MCP tools:" (snd s1))).
Proof.
  intros Hw. destruct s as [store host]. unfold loadMCPTools, tryCatch.
  destruct (loadStdio_spec w (stdioServersOf servers) ∅ store host)
    as (r0 & store0 & host0 & Hrun0 & Hh & _).
  destruct (loadMCPTools_try_spec w servers store host)
    as (r1 & store1 & host1 & Hrun
        & [(Hfail & ->)|(acc & result & store' & host' & _ & _ & _ & ->)]).
  - rewrite Hrun in Hrun0. injection Hrun0 as <- <- <-.
    destruct r1 as [?|e|]; [done| |by destruct (Hh Hw)].
    eexists _, _. split; [reflexivity|]. right. eexists _, _. by repeat split.
  - eexists _, _. split; [reflexivity|]. by left.
Qed.

(** No child of the example emits ['error']. *)
Lemma exampleWorld_runs : ChildrenRun exampleWorld.
Proof. intros cfg request. cbn. by destruct (String.eqb _ _). Qed.

Lemma loader_returns_witness :
  exists tools s',
    loadMCPTools exampleWorld serversWithBrokenProcess (initialStore, initialHost)
    = (Return tools, s').
Proof.
  destruct (loader_returns exampleWorld serversWithBrokenProcess
              (initialStore, initialHost) exampleWorld_runs)
    as (tools & s' & Hrun & _).
  exists tools, s'. exact Hrun.
Defined.

(** C7, evaluated.  When the command of a process-transport server cannot
    be executed, its [ChildProcess] emits ['error'], for which [start]
    registered no listener: the hosting process dies in the handshake of
    that server, after the first line was written to the child, and the load
    does not come back with a mapping; nothing is logged by the [catch] of
    [loadMCPTools], which is never reached. *)
Theorem loader_dies_on_child_error :
  fst spawnErrorLoaded = Hang
  /\ (forall tools s, spawnErrorLoaded <> (Return tools, s))
  /\ io (snd (snd spawnErrorLoaded))
     = [Spawn 0 "npx" ["-y"] [("PATH", "/usr/bin")];
        StdinWrite 0 (requestMessage 1 "initialize" initializeParams);
        StdinWrite 0
          (notificationMessage "notifications/initialized" (JObject []));
        StdinWrite 0 (requestMessage 2 "tools/list" (JObject []));
        Spawn 1 "nope" ["-y"] [("PATH", "/usr/bin")];
        StdinWrite 1 (requestMessage 1 "initialize" initializeParams)]
  /\ (LogError, "Failed to load MCP tools:")
     ∉ console (snd (snd spawnErrorLoaded)).
Proof.
  split; [vm_compute; reflexivity|]. split.
  { intros tools s H. apply (f_equal fst) in H. vm_compute in H. discriminate H. }
  split; [vm_compute; reflexivity|].
  intros Hin. vm_compute in Hin.
  repeat (apply elem_of_cons in Hin as [Hin|Hin]; [discriminate Hin|]).
  by apply elem_of_nil in Hin.
Qed.

(** ** Qualified names *)

Lemma getToolsOf_dom self server tools key :
  key ∈ dom (getToolsOf self server tools)
  <-> exists t, t ∈ tools /\ key = qualifiedName server (tool_name t).
Proof.
  unfold getToolsOf.
  assert (forall acc : gmap string Tool,
             key ∈ dom (foldl (fun (acc : gmap string Tool) mcpTool =>
                                <[qualifiedName server (tool_name mcpTool) :=
                                    {| description := descriptionOrName mcpTool;
                                       parameters :=
                                         convertJsonSchemaToZod (inputSchema mcpTool);
                                       execute := (self, tool_name mcpTool) |}]> acc)
                             acc tools)
             <-> key ∈ dom acc
                 \/ exists t, t ∈ tools /\ key = qualifiedName server (tool_name t))
    as Hgen.
  { induction tools as [|t tools IH]; intros acc.
    - cbn. split; [by left|]. intros [?|(t & Hin%elem_of_nil & _)]; done.
    - cbn [foldl]. rewrite IH, dom_insert, elem_of_union, elem_of_singleton.
      split.
      + intros [[->|?]|(t' & Hin & ->)].
        * right. exists t. split; [left|done].
        * by left.
        * right. exists t'. split; [by right|done].
      + intros [?|(t' & Hin & ->)]; [left; by right|].
        apply elem_of_cons in Hin as [->|Hin]; [left; by left|].
        right. eauto. }
  rewrite Hgen, dom_empty, elem_of_empty. tauto.
Qed.

Lemma getAllTools_dom manager key :
  key ∈ dom (MCPManager.getAllTools manager)
  <-> exists n c,
        (n, c) ∈ MCPManager.clients manager
        /\ key ∈ dom (MCPClient.getTools c).
Proof.
  unfold MCPManager.getAllTools, JsMap.values.
  assert (forall acc : gmap string Tool,
             key ∈ dom (foldl (fun allTools client =>
                                Object_assign allTools (MCPClient.getTools client))
                             acc (map snd (MCPManager.clients manager)))
             <-> key ∈ dom acc
                 \/ exists n c,
                      (n, c) ∈ MCPManager.clients manager
                      /\ key ∈ dom (MCPClient.getTools c)) as Hgen.
  { induction (MCPManager.clients manager) as [|[n c] clients IH]; intros acc.
    - cbn. split; [by left|]. intros [?|(n & c & Hin%elem_of_nil & _)]; done.
    - cbn [map foldl snd]. rewrite IH, dom_Object_assign. split.
      + intros [[?|?]|(n' & c' & Hin & Hk)].
        * by left.
        * right. exists n, c. split; [left|done].
        * right. exists n', c'. split; [by right|done].
      + intros [?|(n' & c' & Hin & Hk)]; [left; by left|].
        apply elem_of_cons in Hin as [[= -> ->]|Hin]; [left; by right|].
        right. eauto. }
  rewrite Hgen, dom_empty, elem_of_empty. tauto.
Qed.


(** The keys of the mapping a load returns from its [try] block. *)
Lemma loadMCPTools_try_keys w servers store host r store' host' key :
  loadMCPTools_try w servers (store, host) = (Return r, (store', host')) ->
  key ∈ dom r
  <-> (stdioServersOf servers <> [] /\ isServerless w = false
       /\ key ∈ dom (managerTools store'))
      \/ (exists server c,
             server ∈ httpServersOf servers
             /\ truthy (MCPServerConfig.url server) = true
             /\ JsMap.get (MCPServerConfig.name server) (globalHTTPClients store')
                = Some c
             /\ key ∈ dom (HTTPMCPClient.getTools c)).
Proof.
  intros Hrun.
  destruct (loadMCPTools_try_spec w servers store host)
    as (r1 & store1 & host1 & Hstdio
        & [(Hfail & Htry)|(acc & result & store2 & host2 & -> & _ & Hhttp & Htry)]);
    rewrite Htry in Hrun; [injection Hrun as -> _ _; destruct Hfail|].
  injection Hrun as <- <- _.
  destruct Hhttp as [Hm _ _ _ _ Hkeys _]. rewrite Hkeys.
  assert (managerTools store2 = managerTools store1) as ->
    by (unfold managerTools; by rewrite Hm).
  assert (key ∈ dom acc
          <-> stdioServersOf servers <> [] /\ isServerless w = false
              /\ key ∈ dom (managerTools store1)) as ->; [|done].
  destruct (loadStdio_spec w (stdioServersOf servers) ∅ store host)
    as (r1 & store1' & host1' & Hrun1 & _ & _ & _ & Hcase).
  rewrite Hstdio in Hrun1. injection Hrun1 as <- <- <-.
  destruct Hcase
    as [(Hskip & [= ->] & _)
       |[(Hne & Hsl & _ & [= ->] & -> & _)
        |(Hne & Hsl & _ & manager' & Hm' & _ & _
          & [([= ->] & _)|([] & _)])]].
  - rewrite dom_empty, elem_of_empty. split; [done|].
    intros (? & ? & _). destruct Hskip; congruence.
  - rewrite dom_Object_assign, dom_empty, elem_of_empty. tauto.
  - rewrite dom_Object_assign, dom_empty, elem_of_empty.
    unfold managerTools. rewrite Hm'. tauto.
Qed.

(** After a load on the module as first imported, the sessions the module
    holds are sessions that this load created and started successfully. *)
Lemma loaded_sessions_started w servers host r store' host' :
  loadMCPTools w servers (initialStore, host) = (r, (store', host')) ->
  (forall manager n c,
      globalMCPManager store' = Some manager ->
      JsMap.get n (MCPManager.clients manager) = Some c ->
      StartedProcess w host c)
  /\ (forall n c,
        JsMap.get n (globalHTTPClients store') = Some c -> StartedHttp w host c).
Proof.
  unfold loadMCPTools, tryCatch.
  destruct (loadStdio_spec w (stdioServersOf servers) ∅ initialStore host)
    as (r1 & store1 & host1 & Hrun1 & _ & Hg1 & Hhttp1 & Hcase).
  assert (forall manager n c,
             globalMCPManager store1 = Some manager ->
             JsMap.get n (MCPManager.clients manager) = Some c ->
             StartedProcess w host c) as Hproc.
  { intros manager n c Hm Hget.
    destruct Hcase
      as [(_ & _ & -> & _)
         |[(_ & _ & _ & _ & -> & _)|(_ & _ & _ & manager' & Hm' & _ & Hnew & _)]];
      try done.
    rewrite Hm' in Hm. injection Hm as <-.
    by destruct (Hnew n c (get_Some_elem _ _ _ Hget)). }
  destruct (loadMCPTools_try_spec w servers initialStore host)
    as (r1' & store1' & host1' & Hstdio
        & [(Hfail & ->)|(acc & result & store2 & host2 & _ & _ & Hhttp & ->)]);
    rewrite Hrun1 in Hstdio; injection Hstdio as <- <- <-.
  - destruct r1 as [?|e|]; [done|..];
      unfold bind, log, modify, ret; intros [= <- <- <-]; (split; [done|]);
      intros n c; by rewrite Hhttp1.
  - intros [= <- <- <-]. destruct Hhttp as [Hm _ _ _ Hnew _ _]. split.
    + intros manager n c. rewrite Hm. apply Hproc.
    + intros n c Hget. destruct (Hnew n c Hget) as [Hold|[Hst _]].
      * by rewrite Hhttp1 in Hold.
      * by apply (StartedHttp_weaken _ _ host1).
Qed.

(** The keys of [getTools] of a session are exactly
    ["mcp_" + name + "_" + toolName] for its tool descriptors, on both
    transports; the keys of [getAllTools] are exactly those of the sessions
    the manager holds; the mapping [loadMCPTools] returns has no key but
    those of the tools of the sessions held for the configured servers (the
    manager's when process-transport servers are configured and permitted,
    and the session registered under the name of each HTTP server that has
    a url), and has all of them when its [try] block returned; and after a
    load on a fresh module every session held is one whose [start()]
    returned normally during that load. *)
Lemma keys_of_held_sessions :
  (forall c key,
      key ∈ dom (MCPClient.getTools c)
      <-> exists t,
            t ∈ MCPClient.tools c
            /\ key = "mcp_" +:+ MCPClient.name (MCPClient.config c) +:+ "_"
                     +:+ tool_name t)
  /\ (forall c key,
        key ∈ dom (HTTPMCPClient.getTools c)
        <-> exists t,
              t ∈ HTTPMCPClient.tools c
              /\ key = "mcp_" +:+ HTTPMCPClient.name (HTTPMCPClient.config c)
                       +:+ "_" +:+ tool_name t)
  /\ (forall manager key,
        key ∈ dom (MCPManager.getAllTools manager)
        <-> exists n c,
              (n, c) ∈ MCPManager.clients manager
              /\ key ∈ dom (MCPClient.getTools c))
  /\ (forall w servers store host r store' host' key,
        loadMCPTools w servers (store, host) = (Return r, (store', host')) ->
        let held :=
          (stdioServersOf servers <> [] /\ isServerless w = false
           /\ key ∈ dom (managerTools store'))
          \/ (exists server c,
                 server ∈ httpServersOf servers
                 /\ truthy (MCPServerConfig.url server) = true
                 /\ JsMap.get (MCPServerConfig.name server)
                      (globalHTTPClients store') = Some c
                 /\ key ∈ dom (HTTPMCPClient.getTools c)) in
        (key ∈ dom r -> held)
        /\ ((exists r0 s0,
                loadMCPTools_try w servers (store, host) = (Return r0, s0)) ->
            held -> key ∈ dom r))
  /\ (forall w servers host r store' host',
        loadMCPTools w servers (initialStore, host) = (r, (store', host')) ->
        (forall manager n c,
            globalMCPManager store' = Some manager ->
            JsMap.get n (MCPManager.clients manager) = Some c ->
            StartedProcess w host c)
        /\ (forall n c,
              JsMap.get n (globalHTTPClients store') = Some c ->
              StartedHttp w host c)).
Proof.
  split; [|split; [|split; [|split]]].
  - intros c key. exact (getToolsOf_dom _ _ _ _).
  - intros c key. exact (getToolsOf_dom _ _ _ _).
  - exact getAllTools_dom.
  - intros w servers store host r store' host' key. unfold loadMCPTools, tryCatch.
    destruct (loadMCPTools_try w servers (store, host))
      as [[r0|e|] [store0 host0]] eqn:Htry; [| |done].
    + intros [= <- <- <-].
      pose proof (loadMCPTools_try_keys _ _ _ _ _ _ _ key Htry) as Hkeys.
      split; [apply Hkeys | intros _; apply Hkeys].
    + unfold bind, log, modify, ret. intros [= <- <- <-]. split.
      * by rewrite dom_empty, elem_of_empty.
      * by intros (? & ? & [=]).
  - intros w servers host r store' host' Hrun.
    exact (loaded_sessions_started _ _ _ _ _ _ Hrun).
Qed.

Lemma exampleLoaded_run :
  loadMCPTools_try exampleWorld exampleServers (initialStore, initialHost)
  = (Return (match fst exampleLoaded with Return r => r | _ => ∅ end),
     (fst (snd exampleLoaded), snd (snd exampleLoaded))).
Proof. vm_compute. reflexivity. Qed.

Lemma exampleLoaded_load :
  loadMCPTools exampleWorld exampleServers (initialStore, initialHost)
  = (Return (match fst exampleLoaded with Return r => r | _ => ∅ end),
     (fst (snd exampleLoaded), snd (snd exampleLoaded))).
Proof. vm_compute. reflexivity. Qed.

Lemma keys_of_held_sessions_example :
  "mcp_remote_search"
  ∈ dom (match fst exampleLoaded with Return r => r | _ => ∅ end).
Proof.
  pose proof (proj1 (proj2 (proj2 (proj2 keys_of_held_sessions)))
                exampleWorld exampleServers initialStore initialHost
                (match fst exampleLoaded with Return r => r | _ => ∅ end)
                (fst (snd exampleLoaded)) (snd (snd exampleLoaded))
                "mcp_remote_search" exampleLoaded_load) as [_ Hkeys].
  apply Hkeys; clear Hkeys; [eexists _, _; exact exampleLoaded_run|]. right.
  exists (httpServer "remote" (Some "https://remote.example")),
    (default (HTTPMCPClient.new 0 remoteConfig)
       (JsMap.get "remote" (globalHTTPClients (fst (snd exampleLoaded))))).
  split; [vm_compute; left|]. split; [reflexivity|].
  split; [vm_compute; reflexivity|].
  apply elem_of_dom. vm_compute. eauto.
Defined.

(** C1, evaluated.  In the load of [fs], [broken] and [remote] on the
    module as first imported, the manager comes to hold the session of [fs]:
    its [start()] returned normally in this load, its child answered
    [tools/list] with the tools [read] and [write], and the session holds
    these two descriptors.  The mapping that the load returns is empty all
    the same, so it has neither [mcp_fs_read] nor [mcp_fs_write]. *)
Theorem started_server_tools_missing :
  exists manager fs,
    globalMCPManager (fst (snd partialLoaded)) = Some manager
    /\ JsMap.get "fs" (MCPManager.clients manager) = Some fs
    /\ StartedProcess exampleWorld initialHost fs
    /\ child exampleWorld (MCPClient.config fs)
         (requestMessage 2 "tools/list" (JObject []))
       = [Stdout (responseTo (requestMessage 2 "tools/list" (JObject []))
                    (Some [plainTool "read"; plainTool "write"]))]
    /\ MCPClient.tools fs = [plainTool "read"; plainTool "write"]
    /\ dom (MCPClient.getTools fs)
       = {[qualifiedName "fs" "read"; qualifiedName "fs" "write"]}
    /\ fst partialLoaded = Return ∅
    /\ qualifiedName "fs" "read" = "mcp_fs_read"
    /\ "mcp_fs_read" ∉ dom (∅ : gmap string Tool).
Proof.
  eexists _, _. split; [vm_compute; reflexivity|].
  split; [vm_compute; reflexivity|]. split.
  { assert (loadMCPTools exampleWorld serversWithBrokenProcess
              (initialStore, initialHost)
            = (fst partialLoaded, (fst (snd partialLoaded), snd (snd partialLoaded))))
      as Hrun by (unfold partialLoaded; by destruct (loadMCPTools _ _ _) as [? [? ?]]).
    destruct (loaded_sessions_started _ _ _ _ _ _ Hrun) as [Hproc _].
    eapply (Hproc _ "fs"); vm_compute; reflexivity. }
  split; [reflexivity|]. split; [reflexivity|].
  split; [vm_compute; reflexivity|]. split; [vm_compute; reflexivity|].
  split; [reflexivity|]. rewrite dom_empty. apply not_elem_of_empty.
Qed.

(** ** Partial failure *)

(** C2, evaluated.  With a process-transport server whose handshake fails,
    the load returns the empty mapping although [fs] was started (the
    manager holds it with its two tools) and [remote] could be; with an
    HTTP server whose handshake fails, the load returns the tools of the
    others. *)
Theorem partial_failure :
  fst (loadMCPTools exampleWorld serversWithBrokenProcess
         (initialStore, initialHost))
  = Return ∅
  /\ dom (managerTools
            (fst (snd (loadMCPTools exampleWorld serversWithBrokenProcess
                         (initialStore, initialHost)))))
     = {["mcp_fs_read"; "mcp_fs_write"]}
  /\ globalHTTPClients
       (fst (snd (loadMCPTools exampleWorld serversWithBrokenProcess
                    (initialStore, initialHost))))
     = []
  /\ dom (match fst (loadMCPTools exampleWorld serversWithBrokenHttp
                       (initialStore, initialHost)) with
          | Return r => r
          | _ => ∅
          end)
     = {["mcp_fs_read"; "mcp_fs_write"; "mcp_remote_search"]}.
Proof.
  split; [vm_compute; reflexivity|]. split; [vm_compute; reflexivity|].
  split; vm_compute; reflexivity.
Qed.

(** ** Loading twice *)

Lemma fingerprintOf_fingerprinted s s' :
  fingerprinted s = fingerprinted s' -> fingerprintOf s = fingerprintOf s'.
Proof.
  unfold fingerprinted, fingerprintOf. by intros [= -> -> -> ->].
Qed.

Lemma configHash_fingerprinted l l' :
  fingerprinted <$> l = fingerprinted <$> l' -> configHash l = configHash l'.
Proof.
  intros Heq. unfold configHash. f_equal.
  revert l' Heq. induction l as [|s l IH]; intros [|s' l']; try done.
  rewrite !fmap_cons. intros Heq.
  assert (fingerprinted s = fingerprinted s') as Hs by congruence.
  assert (fingerprinted <$> l = fingerprinted <$> l') as Hl by congruence.
  cbn [map]. f_equal; [|by apply IH]. by apply fingerprintOf_fingerprinted.
Qed.

(** When the [try] block of a load returns, the recorded fingerprint is the
    one of the configured process-transport servers, unless there are none
    or they are not permitted. *)
Lemma loaded_fingerprint w servers store host r store1 host1 :
  loadMCPTools_try w servers (store, host) = (Return r, (store1, host1)) ->
  stdioServersOf servers = [] \/ isServerless w = true
  \/ currentServerConfigs store1 = configHash (stdioServersOf servers).
Proof.
  intros Hrun.
  destruct (loadMCPTools_try_spec w servers store host)
    as (r1 & store0 & host0 & Hstdio
        & [(Hfail & Htry)|(acc & result & store2 & host2 & -> & _ & Hhttp & Htry)]);
    rewrite Htry in Hrun; [injection Hrun as -> _ _; destruct Hfail|].
  injection Hrun as <- <- _. destruct Hhttp as [_ Hf _ _ _ _ _]. rewrite Hf.
  destruct (loadStdio_spec w (stdioServersOf servers) ∅ store host)
    as (r1 & store0' & host0' & Hrun1 & _ & _ & _ & Hcase).
  rewrite Hstdio in Hrun1. injection Hrun1 as <- <- <-.
  destruct Hcase
    as [([?|?] & _)
       |[(_ & _ & ? & _ & -> & _)
        |(_ & _ & _ & manager' & _ & _ & _ & [(_ & ? & _)|([] & _)])]];
    auto.
Qed.

(** C4, as the code has it.  After a load whose [try] block returned and
    that left a session registered for every HTTP server with a url, a second
    load of the same list in the same kind of deployment changes nothing in
    the module and reaches nothing outside it: no [kill], no [spawn], no
    write, no [fetch], no new object.  The fingerprint reads only name,
    command, args and env of a server. *)
Theorem reload_is_idle :
  forall w1 w2 servers store host r1 store1 host1,
    loadMCPTools_try w1 servers (store, host) = (Return r1, (store1, host1)) ->
    isServerless w2 = isServerless w1 ->
    (forall server,
        server ∈ httpServersOf servers ->
        truthy (MCPServerConfig.url server) = true ->
        JsMap.has (MCPServerConfig.name server) (globalHTTPClients store1) = true) ->
    (exists r2 host2,
        loadMCPTools w2 servers (store1, host1) = (Return r2, (store1, host2))
        /\ io host2 = io host1
        /\ next_oid host2 = next_oid host1
        /\ next_pid host2 = next_pid host1)
    /\ forall servers',
         fingerprinted <$> stdioServersOf servers'
         = fingerprinted <$> stdioServersOf servers ->
         configHash (stdioServersOf servers')
         = configHash (stdioServersOf servers).
Proof.
  intros w1 w2 servers store host r1 store1 host1 Hfirst Hsl Hreg.
  split; [|intros servers'; apply configHash_fingerprinted].
  pose proof (loaded_fingerprint _ _ _ _ _ _ _ Hfirst) as Hfp.
  unfold loadMCPTools, tryCatch.
  destruct (loadMCPTools_try_spec w2 servers store1 host1)
    as (ra & storea & hosta & Hstdio
        & [(Hfail & _)|(acc & result & store2 & host2 & -> & _ & Hhttp & ->)]).
  - (* the block for the process transport cannot fail: it does not restart *)
    destruct (loadStdio_spec w2 (stdioServersOf servers) ∅ store1 host1)
      as (r & s' & h' & Hrun & _ & _ & _ & Hcase).
    rewrite Hstdio in Hrun. injection Hrun as <- <- <-.
    destruct Hcase
      as [(_ & -> & _)
         |[(_ & _ & _ & -> & _)|(Hne & Hsl2 & Hdiff & _)]];
      [destruct Hfail..|].
    rewrite Hsl in Hsl2. destruct Hfp as [?|[?|?]]; congruence.
  - destruct (loadStdio_spec w2 (stdioServersOf servers) ∅ store1 host1)
      as (r & s' & h' & Hrun & _ & _ & _ & Hcase).
    rewrite Hstdio in Hrun. injection Hrun as <- <- <-.
    assert (storea = store1 /\ io hosta = io host1
            /\ next_oid hosta = next_oid host1
            /\ next_pid hosta = next_pid host1) as (-> & Hio & Ho & Hp).
    { destruct Hcase
        as [(_ & _ & -> & ? & ? & ?)
           |[(_ & _ & _ & _ & -> & ->)|(Hne & Hsl2 & Hdiff & _)]]; try done.
      rewrite Hsl in Hsl2. destruct Hfp as [?|[?|?]]; congruence. }
    destruct Hhttp as [_ _ _ _ _ _ Hidle].
    destruct (Hidle Hreg) as (-> & Hio2 & Ho2 & Hp2).
    eexists _, _. split; [reflexivity|]. cbn [io next_oid next_pid logger].
    repeat split; congruence.
Qed.

Lemma reload_is_idle_witness :
  exists r2 host2,
    loadMCPTools exampleWorld exampleServers
      (fst (snd exampleLoaded), snd (snd exampleLoaded))
    = (Return r2, (fst (snd exampleLoaded), host2))
    /\ io host2 = io (snd (snd exampleLoaded)).
Proof.
  destruct (proj1 (reload_is_idle exampleWorld exampleWorld exampleServers
                     initialStore initialHost
                     (match fst exampleLoaded with Return r => r | _ => ∅ end)
                     (fst (snd exampleLoaded)) (snd (snd exampleLoaded))
                     exampleLoaded_run eq_refl
                     ltac:(intros server Hin Hurl; vm_compute in Hin;
                           apply list_elem_of_singleton in Hin; subst server;
                           vm_compute; reflexivity)))
    as (r2 & host2 & Hrun & Hio & _).
  exists r2, host2. by split.
Defined.

(** The claim as the specification words it fails when a session could not
    be started by the first load: the second load tries again.  Here
    [remote] is unreachable; the second load makes a new client and sends
    the handshake once more. *)
Lemma reload_starts_failed_session :
  ~ (forall w servers,
        io (snd (snd (loadMCPTools w servers
                        (snd (loadMCPTools w servers (initialStore, initialHost))))))
        = io (snd (snd (loadMCPTools w servers (initialStore, initialHost))))).
Proof.
  intros H.
  specialize (H offlineWorld [httpServer "remote" (Some "https://remote.example")]).
  vm_compute in H. discriminate H.
Qed.

(** ** The fingerprint tells commands apart *)

Lemma string_app_nil_r (a : string) : a +:+ EmptyString = a.
Proof.
  induction a as [|x a IH]; [done|].
  change (String x (a +:+ EmptyString) = String x a). by f_equal.
Qed.



Lemma join_members x fields :
  JSON.join ","
    (x :: omap (fun '(k, v) => (fun v : string => JSON.quote k +:+ ":" +:+ v) <$> v)
            fields)
  = x +:+ JSON.members fields.
Proof.
  revert x. induction fields as [|[k' [v'|]] fields IH]; intros x.
  - cbn. by rewrite string_app_nil_r.
  - cbn [omap list_omap fmap option_fmap option_map].
    change (JSON.join "," (x :: ?y :: ?l))
      with (x +:+ "," +:+ JSON.join "," (y :: l)).
    rewrite IH. cbn [JSON.members]. by rewrite !string_app_assoc.
  - cbn [omap list_omap fmap option_fmap option_map]. apply IH.
Qed.

Lemma object_first k v fields :
  JSON.object ((k, Some v) :: fields)
  = "{" +:+ JSON.quote k +:+ ":" +:+ v +:+ JSON.members fields +:+ "}".
Proof.
  unfold JSON.object. cbn [omap list_omap fmap option_fmap option_map].
  rewrite join_members. by rewrite !string_app_assoc.
Qed.



(** ** A changed command *)





(** ** Servers without a command or a URL *)






(** ** Framing of the child's output *)

Lemma splitOn_nonempty sep s : splitOn sep s <> [].
Proof.
  destruct s as [|c s]; [done|]. cbn [splitOn].
  destruct (Ascii.eqb c sep); [done|]. by destruct (splitOn sep s).
Qed.

Lemma splitOn_app sep x y :
  splitOn sep (x +:+ y)
  = List.removelast (splitOn sep x)
    ++ splitOn sep (List.last (splitOn sep x) EmptyString +:+ y).
Proof.
  induction x as [|c x IH]; [done|].
  change (String c x +:+ y) with (String c (x +:+ y)). cbn [splitOn].
  pose proof (splitOn_nonempty sep x) as Hne.
  destruct (Ascii.eqb c sep) eqn:Hc.
  - rewrite IH. destruct (splitOn sep x) as [|p ps]; done.
  - rewrite IH. destruct (splitOn sep x) as [|p [|p' ps]]; [done| |done].
    cbn [List.removelast List.last app].
    change (String c p +:+ y) with (String c (p +:+ y)). cbn [splitOn].
    by rewrite Hc.
Qed.

Lemma splitOn_pieces sep s :
  Forall (fun piece => contains sep piece = false) (splitOn sep s).
Proof.
  induction s as [|c s IH]; [by repeat constructor|]. cbn [splitOn].
  destruct (Ascii.eqb c sep) eqn:Hc; [by constructor|].
  destruct (splitOn sep s) as [|p ps]; [repeat constructor; cbn; by rewrite Hc|].
  apply Forall_cons in IH as [Hp Hps]. constructor; [|done].
  cbn. by rewrite Hc.
Qed.

Lemma splitOn_whole sep s : contains sep s = false -> splitOn sep s = [s].
Proof.
  induction s as [|c s IH]; [done|]. cbn.
  intros [Hc Hs]%orb_false_elim. by rewrite Hc, IH.
Qed.

Lemma splitOn_line sep line rest :
  contains sep line = false ->
  splitOn sep (line +:+ String sep rest) = line :: splitOn sep rest.
Proof.
  induction line as [|c line IH]; intros Hline.
  - change (EmptyString +:+ String sep rest) with (String sep rest).
    cbn [splitOn]. by rewrite Ascii.eqb_refl.
  - cbn in Hline. apply orb_false_elim in Hline as [Hc Hline].
    change (String c line +:+ String sep rest)
      with (String c (line +:+ String sep rest)).
    cbn [splitOn]. by rewrite Hc, IH.
Qed.

Lemma splitOn_frame lines tail :
  Forall (fun line => contains newline line = false) lines ->
  contains newline tail = false ->
  splitOn newline (frame lines tail) = lines ++ [tail].
Proof.
  intros Hlines Htail. induction Hlines as [|line lines Hline _ IH].
  - by apply splitOn_whole.
  - change (frame (line :: lines) tail)
      with (line +:+ String newline (frame lines tail)).
    rewrite splitOn_line by done. by rewrite IH.
Qed.

Lemma set_buffer_set_buffer v w c :
  MCPClient.set_buffer v (MCPClient.set_buffer w c) = MCPClient.set_buffer v c.
Proof. done. Qed.

Lemma set_buffer_same c : MCPClient.set_buffer (MCPClient.buffer c) c = c.
Proof. by destruct c. Qed.

Lemma handleMessage_set_buffer message v c h :
  MCPClient.handleMessage message (MCPClient.set_buffer v c, h)
  = (MCPClient.set_buffer v (fst (MCPClient.handleMessage message (c, h))),
     snd (MCPClient.handleMessage message (c, h))).
Proof.
  unfold MCPClient.handleMessage, MCPClient.settle. cbn.
  repeat case_match; reflexivity.
Qed.

Lemma handleLine_set_buffer reader line v c h :
  MCPClient.handleLine reader line (MCPClient.set_buffer v c, h)
  = (MCPClient.set_buffer v (fst (MCPClient.handleLine reader line (c, h))),
     snd (MCPClient.handleLine reader line (c, h))).
Proof.
  unfold MCPClient.handleLine. destruct (blank reader line); [done|].
  destruct (parse reader line); [done|]. apply handleMessage_set_buffer.
Qed.

Lemma handleLines_set_buffer reader lines :
  forall v c h,
    foldl (fun s line => MCPClient.handleLine reader line s)
          (MCPClient.set_buffer v c, h) lines
    = (MCPClient.set_buffer v
         (fst (foldl (fun s line => MCPClient.handleLine reader line s)
                     (c, h) lines)),
       snd (foldl (fun s line => MCPClient.handleLine reader line s)
                  (c, h) lines)).
Proof.
  induction lines as [|line lines IH]; intros v c h; [done|].
  cbn [foldl]. rewrite handleLine_set_buffer.
  destruct (MCPClient.handleLine reader line (c, h)) as [c1 h1]. apply IH.
Qed.

Lemma handleData_unfold reader data c h :
  MCPClient.handleData reader data (c, h)
  = let lines := splitOn newline (MCPClient.buffer c +:+ data) in
    (MCPClient.set_buffer (List.last lines EmptyString)
       (fst (foldl (fun s line => MCPClient.handleLine reader line s)
                   (c, h) (List.removelast lines))),
     snd (foldl (fun s line => MCPClient.handleLine reader line s)
                (c, h) (List.removelast lines))).
Proof.
  unfold MCPClient.handleData. cbn [MCPClient.buffer MCPClient.set_buffer].
  cbn zeta. rewrite set_buffer_set_buffer. apply handleLines_set_buffer.
Qed.

Lemma last_app_nonempty {A} (l1 l2 : list A) d :
  l2 <> [] -> List.last (l1 ++ l2) d = List.last l2 d.
Proof.
  intros Hne. induction l1 as [|x l1 IH]; [done|].
  cbn [app]. rewrite <- IH. cbn. destruct (l1 ++ l2) eqn:Heq; [|done].
  by apply app_eq_nil in Heq as [_ ?].
Qed.

Lemma removelast_app_nonempty {A} (l1 l2 : list A) :
  l2 <> [] -> List.removelast (l1 ++ l2) = l1 ++ List.removelast l2.
Proof. intros Hne. by apply List.removelast_app. Qed.

(** Text handled in two pieces is handled as in one. *)
Lemma handleData_app reader a b s :
  MCPClient.handleData reader (a +:+ b) s
  = MCPClient.handleData reader b (MCPClient.handleData reader a s).
Proof.
  destruct s as [c h]. rewrite (handleData_unfold reader a).
  cbn zeta. rewrite !handleData_unfold. cbn zeta.
  cbn [MCPClient.buffer MCPClient.set_buffer].
  rewrite <- string_app_assoc, splitOn_app.
  pose proof (splitOn_nonempty newline
                (List.last (splitOn newline (MCPClient.buffer c +:+ a)) EmptyString
                 +:+ b)) as Hne.
  rewrite last_app_nonempty, removelast_app_nonempty by done.
  rewrite foldl_app.
  destruct (foldl (fun s line => MCPClient.handleLine reader line s) (c, h)
              (List.removelast (splitOn newline (MCPClient.buffer c +:+ a))))
    as [c1 h1].
  cbn [fst snd]. rewrite handleLines_set_buffer. cbn [fst snd].
  by rewrite set_buffer_set_buffer.
Qed.

(** [handleData] decodes every chunk by itself, with [data.toString()].
    Output that arrives in two chunks is handled as if it had arrived in
    one when the two chunks decode to the text that they decode to together,
    that is, when the cut does not fall inside a character of several
    bytes. *)
Theorem handleData_chunks :
  forall (toString : list Byte.byte -> string) reader x y s,
    toString (x ++ y) = toString x +:+ toString y ->
    MCPClient.handleData reader (toString (x ++ y)) s
    = MCPClient.handleData reader (toString y)
        (MCPClient.handleData reader (toString x) s).
Proof.
  intros toString reader x y s ->. apply handleData_app.
Qed.

Lemma handleData_chunks_witness :
  MCPClient.handleData exampleReader
    (string_of_list_byte (list_byte_of_string "{}" ++ list_byte_of_string "{}"))
    (MCPClient.new 0 fsConfig, initialHost)
  = MCPClient.handleData exampleReader
      (string_of_list_byte (list_byte_of_string "{}"))
      (MCPClient.handleData exampleReader
         (string_of_list_byte (list_byte_of_string "{}"))
         (MCPClient.new 0 fsConfig, initialHost)).
Proof.
  apply (handleData_chunks string_of_list_byte exampleReader
           (list_byte_of_string "{}") (list_byte_of_string "{}")
           (MCPClient.new 0 fsConfig, initialHost)).
  reflexivity.
Defined.

Lemma last_snoc {A} (l : list A) x d : List.last (l ++ [x]) d = x.
Proof. by rewrite last_app_nonempty. Qed.

Lemma removelast_snoc {A} (l : list A) x : List.removelast (l ++ [x]) = l.
Proof. rewrite removelast_app_nonempty by done. cbn. by rewrite app_nil_r. Qed.

Lemma Forall_last {A} (P : A -> Prop) (l : list A) d :
  Forall P l -> P d -> P (List.last l d).
Proof.
  intros Hl Hd. induction Hl as [|x l Hx Hl IH]; [done|].
  cbn. by destruct l.
Qed.

(** After [handleData] the buffer holds no newline, and data that brings no
    newline is only put into the buffer. *)
Theorem handleData_buffer :
  forall reader data c h,
    contains newline (MCPClient.buffer (fst (MCPClient.handleData reader data (c, h))))
    = false
    /\ (contains newline (MCPClient.buffer c +:+ data) = false ->
        MCPClient.handleData reader data (c, h)
        = (MCPClient.set_buffer (MCPClient.buffer c +:+ data) c, h)).
Proof.
  intros reader data c h. rewrite handleData_unfold. cbn zeta. split.
  - cbn [fst MCPClient.buffer MCPClient.set_buffer].
    apply (Forall_last (fun piece => contains newline piece = false));
      [apply splitOn_pieces | done].
  - intros Hno. rewrite (splitOn_whole _ _ Hno).
    by cbn [List.last List.removelast foldl fst snd].
Qed.

Lemma handleData_buffer_witness :
  MCPClient.handleData {| blank := fun _ => false; parse := fun _ => inl (Error "no") |}
    "{ partial" (MCPClient.new 0 fsConfig, initialHost)
  = (MCPClient.set_buffer "{ partial" (MCPClient.new 0 fsConfig), initialHost).
Proof.
  apply (proj2 (handleData_buffer
                  {| blank := fun _ => false; parse := fun _ => inl (Error "no") |}
                  "{ partial" (MCPClient.new 0 fsConfig) initialHost)).
  reflexivity.
Defined.

Lemma handleLines_messages reader lines ms :
  Forall2 (fun line message =>
             contains newline line = false
             /\ blank reader line = false
             /\ parse reader line = inr message) lines ms ->
  forall s,
    foldl (fun s line => MCPClient.handleLine reader line s) s lines
    = MCPClient.deliver (Stdout <$> ms) s.
Proof.
  induction 1 as [|line message lines ms (_ & Hb & Hp) _ IH]; intros s; [done|].
  rewrite fmap_cons. unfold MCPClient.deliver. cbn [foldl].
  unfold MCPClient.handleLine at 2. rewrite Hb, Hp. apply IH.
Qed.

(** Messages that a child writes one per line are handled in the order of
    the lines, each one by [handleMessage]; what follows the last newline
    waits in the buffer. *)
Theorem handleData_frames :
  forall reader lines ms tail data c h,
    Forall2 (fun line message =>
               contains newline line = false
               /\ blank reader line = false
               /\ parse reader line = inr message) lines ms ->
    contains newline tail = false ->
    MCPClient.buffer c +:+ data = frame lines tail ->
    MCPClient.handleData reader data (c, h)
    = (MCPClient.set_buffer tail
         (fst (MCPClient.deliver (Stdout <$> ms) (c, h))),
       snd (MCPClient.deliver (Stdout <$> ms) (c, h))).
Proof.
  intros reader lines ms tail data c h Hlines Htail Htext.
  rewrite handleData_unfold. cbn zeta. rewrite Htext, splitOn_frame; [|..|done].
  - rewrite last_snoc, removelast_snoc.
    by rewrite (handleLines_messages _ _ _ Hlines).
  - clear -Hlines. induction Hlines as [|? ? ? ? (? & _) _ IH]; by constructor.
Qed.

Lemma handleMessage_host message c h h' :
  fst (MCPClient.handleMessage message (c, h))
  = fst (MCPClient.handleMessage message (c, h')).
Proof. unfold MCPClient.handleMessage. by repeat case_match. Qed.

Lemma handleLine_host reader line c h h' :
  fst (MCPClient.handleLine reader line (c, h))
  = fst (MCPClient.handleLine reader line (c, h')).
Proof.
  unfold MCPClient.handleLine. destruct (blank reader line); [done|].
  destruct (parse reader line); [done|]. apply handleMessage_host.
Qed.

Lemma handleLines_host reader lines :
  forall c h h',
    fst (foldl (fun s line => MCPClient.handleLine reader line s) (c, h) lines)
    = fst (foldl (fun s line => MCPClient.handleLine reader line s) (c, h') lines).
Proof.
  induction lines as [|line lines IH]; intros c h h'; [done|].
  cbn [foldl]. pose proof (handleLine_host reader line c h h') as Heq.
  destruct (MCPClient.handleLine reader line (c, h)) as [c1 h1].
  destruct (MCPClient.handleLine reader line (c, h')) as [c1' h1'].
  cbn in Heq. subst c1'. apply IH.
Qed.

(** A blank line, and a line that does not parse, leave the session as if
    the line had not been written. *)
Theorem handleData_skips :
  forall reader l1 bad l2 tail c h,
    blank reader bad = true \/ (exists e, parse reader bad = inl e) ->
    Forall (fun line => contains newline line = false) (l1 ++ bad :: l2) ->
    contains newline tail = false ->
    MCPClient.buffer c = EmptyString ->
    fst (MCPClient.handleData reader (frame (l1 ++ bad :: l2) tail) (c, h))
    = fst (MCPClient.handleData reader (frame (l1 ++ l2) tail) (c, h)).
Proof.
  intros reader l1 bad l2 tail c h Hbad Hlines Htail Hbuf.
  rewrite !handleData_unfold. cbn zeta. rewrite Hbuf.
  change (EmptyString +:+ ?x) with x.
  rewrite !splitOn_frame; [|apply Forall_app in Hlines as [? [_ ?]%Forall_cons];
                            by apply Forall_app|done..].
  rewrite !last_snoc, !removelast_snoc. cbn [fst]. f_equal.
  rewrite !foldl_app. cbn [foldl].
  destruct (foldl (fun s line => MCPClient.handleLine reader line s) (c, h) l1)
    as [c1 h1].
  assert (exists h1', MCPClient.handleLine reader bad (c1, h1) = (c1, h1'))
    as [h1' ->].
  { unfold MCPClient.handleLine. destruct Hbad as [->|[e He]]; [eauto|].
    destruct (blank reader bad); [eauto|]. rewrite He. eauto. }
  apply handleLines_host.
Qed.

Lemma handleData_frames_witness :
  MCPClient.handleData exampleReader (frame ["{}"; "{}"] "{ part")
    (MCPClient.new 0 fsConfig, initialHost)
  = (MCPClient.set_buffer "{ part" (MCPClient.new 0 fsConfig), initialHost).
Proof.
  apply (handleData_frames exampleReader ["{}"; "{}"]
           [{| id := None; method := None; params := None;
               result := None; error := None |};
            {| id := None; method := None; params := None;
               result := None; error := None |}]
           "{ part" (frame ["{}"; "{}"] "{ part")
           (MCPClient.new 0 fsConfig) initialHost).
  - repeat constructor.
  - reflexivity.
  - reflexivity.
Defined.

Lemma handleData_skips_witness :
  fst (MCPClient.handleData exampleReader (frame (["{}"] ++ "oops" :: ["{}"]) " ")
         (MCPClient.new 0 fsConfig, initialHost))
  = fst (MCPClient.handleData exampleReader (frame (["{}"] ++ ["{}"]) " ")
           (MCPClient.new 0 fsConfig, initialHost)).
Proof.
  apply (handleData_skips exampleReader ["{}"] "oops" ["{}"] " "
           (MCPClient.new 0 fsConfig) initialHost).
  - right. exists (Error "Unexpected token"). reflexivity.
  - repeat constructor.
  - reflexivity.
  - reflexivity.
Defined.

(** ** What a suspended caller's instance goes through *)

Lemma deliver_passive outputs :
  forall c h,
    let s' := MCPClient.deliver outputs (c, h) in
    io (snd s') = io h
    /\ next_oid (snd s') = next_oid h /\ next_pid (snd s') = next_pid h
    /\ MCPClient.messageId (fst s') = MCPClient.messageId c
    /\ MCPClient.tools (fst s') = MCPClient.tools c
    /\ MCPClient.config (fst s') = MCPClient.config c
    /\ MCPClient.oid (fst s') = MCPClient.oid c
    /\ (MCPClient.process (fst s') = MCPClient.process c
        \/ MCPClient.process (fst s') = None).
Proof.
  induction outputs as [|o outputs IH]; intros c h; [cbn; tauto|].
  cbn zeta.
  destruct o as [message|code signal|e]; cbn [MCPClient.deliver];
    [| |cbn; tauto].
  - destruct (MCPClient.handleMessage message (c, h)) as [c1 h1] eqn:Hm.
    pose proof (io_handleMessage message c h) as Hio.
    destruct (handleMessage_fields message c h)
      as (Hoid & Hcfg & Hproc & Hid & Ht & _).
    rewrite Hm in *. cbn [fst snd] in *.
    assert (next_oid h1 = next_oid h /\ next_pid h1 = next_pid h) as [Ho Hp].
    { revert Hm. unfold MCPClient.handleMessage.
      repeat case_match; by intros [= <- <-]. }
    destruct (IH c1 h1) as (-> & -> & -> & -> & -> & -> & -> & Hproc').
    rewrite Hproc in Hproc'. by repeat split.
  - destruct (IH (MCPClient.set_process None c)
                (logger LogInfo
                   ("MCP server " +:+ MCPClient.name (MCPClient.config c)
                    +:+ " exited with code " +:+ orNull (pretty <$> code)
                    +:+ " and signal " +:+ orNull signal) h))
      as (Hio & Ho & Hp & Hid & Ht & Hcfg & Hoid & Hproc').
    unfold MCPClient.onExit. rewrite Hio, Ho, Hp, Hid, Ht, Hcfg, Hoid.
    repeat split; try done. destruct Hproc' as [-> | ->]; auto.
Qed.

Lemma await_passive outputs promise c h :
  let r := MCPClient.await outputs promise (c, h) in
  io (snd (snd r)) = io h
  /\ next_oid (snd (snd r)) = next_oid h /\ next_pid (snd (snd r)) = next_pid h
  /\ MCPClient.messageId (fst (snd r)) = MCPClient.messageId c
  /\ MCPClient.tools (fst (snd r)) = MCPClient.tools c
  /\ MCPClient.config (fst (snd r)) = MCPClient.config c
  /\ MCPClient.oid (fst (snd r)) = MCPClient.oid c
  /\ (MCPClient.process (fst (snd r)) = MCPClient.process c
      \/ MCPClient.process (fst (snd r)) = None).
Proof.
  cbn zeta. unfold MCPClient.await.
  destruct (deliver_passive outputs c h)
    as (Hio & Ho & Hp & Hid & Ht & Hcfg & Hoid & Hproc).
  destruct (MCPClient.deliver outputs (c, h)) as [c1 h1]. cbn [fst snd] in *.
  destruct (MCPClient.died outputs); [by repeat split|].
  set (c2 := match MCPClient.settlement promise c1 with
             | Some _ => c1
             | None => MCPClient.elapse MCPClient.requestTimeout c1
             end).
  assert (MCPClient.messageId c2 = MCPClient.messageId c1
          /\ MCPClient.tools c2 = MCPClient.tools c1
          /\ MCPClient.config c2 = MCPClient.config c1
          /\ MCPClient.oid c2 = MCPClient.oid c1
          /\ MCPClient.process c2 = MCPClient.process c1)
    as (Hid2 & Ht2 & Hcfg2 & Hoid2 & Hproc2).
  { subst c2. destruct (MCPClient.settlement promise c1); [done|].
    by destruct (elapse_fields MCPClient.requestTimeout c1)
      as (-> & -> & -> & -> & -> & _). }
  assert (snd (match MCPClient.settlement promise c2 with
               | Some (MCPClient.Resolved v) => (Return v, (c2, h1))
               | Some (MCPClient.Rejected e) => (Throw e, (c2, h1))
               | None => (Hang, (c2, h1))
               end) = (c2, h1)) as ->.
  { by destruct (MCPClient.settlement promise c2) as [[]|]. }
  cbn [fst snd]. rewrite Hid2, Ht2, Hcfg2, Hoid2, Hproc2. by repeat split.
Qed.

Lemma writable_process c c' :
  MCPClient.process c' = MCPClient.process c \/ MCPClient.process c' = None ->
  MCPClient.writable c' = MCPClient.writable c \/ MCPClient.writable c' = None.
Proof. unfold MCPClient.writable. intros [-> | ->]; auto. Qed.

(** [await this.sendRequest(...)]: nothing is written when the child is
    gone, one line otherwise. *)
Lemma awaitRequest_trace child m p c h :
  let r := MCPClient.awaitRequest child m p (c, h) in
  (MCPClient.writable c = None
   /\ r = (Throw (MCPClient.notRunning c), (c, h)))
  \/ (exists pid,
         MCPClient.writable c = Some pid
         /\ io (snd (snd r))
            = io h ++ [StdinWrite pid
                         (requestMessage (MCPClient.messageId c + 1) m p)]
         /\ next_oid (snd (snd r)) = next_oid h
         /\ next_pid (snd (snd r)) = next_pid h
         /\ MCPClient.messageId (fst (snd r)) = MCPClient.messageId c + 1
         /\ MCPClient.tools (fst (snd r)) = MCPClient.tools c
         /\ MCPClient.config (fst (snd r)) = MCPClient.config c
         /\ MCPClient.oid (fst (snd r)) = MCPClient.oid c
         /\ (MCPClient.writable (fst (snd r)) = Some pid
             \/ MCPClient.writable (fst (snd r)) = None)).
Proof.
  cbn zeta. unfold MCPClient.awaitRequest, bind.
  send_cases m p c h; [|by left]. right. exists child0. split; [done|].
  match goal with |- context [MCPClient.await ?outs ?pr (c', ?h1)] =>
    destruct (await_passive outs pr c' h1)
      as (-> & -> & -> & -> & -> & -> & -> & Hproc)
  end.
  split; [done|]. split; [done|]. split; [done|]. split; [done|].
  split; [done|]. split; [done|]. split; [done|].
  unfold MCPClient.writable in Hw |- *.
  destruct Hproc as [Hp|Hp]; rewrite Hp; [left|by right].
  by rewrite Hsent_process.
Qed.

(** The lines [initialize] writes when it returns. *)
Lemma initialize_trace child c h c' h' :
  MCPClient.initialize child (c, h) = (Return tt, (c', h')) ->
  exists pid,
    MCPClient.writable c = Some pid
    /\ MCPClient.writable c' = Some pid
    /\ io h'
       = io h ++ [StdinWrite pid
                    (requestMessage (MCPClient.messageId c + 1) "initialize"
                       initializeParams);
                  StdinWrite pid
                    (notificationMessage "notifications/initialized" (JObject []))]
    /\ next_oid h' = next_oid h /\ next_pid h' = next_pid h
    /\ MCPClient.messageId c' = MCPClient.messageId c + 1
    /\ MCPClient.tools c' = MCPClient.tools c
    /\ MCPClient.config c' = MCPClient.config c
    /\ MCPClient.oid c' = MCPClient.oid c.
Proof.
  unfold MCPClient.initialize. unfold bind at 1.
  destruct (awaitRequest_trace child "initialize" initializeParams c h)
    as [[_ ->]|(pid & Hw & Hio & Ho & Hp & Hid & Ht & Hcfg & Hoid & Hw')];
    [done|].
  destruct (MCPClient.awaitRequest child "initialize" initializeParams (c, h))
    as [[response|e|] [c1 h1]]; [|done..].
  cbn [fst snd] in *. unfold bind, MCPClient.info, modify.
  unfold MCPClient.sendNotification.
  destruct Hw' as [Hw'|Hw']; rewrite Hw'; [|done].
  intros [= <- <-]. exists pid. cbn [io emit logger next_oid next_pid].
  rewrite Hio, <- app_assoc. by repeat split.
Qed.

(** The line [fetchTools] writes when it returns. *)
Lemma fetchTools_trace child c h c' h' :
  MCPClient.fetchTools child (c, h) = (Return tt, (c', h')) ->
  exists pid,
    MCPClient.writable c = Some pid
    /\ io h'
       = io h ++ [StdinWrite pid
                    (requestMessage (MCPClient.messageId c + 1) "tools/list"
                       (JObject []))]
    /\ next_oid h' = next_oid h /\ next_pid h' = next_pid h
    /\ MCPClient.messageId c' = MCPClient.messageId c + 1
    /\ MCPClient.config c' = MCPClient.config c
    /\ MCPClient.oid c' = MCPClient.oid c.
Proof.
  unfold MCPClient.fetchTools. unfold bind at 1.
  destruct (awaitRequest_trace child "tools/list" (JObject []) c h)
    as [[_ ->]|(pid & Hw & Hio & Ho & Hp & Hid & Ht & Hcfg & Hoid & Hw')];
    [done|].
  destruct (MCPClient.awaitRequest child "tools/list" (JObject []) (c, h))
    as [[response|e|] [c1 h1]]; [|done..].
  cbn [fst snd] in *. intros Hrun. exists pid. split; [done|].
  assert (io h' = io h1 /\ next_oid h' = next_oid h1 /\ next_pid h' = next_pid h1
          /\ MCPClient.messageId c' = MCPClient.messageId c1
          /\ MCPClient.config c' = MCPClient.config c1
          /\ MCPClient.oid c' = MCPClient.oid c1) as (-> & -> & -> & -> & -> & ->).
  { revert Hrun. destruct response as [r|]; [|by intros [= <- <-]].
    destruct (result_tools r) as [ts|]; [|by intros [= <- <-]].
    unfold bind, modify, MCPClient.info, modify. by intros [= <- <-]. }
  by repeat split.
Qed.

(** The handshake of the process transport, as the child sees it. *)
Theorem start_handshake :
  forall env child c host c' host',
    MCPClient.process c = None ->
    MCPClient.start env child (c, host) = (Return tt, (c', host')) ->
    io host'
    = io host
      ++ [Spawn (next_pid host) (MCPClient.command (MCPClient.config c))
            (MCPClient.args (MCPClient.config c))
            (spread env (default [] (MCPClient.env (MCPClient.config c))));
          StdinWrite (next_pid host)
            (requestMessage (MCPClient.messageId c + 1) "initialize"
               initializeParams);
          StdinWrite (next_pid host)
            (notificationMessage "notifications/initialized" (JObject []));
          StdinWrite (next_pid host)
            (requestMessage (MCPClient.messageId c + 2) "tools/list" (JObject []))]
    /\ MCPClient.messageId c' = MCPClient.messageId c + 2
    /\ next_pid host' = S (next_pid host).
Proof.
  intros env child c host c' host' Hproc. unfold MCPClient.start. rewrite Hproc.
  unfold bind at 1.
  destruct (MCPClient.initialize child (MCPClient.spawn env (c, host)))
    as [[[]|e|] [c1 h1]] eqn:Hinit; [|done..].
  intros Hfetch. unfold MCPClient.spawn in Hinit.
  apply initialize_trace in Hinit
    as (pid & Hw & Hw1 & Hio1 & Ho1 & Hp1 & Hid1 & _ & _ & _).
  apply fetchTools_trace in Hfetch
    as (pid' & Hw2 & Hio2 & Ho2 & Hp2 & Hid2 & _ & _).
  cbn in Hw. injection Hw as <-.
  rewrite Hw1 in Hw2. injection Hw2 as <-.
  cbn in Hio1, Hp1, Hid1. rewrite Hio2, Hio1, Hid2, Hid1, Hp2, Hp1.
  replace (MCPClient.messageId c + 1 + 1) with (MCPClient.messageId c + 2) by lia.
  by rewrite <- !app_assoc.
Qed.

Lemma Spares_refl h : Spares h h.
Proof. exists []. by rewrite app_nil_r. Qed.

Lemma Spares_trans h1 h2 h3 : Spares h1 h2 -> Spares h2 h3 -> Spares h1 h3.
Proof.
  intros (r1 & H1 & F1) (r2 & H2 & F2). exists (r1 ++ r2).
  rewrite H2, H1, app_assoc. split; [done|]. by apply Forall_app.
Qed.

Lemma Spares_io h h' : io h' = io h -> Spares h h'.
Proof. intros Hio. exists []. by rewrite app_nil_r. Qed.

Lemma awaitRequest_spares child m p c h :
  Spares h (snd (snd (MCPClient.awaitRequest child m p (c, h)))).
Proof.
  destruct (awaitRequest_trace child m p c h)
    as [[_ ->]|(pid & _ & Hio & _)]; [apply Spares_refl|].
  eexists. split; [exact Hio|]. by repeat constructor.
Qed.

Lemma initialize_spares child c h :
  Spares h (snd (snd (MCPClient.initialize child (c, h)))).
Proof.
  unfold MCPClient.initialize. unfold bind at 1.
  pose proof (awaitRequest_spares child "initialize" initializeParams c h) as H1.
  destruct (MCPClient.awaitRequest child "initialize" initializeParams (c, h))
    as [[response|e|] [c1 h1]]; [|done..].
  cbn [fst snd] in *. eapply Spares_trans; [exact H1|].
  unfold bind, MCPClient.info, modify, MCPClient.sendNotification.
  destruct (MCPClient.writable c1); cbn [fst snd].
  - eexists [_]. split; [reflexivity|]. by repeat constructor.
  - by apply Spares_io.
Qed.

Lemma fetchTools_spares child c h :
  Spares h (snd (snd (MCPClient.fetchTools child (c, h)))).
Proof.
  unfold MCPClient.fetchTools. unfold bind at 1.
  pose proof (awaitRequest_spares child "tools/list" (JObject []) c h) as H1.
  destruct (MCPClient.awaitRequest child "tools/list" (JObject []) (c, h))
    as [[response|e|] [c1 h1]]; [|done..].
  cbn [fst snd] in *. eapply Spares_trans; [exact H1|].
  destruct response as [r|]; [|apply Spares_refl].
  destruct (result_tools r); [|apply Spares_refl]. by apply Spares_io.
Qed.

(** [start()] spawns the child and then only writes to it. *)
Lemma start_spares env child c h :
  MCPClient.process c = None ->
  exists rest,
    io (snd (snd (MCPClient.start env child (c, h))))
    = io h
      ++ Spawn (next_pid h) (MCPClient.command (MCPClient.config c))
           (MCPClient.args (MCPClient.config c))
           (spread env (default [] (MCPClient.env (MCPClient.config c))))
         :: rest
    /\ Forall (fun e => isKill e = false) rest.
Proof.
  intros Hproc. unfold MCPClient.start. rewrite Hproc. unfold bind.
  assert (io (snd (MCPClient.spawn env (c, h)))
          = io h ++ [Spawn (next_pid h) (MCPClient.command (MCPClient.config c))
                       (MCPClient.args (MCPClient.config c))
                       (spread env
                          (default [] (MCPClient.env (MCPClient.config c))))])
    as Hio0 by done.
  destruct (MCPClient.spawn env (c, h)) as [c0 h0]. cbn [snd] in Hio0.
  pose proof (initialize_spares child c0 h0) as H1.
  destruct (MCPClient.initialize child (c0, h0)) as [[[]|e|] [c1 h1]];
    cbn [fst snd] in *.
  - pose proof (fetchTools_spares child c1 h1) as H2.
    destruct (Spares_trans _ _ _ H1 H2) as (rest & -> & Hrest).
    exists rest. by rewrite Hio0, <- app_assoc.
  - destruct H1 as (rest & -> & Hrest). exists rest. by rewrite Hio0, <- app_assoc.
  - destruct H1 as (rest & -> & Hrest). exists rest. by rewrite Hio0, <- app_assoc.
Qed.

(** A server whose start fails is not registered, and the child that was
    spawned for it is not killed. *)
Theorem addServer_failure :
  forall env child cfg manager host e manager' host',
    MCPManager.addServer env child cfg (manager, host)
    = (Throw e, (manager', host')) ->
    manager' = manager
    /\ exists rest,
         io host'
         = io host
           ++ Spawn (next_pid host) (MCPClient.command cfg) (MCPClient.args cfg)
                (spread env (default [] (MCPClient.env cfg)))
              :: rest
         /\ Forall (fun e => isKill e = false) rest.
Proof.
  intros env child cfg manager host e manager' host'.
  unfold MCPManager.addServer.
  destruct (JsMap.has (MCPClient.name cfg) (MCPManager.clients manager)); [done|].
  cbn [allocOid].
  match goal with |- context [MCPClient.start env ?ch (?c0, ?h0)] =>
    destruct (start_spares env ch c0 h0 eq_refl) as (rest & Hio & Hrest);
    destruct (MCPClient.start env ch (c0, h0)) as [[[]|e'|] [c1 h1]]
  end; [done| |done].
  intros [= <- <- <-]. split; [done|]. exists rest. by split.
Qed.

(** ** A session whose child is gone *)

(** After the child has exited the session offers the tools it had, every
    call of one throws "not running" without writing anything, and [stop()]
    changes nothing. *)
Theorem exit_keeps_tools :
  forall code signal c h,
    MCPClient.getTools (fst (MCPClient.onExit code signal (c, h)))
    = MCPClient.getTools c
    /\ (forall child toolName args,
          exists h',
            MCPClient.callTool child toolName args
              (MCPClient.onExit code signal (c, h))
            = (Throw (MCPClient.notRunning c),
               (fst (MCPClient.onExit code signal (c, h)), h'))
            /\ io h' = io h)
    /\ MCPClient.stop (MCPClient.onExit code signal (c, h))
       = (Return tt, MCPClient.onExit code signal (c, h)).
Proof.
  intros code signal c h. split; [done|]. split; [|done].
  intros child toolName args. eexists. split; reflexivity.
Qed.

(** [stop()] on a session that has a child: the child is killed, the
    pending table and the tools are emptied, the ids go on from where they
    were; afterwards nothing can be sent and a second [stop()] does
    nothing. *)
Theorem stop_contract :
  forall c h p,
    MCPClient.process c = Some p ->
    exists c' h',
      MCPClient.stop (c, h) = (Return tt, (c', h'))
      /\ io h' = io h ++ [Kill (MCPClient.pid p)]
      /\ MCPClient.process c' = None
      /\ MCPClient.pendingRequests c' = []
      /\ MCPClient.getTools c' = ∅
      /\ MCPClient.messageId c' = MCPClient.messageId c
      /\ MCPClient.promises c' = MCPClient.promises c
      /\ (forall m params host,
            MCPClient.sendRequest m params (c', host)
            = (Throw (MCPClient.notRunning c), (c', host))
            /\ MCPClient.sendNotification m params (c', host)
               = (Throw (MCPClient.notRunning c), (c', host)))
      /\ (forall host, MCPClient.stop (c', host) = (Return tt, (c', host))).
Proof.
  intros c h p Hp. unfold MCPClient.stop at 1. rewrite Hp.
  eexists _, _. split; [reflexivity|]. by repeat split.
Qed.

Lemma stop_contract_witness :
  exists c' h',
    MCPClient.stop (spawned 0 fsConfig [] initialHost) = (Return tt, (c', h'))
    /\ io h' = io (snd (spawned 0 fsConfig [] initialHost)) ++ [Kill 0%nat].
Proof.
  destruct (stop_contract (fst (spawned 0 fsConfig [] initialHost))
              (snd (spawned 0 fsConfig [] initialHost))
              {| MCPClient.pid := 0; MCPClient.stdin := true |} eq_refl)
    as (c' & h' & Hrun & Hio & _).
  by exists c', h'.
Defined.

(** ** Calling a tool *)

(** A request that [stop()] took out of the pending table is never
    settled: a reply finds no entry, and neither does the timer. *)
Lemma runCallbacks_abandoned p ready :
  forall c,
    (forall tm, tm ∈ ready ->
       MCPClient.timer_id tm = Z.of_nat (MCPClient.timer_promise tm) + 1) ->
    MCPClient.settlement p c = None ->
    JsMap.has (IdNum (Z.of_nat p + 1)) (MCPClient.pendingRequests c) = false ->
    MCPClient.settlement p (MCPClient.runCallbacks ready c) = None.
Proof.
  induction ready as [|tm ready IH]; intros c Hids Hs Hgone; [done|].
  change (MCPClient.runCallbacks (tm :: ready) c)
    with (MCPClient.runCallbacks ready (MCPClient.timeoutCallback tm c)).
  apply IH.
  - intros tm' Hin. apply Hids. by right.
  - destruct (decide (MCPClient.timer_promise tm = p)) as [Hp|Hp].
    + unfold MCPClient.timeoutCallback.
      rewrite (Hids tm) by left. by rewrite Hp, Hgone.
    + by rewrite timeoutCallback_settlement_ne.
  - rewrite timeoutCallback_pending. apply has_false_get.
    destruct (decide (IdNum (Z.of_nat p + 1) = IdNum (MCPClient.timer_id tm)))
      as [->|Hne].
    + apply get_delete_eq.
    + rewrite get_delete_ne by done. by apply has_false_get.
Qed.

Lemma abandoned_step p c h e :
  Consistent c ->
  MCPClient.settlement p c = None -> Gone (Z.of_nat p + 1) c ->
  MCPClient.settlement p (fst (step (c, h) e)) = None.
Proof.
  intros Hc Hs [Hgone Hold].
  destruct e as [m q|m q| |message|code signal|ms]; cbn [step fst snd].
  - send_cases m q c h; [|done]. unfold MCPClient.settlement in *.
    by rewrite Hsent_promises.
  - unfold MCPClient.sendNotification. by destruct (MCPClient.writable c).
  - unfold MCPClient.stop. by destruct (MCPClient.process c).
  - destruct (id message) as [i|] eqn:Hi.
    + destruct (JsMap.get i (MCPClient.pendingRequests c)) as [q|] eqn:Hq.
      * rewrite (handleMessage_matched _ _ _ _ _ Hi Hq).
        rewrite settlement_settle_ne; [done|]. intros ->.
        destruct (pending_tracked c Hc i q (get_Some_elem _ _ _ Hq)) as (-> & _).
        apply has_false_get in Hgone. congruence.
      * rewrite handleMessage_unmatched; [done|].
        intros i' Hi'. rewrite Hi in Hi'. injection Hi' as <-.
        by apply has_false_get.
    + rewrite handleMessage_unmatched; [done|]. intros i' Hi'. congruence.
  - done.
  - unfold MCPClient.elapse. apply runCallbacks_abandoned; [|done|done].
    intros tm [Hin _]%elem_of_List_filter.
    by destruct (timers_tracked c Hc tm Hin).
Qed.

Lemma abandoned_runEvents p evs :
  forall c h,
    Consistent c ->
    MCPClient.settlement p c = None -> Gone (Z.of_nat p + 1) c ->
    MCPClient.settlement p (fst (runEvents (c, h) evs)) = None.
Proof.
  induction evs as [|e evs IH]; intros c h Hc Hs Hg; [done|].
  change (runEvents (c, h) (e :: evs)) with (runEvents (step (c, h) e) evs).
  pose proof (Consistent_step (c, h) e Hc) as Hc1.
  pose proof (abandoned_step p c h e Hc Hs Hg) as Hs1.
  pose proof (Gone_step _ c h e Hg) as Hg1.
  destruct (step (c, h) e) as [c1 h1]. by apply IH.
Qed.

Lemma runEvents_app s evs1 evs2 :
  runEvents s (evs1 ++ evs2) = runEvents (runEvents s evs1) evs2.
Proof. unfold runEvents. apply foldl_app. Qed.

(** [callTool] writes one [tools/call] request that names the tool and
    carries the arguments, and waits for its promise.  While the session is
    not stopped, the promise is settled by the first reply that carries the
    request's id, if it comes within 30000 ms: resolved with the reply's
    result, or rejected with its error message; without such a reply it is
    unsettled before 30000 ms have passed and rejected with the timeout from
    then on.  When [stop()] is called on the running session before a reply
    or the timeout, the promise is never settled. *)
Theorem callTool_outcome :
  forall o cfg env host evs0 toolName args pid,
    MCPClient.writable (fst (runEvents (spawned o cfg env host) evs0))
    = Some pid ->
    let s := runEvents (spawned o cfg env host) evs0 in
    let n := MCPClient.messageId (fst s) + 1 in
    let request :=
      requestMessage n "tools/call"
        (JObject [("name", JString toolName); ("arguments", args)]) in
    exists promise s1,
      (forall child,
          MCPClient.callTool child toolName args s
          = MCPClient.await (child request) promise s1)
      /\ io (snd s1) = io (snd s) ++ [StdinWrite pid request]
      /\ forall evs,
           (forall pre reply post,
               evs = pre ++ Receive reply :: post ->
               forallb (quietFor n) pre = true ->
               (elapsed pre < MCPClient.requestTimeout)%N ->
               id reply = Some (IdNum n) ->
               MCPClient.settlement promise (fst (runEvents s1 evs))
               = Some (match error reply with
                       | Some e => MCPClient.Rejected (Error (error_message e))
                       | None => MCPClient.Resolved (result reply)
                       end))
           /\ (forallb (quietFor n) evs = true ->
               ((elapsed evs < MCPClient.requestTimeout)%N ->
                MCPClient.settlement promise (fst (runEvents s1 evs)) = None)
               /\ ((MCPClient.requestTimeout <= elapsed evs)%N ->
                   MCPClient.settlement promise (fst (runEvents s1 evs))
                   = Some (MCPClient.Rejected
                             (MCPClient.timeoutError "tools/call"))))
           /\ (forall pre post,
                 evs = pre ++ CallStop :: post ->
                 forallb (quietFor n) pre = true ->
                 (elapsed pre < MCPClient.requestTimeout)%N ->
                 MCPClient.process (fst (runEvents s1 pre)) <> None ->
                 MCPClient.settlement promise (fst (runEvents s1 evs)) = None).
Proof.
  intros o cfg env host evs0 toolName args pid Hw. cbn zeta.
  pose proof (Consistent_runEvents _ evs0 (Consistent_spawned o cfg env host)) as Hc.
  destruct (runEvents (spawned o cfg env host) evs0) as [c h]. cbn [fst snd] in *.
  set (params := JObject [("name", JString toolName); ("arguments", args)]).
  set (h0 := logger LogInfo
               ("Calling MCP tool " +:+ MCPClient.name (MCPClient.config c) +:+ "."
                +:+ toolName +:+ " with args:") h).
  destruct (sendRequest_running "tools/call" params c h0 pid Hw)
    as (c1 & Hsend & Hid1 & _).
  destruct (sendRequest_InFlight _ _ _ _ _ _ Hc Hsend)
    as (Hc1 & _ & Hid & Hnow & Hf).
  cbn [fst snd] in *. rewrite Hid in Hf.
  exists (MCPClient.next_promise c),
    (c1, emit (StdinWrite pid
                 (requestMessage (MCPClient.messageId c + 1) "tools/call" params))
           h0).
  split; [|split; [reflexivity|]].
  { intros child. unfold MCPClient.callTool, bind, MCPClient.info, modify.
    unfold MCPClient.awaitRequest, bind. fold params. fold h0.
    rewrite Hsend. cbn [fst snd]. by rewrite Hid1. }
  intros evs.
  set (s1 := (c1, emit (StdinWrite pid
                          (requestMessage (MCPClient.messageId c + 1)
                             "tools/call" params)) h0)).
  assert (forall pre,
             forallb (quietFor (MCPClient.messageId c + 1)) pre = true ->
             (elapsed pre < MCPClient.requestTimeout)%N ->
             InFlight (MCPClient.messageId c + 1) "tools/call"
               (MCPClient.next_promise c)
               (MCPClient.now c + MCPClient.requestTimeout)
               (fst (runEvents s1 pre))
             /\ Consistent (fst (runEvents s1 pre))) as Hquiet.
  { intros pre Hq Ht.
    apply (quiet_run _ _ _ _ pre c1 _ Hc1 Hf Hq). rewrite Hnow. lia. }
  split; [|split].
  - intros pre reply post -> Hq Ht Hreply. rewrite runEvents_app.
    destruct (Hquiet pre Hq Ht) as [Hf2 Hc2].
    change (runEvents (runEvents s1 pre) (Receive reply :: post))
      with (runEvents (step (runEvents s1 pre) (Receive reply)) post).
    destruct (runEvents s1 pre) as [c2 h2]. cbn [fst step] in *.
    destruct (InFlight_response _ _ _ _ c2 h2 reply Hc2 Hf2 Hreply) as [_ Hs].
    by apply settlement_runEvents.
  - intros Hq. split.
    + intros Ht. destruct (Hquiet evs Hq Ht) as [Hf2 Hc2].
      by destruct (InFlight_facts _ _ _ _ _ Hc2 Hf2) as (_ & ? & _).
    + intros Ht.
      destruct (quiet_run _ _ _ _ evs c1 (snd s1) Hc1 Hf Hq) as [_ Hout].
      destruct Hout as [Hs _ _]; [rewrite Hnow; lia | exact Hs].
  - intros pre post -> Hq Ht Hproc. rewrite runEvents_app.
    destruct (Hquiet pre Hq Ht) as [Hf2 Hc2].
    change (runEvents (runEvents s1 pre) (CallStop :: post))
      with (runEvents (step (runEvents s1 pre) CallStop) post).
    destruct (runEvents s1 pre) as [c2 h2]. cbn [fst] in *.
    destruct (InFlight_facts _ _ _ _ _ Hc2 Hf2) as (Hn & Hs2 & _ & _ & Hold).
    pose proof (Consistent_step (c2, h2) CallStop Hc2) as Hc3.
    assert (MCPClient.settlement (MCPClient.next_promise c)
              (fst (step (c2, h2) CallStop)) = None
            /\ Gone (Z.of_nat (MCPClient.next_promise c) + 1)
                 (fst (step (c2, h2) CallStop))) as [Hs3 Hg3].
    { cbn [step]. unfold MCPClient.stop.
      destruct (MCPClient.process c2); [|done]. cbn [fst snd].
      split; [exact Hs2|]. split; [done|]. cbn. lia. }
    destruct (step (c2, h2) CallStop) as [c3 h3]. cbn [fst] in *.
    by apply abandoned_runEvents.
Qed.

Lemma start_handshake_witness :
  MCPClient.messageId (fst (snd fsStarted)) = 2
  /\ next_pid (snd (snd fsStarted)) = 1%nat.
Proof.
  destruct (start_handshake (process_env exampleWorld)
              (child exampleWorld fsConfig) (MCPClient.new 0 fsConfig)
              initialHost (fst (snd fsStarted)) (snd (snd fsStarted)) eq_refl)
    as (_ & Hid & Hpid).
  - vm_compute. reflexivity.
  - split; [exact Hid | exact Hpid].
Defined.

Lemma addServer_failure_witness :
  fst (snd brokenAdded) = MCPManager.new.
Proof.
  apply (addServer_failure (process_env exampleWorld) (child exampleWorld)
           (processConfigOf (stdioServer "broken" (Some "nope")))
           MCPManager.new initialHost (MCPClient.timeoutError "initialize")
           (fst (snd brokenAdded)) (snd (snd brokenAdded))).
  vm_compute. reflexivity.
Defined.

Lemma callTool_outcome_witness :
  exists promise s1,
    MCPClient.callTool (child exampleWorld fsConfig) "read" (JObject [])
      (spawned 0 fsConfig [] initialHost)
    = MCPClient.await
        (child exampleWorld fsConfig
           (requestMessage 1 "tools/call"
              (JObject [("name", JString "read"); ("arguments", JObject [])])))
        promise s1
    /\ MCPClient.settlement promise
         (fst (runEvents s1
                 [Receive (responseTo
                             (requestMessage 1 "tools/call"
                                (JObject [("name", JString "read");
                                          ("arguments", JObject [])]))
                             None)]))
       = Some (MCPClient.Resolved
                 (Some {| result_tools := None; result_other := [] |})).
Proof.
  destruct (callTool_outcome 0%nat fsConfig [] initialHost [] "read" (JObject [])
              0%nat eq_refl) as (promise & s1 & Hcall & _ & Hevs).
  exists promise, s1. split; [apply Hcall|].
  destruct (Hevs [Receive (responseTo
                             (requestMessage 1 "tools/call"
                                (JObject [("name", JString "read");
                                          ("arguments", JObject [])]))
                             None)]) as (Hreply & _).
  exact (Hreply [] _ [] eq_refl eq_refl eq_refl eq_refl).
Defined.

(** ** The HTTP transport *)

Lemma http_sendRequest_run net m p c h :
  let message := requestMessage (HTTPMCPClient.messageId c + 1) m p in
  let c' := HTTPMCPClient.set_messageId (HTTPMCPClient.messageId c + 1) c in
  let h' :=
    emit (Fetch (HTTPMCPClient.url (HTTPMCPClient.config c))
                (HTTPMCPClient.requestHeaders c) message) h in
  HTTPMCPClient.sendRequest net m p (c, h)
  = match answerOf (net (HTTPMCPClient.url (HTTPMCPClient.config c))
                      (HTTPMCPClient.requestHeaders c) message) with
    | inr v => (Return v, (c', h'))
    | inl e =>
        (Throw e,
         (c', logger LogError
                ("HTTP request to "
                 +:+ HTTPMCPClient.name (HTTPMCPClient.config c) +:+ " failed:")
                h'))
    end.
Proof.
  cbn zeta. unfold HTTPMCPClient.sendRequest, tryCatch, bind, HTTPMCPClient.post.
  cbn [HTTPMCPClient.config HTTPMCPClient.set_messageId HTTPMCPClient.url
       HTTPMCPClient.requestHeaders HTTPMCPClient.headers].
  change (HTTPMCPClient.requestHeaders
            (HTTPMCPClient.set_messageId (HTTPMCPClient.messageId c + 1) c))
    with (HTTPMCPClient.requestHeaders c).
  destruct (net _ _ _) as [e|[] status text [e|data]]; try reflexivity.
  cbn [answerOf negb]. by destruct (error data).
Qed.

(** [callTool] of the HTTP transport sends one POST that names the tool and
    carries the arguments, under the next id, and the id is used up whether
    or not the call succeeds; the call returns the result of an accepted
    response and throws otherwise. *)
Theorem http_callTool_outcome :
  forall net toolName args c h,
    let request :=
      requestMessage (HTTPMCPClient.messageId c + 1) "tools/call"
        (JObject [("name", JString toolName); ("arguments", args)]) in
    let url := HTTPMCPClient.url (HTTPMCPClient.config c) in
    let headers := HTTPMCPClient.requestHeaders c in
    let r := HTTPMCPClient.callTool net toolName args (c, h) in
    fst r = match answerOf (net url headers request) with
            | inr v => Return v
            | inl e => Throw e
            end
    /\ fst (snd r) = HTTPMCPClient.set_messageId (HTTPMCPClient.messageId c + 1) c
    /\ io (snd (snd r)) = io h ++ [Fetch url headers request].
Proof.
  intros net toolName args c h. cbn zeta.
  unfold HTTPMCPClient.callTool, bind, HTTPMCPClient.log, modify.
  rewrite http_sendRequest_run. cbn zeta.
  by destruct (answerOf _).
Qed.

Lemma http_sendNotification_run net m p c h :
  exists h',
    HTTPMCPClient.sendNotification net m p (c, h) = (Return tt, (c, h'))
    /\ io h' = io h ++ [Fetch (HTTPMCPClient.url (HTTPMCPClient.config c))
                          (HTTPMCPClient.requestHeaders c)
                          (notificationMessage m p)].
Proof.
  unfold HTTPMCPClient.sendNotification, tryCatch, bind, HTTPMCPClient.post.
  destruct (net _ _ _); cbn; eauto.
Qed.

Lemma http_initialize_run net c h :
  let url := HTTPMCPClient.url (HTTPMCPClient.config c) in
  let headers := HTTPMCPClient.requestHeaders c in
  let m1 :=
    requestMessage (HTTPMCPClient.messageId c + 1) "initialize" initializeParams in
  let c' := HTTPMCPClient.set_messageId (HTTPMCPClient.messageId c + 1) c in
  exists h',
    HTTPMCPClient.initialize net (c, h)
    = (match answerOf (net url headers m1) with
       | inr _ => Return tt
       | inl e => Throw e
       end, (c', h'))
    /\ io h'
       = io h ++ Fetch url headers m1
                 :: match answerOf (net url headers m1) with
                    | inr _ =>
                        [Fetch url headers
                           (notificationMessage "notifications/initialized"
                              (JObject []))]
                    | inl _ => []
                    end.
Proof.
  cbn zeta. unfold HTTPMCPClient.initialize. unfold bind at 1.
  rewrite http_sendRequest_run. cbn zeta.
  destruct (answerOf _) as [e|v]; [by eexists|].
  unfold bind, HTTPMCPClient.log, modify.
  match goal with |- context [HTTPMCPClient.sendNotification net ?m ?p (?c1, ?h1)] =>
    destruct (http_sendNotification_run net m p c1 h1) as (h' & -> & Hio)
  end.
  exists h'. split; [done|]. rewrite Hio. cbn. by rewrite <- app_assoc.
Qed.

Lemma http_fetchTools_run net c h :
  let url := HTTPMCPClient.url (HTTPMCPClient.config c) in
  let headers := HTTPMCPClient.requestHeaders c in
  let m3 :=
    requestMessage (HTTPMCPClient.messageId c + 1) "tools/list" (JObject []) in
  exists c' h',
    HTTPMCPClient.fetchTools net (c, h)
    = (match answerOf (net url headers m3) with
       | inr _ => Return tt
       | inl e => Throw e
       end, (c', h'))
    /\ io h' = io h ++ [Fetch url headers m3]
    /\ HTTPMCPClient.messageId c' = HTTPMCPClient.messageId c + 1
    /\ HTTPMCPClient.initialized c' = HTTPMCPClient.initialized c
    /\ HTTPMCPClient.config c' = HTTPMCPClient.config c
    /\ HTTPMCPClient.oid c' = HTTPMCPClient.oid c
    /\ HTTPMCPClient.tools c'
       = match answerOf (net url headers m3) with
         | inr v => reportedTools v (HTTPMCPClient.tools c)
         | inl _ => HTTPMCPClient.tools c
         end.
Proof.
  cbn zeta. unfold HTTPMCPClient.fetchTools. unfold bind at 1.
  rewrite http_sendRequest_run. cbn zeta.
  destruct (answerOf _) as [e|[r|]]; [by eexists _, _| |by eexists _, _].
  unfold reportedTools. destruct (result_tools r) as [ts|]; by eexists _, _.
Qed.

Lemma http_handshake_body net c h :
  let url := HTTPMCPClient.url (HTTPMCPClient.config c) in
  let headers := HTTPMCPClient.requestHeaders c in
  let a1 :=
    answerOf (net url headers
                (requestMessage (HTTPMCPClient.messageId c + 1) "initialize"
                   initializeParams)) in
  let m2 := notificationMessage "notifications/initialized" (JObject []) in
  let m3 :=
    requestMessage (HTTPMCPClient.messageId c + 2) "tools/list" (JObject []) in
  let a3 := answerOf (net url headers m3) in
  exists c' h',
    (let! _ := HTTPMCPClient.initialize net in
     let! _ := HTTPMCPClient.fetchTools net in
     let! _ := modify (fun '(this, host) =>
                 (HTTPMCPClient.set_initialized true this, host)) in
     HTTPMCPClient.log LogInfo (fun this =>
       "HTTP MCP server " +:+ HTTPMCPClient.name (HTTPMCPClient.config this)
       +:+ " initialized successfully")) (c, h)
    = (match a1, a3 with
       | inl e, _ => Throw e
       | inr _, inl e => Throw e
       | inr _, inr _ => Return tt
       end, (c', h'))
    /\ HTTPMCPClient.config c' = HTTPMCPClient.config c
    /\ io h'
       = io h
         ++ Fetch url headers
              (requestMessage (HTTPMCPClient.messageId c + 1) "initialize"
                 initializeParams)
            :: match a1 with
               | inl _ => []
               | inr _ => [Fetch url headers m2; Fetch url headers m3]
               end
    /\ HTTPMCPClient.initialized c'
       = match a1, a3 with
         | inr _, inr _ => true
         | _, _ => HTTPMCPClient.initialized c
         end
    /\ HTTPMCPClient.tools c'
       = match a1, a3 with
         | inr _, inr v => reportedTools v (HTTPMCPClient.tools c)
         | _, _ => HTTPMCPClient.tools c
         end
    /\ HTTPMCPClient.messageId c'
       = match a1 with
         | inl _ => HTTPMCPClient.messageId c + 1
         | inr _ => HTTPMCPClient.messageId c + 2
         end.
Proof.
  cbn zeta. unfold bind at 1.
  destruct (http_initialize_run net c h) as (h1 & -> & Hio1). cbn zeta in Hio1.
  destruct (answerOf (net _ _ (requestMessage (HTTPMCPClient.messageId c + 1) _ _)))
    as [e1|v1]; [by eexists _, _|].
  unfold bind at 1.
  destruct (http_fetchTools_run net
              (HTTPMCPClient.set_messageId (HTTPMCPClient.messageId c + 1) c) h1)
    as (c2 & h2 & -> & Hio2 & Hid2 & Hinit2 & Hcfg2 & _ & Ht2).
  cbn zeta in Hio2, Ht2. cbn [HTTPMCPClient.set_messageId HTTPMCPClient.messageId
    HTTPMCPClient.config HTTPMCPClient.tools HTTPMCPClient.initialized] in *.
  change (HTTPMCPClient.requestHeaders
            (HTTPMCPClient.set_messageId (HTTPMCPClient.messageId c + 1) c))
    with (HTTPMCPClient.requestHeaders c) in *.
  replace (HTTPMCPClient.messageId c + 1 + 1) with (HTTPMCPClient.messageId c + 2)
    in * by lia.
  destruct (answerOf (net _ _ (requestMessage (HTTPMCPClient.messageId c + 2) _ _)))
    as [e3|v3].
  - exists c2, h2. split; [done|]. split; [done|].
    rewrite Hio2, Hio1, <- app_assoc. split; [done|]. split; [done|].
    split; [done|lia].
  - eexists _, _. split; [reflexivity|]. cbn.
    rewrite Hio2, Hio1, <- app_assoc. split; [done|]. split; [done|].
    split; [done|]. split; [done|lia].
Qed.

(** The handshake of the HTTP transport: it succeeds exactly when the
    [initialize] and the [tools/list] requests are accepted, whatever
    becomes of the notification between them. *)
Theorem http_start_handshake :
  forall net c h,
    HTTPMCPClient.initialized c = false ->
    let url := HTTPMCPClient.url (HTTPMCPClient.config c) in
    let headers := HTTPMCPClient.requestHeaders c in
    let m1 :=
      requestMessage (HTTPMCPClient.messageId c + 1) "initialize"
        initializeParams in
    let m2 := notificationMessage "notifications/initialized" (JObject []) in
    let m3 :=
      requestMessage (HTTPMCPClient.messageId c + 2) "tools/list" (JObject []) in
    let r := HTTPMCPClient.start net (c, h) in
    (accepted (net url headers m1) = true ->
     accepted (net url headers m3) = true ->
     fst r = Return tt
     /\ io (snd (snd r))
        = io h ++ [Fetch url headers m1; Fetch url headers m2; Fetch url headers m3]
     /\ HTTPMCPClient.initialized (fst (snd r)) = true
     /\ HTTPMCPClient.messageId (fst (snd r)) = HTTPMCPClient.messageId c + 2
     /\ HTTPMCPClient.tools (fst (snd r))
        = reportedTools (resultOf (net url headers m3)) (HTTPMCPClient.tools c))
    /\ (accepted (net url headers m1) = false ->
        (exists e, fst r = Throw e)
        /\ io (snd (snd r)) = io h ++ [Fetch url headers m1]
        /\ HTTPMCPClient.initialized (fst (snd r)) = false
        /\ HTTPMCPClient.tools (fst (snd r)) = HTTPMCPClient.tools c)
    /\ (accepted (net url headers m1) = true ->
        accepted (net url headers m3) = false ->
        (exists e, fst r = Throw e)
        /\ io (snd (snd r))
           = io h ++ [Fetch url headers m1; Fetch url headers m2;
                      Fetch url headers m3]
        /\ HTTPMCPClient.initialized (fst (snd r)) = false
        /\ HTTPMCPClient.tools (fst (snd r)) = HTTPMCPClient.tools c).
Proof.
  intros net c h Hinit. cbn zeta. unfold accepted, resultOf.
  unfold HTTPMCPClient.start. rewrite Hinit. unfold tryCatch.
  match goal with |- context [logger LogInfo ?text h] =>
    destruct (http_handshake_body net c (logger LogInfo text h))
      as (c' & h' & -> & Hcfg & Hio & Hi & Ht & Hid)
  end.
  cbn zeta in Hio, Hi, Ht, Hid. cbn [io logger] in Hio.
  destruct (answerOf (net _ _ (requestMessage (HTTPMCPClient.messageId c + 1) _ _)))
    as [e1|v1].
  { split; [done|]. split; [|done]. intros _. cbn.
    split; [eauto|]. split; [done|]. split; [congruence|done]. }
  destruct (answerOf (net _ _ (requestMessage (HTTPMCPClient.messageId c + 2) _ _)))
    as [e3|v3].
  - split; [done|]. split; [done|]. intros _ _. cbn.
    split; [eauto|]. split; [done|]. split; [congruence|done].
  - split; [|split; [done|done]]. intros _ _. by cbn.
Qed.

Lemma http_start_handshake_witness :
  fst (HTTPMCPClient.start (network exampleWorld) (remoteNew, initialHost))
  = Return tt
  /\ HTTPMCPClient.tools
       (fst (snd (HTTPMCPClient.start (network exampleWorld)
                    (remoteNew, initialHost))))
     = [plainTool "search"].
Proof.
  destruct (http_start_handshake (network exampleWorld) remoteNew initialHost
              eq_refl) as (Hok & _).
  destruct (Hok eq_refl eq_refl) as (Hr & _ & _ & _ & Ht).
  split; [exact Hr | exact Ht].
Defined.

(** ** The manager *)

(** [removeServer] always returns; afterwards no session is held under the
    name, the sessions under other names are the same objects, the child of
    the removed session was killed if it was running, and the tools offered
    are those of the sessions that are left.  Removing a name that is not
    held changes nothing. *)
Theorem removeServer_contract :
  forall server manager host,
    exists manager' host',
      MCPManager.removeServer server (manager, host)
      = (Return tt, (manager', host'))
      /\ JsMap.has server (MCPManager.clients manager') = false
      /\ (forall n, n <> server ->
            JsMap.get n (MCPManager.clients manager')
            = JsMap.get n (MCPManager.clients manager))
      /\ io host'
         = io host
           ++ match JsMap.get server (MCPManager.clients manager) with
              | Some c =>
                  match MCPClient.process c with
                  | Some p => [Kill (MCPClient.pid p)]
                  | None => []
                  end
              | None => []
              end
      /\ (JsMap.get server (MCPManager.clients manager) = None ->
          manager' = manager /\ host' = host)
      /\ (forall key,
            key ∈ dom (MCPManager.getAllTools manager')
            <-> exists n c,
                  (n, c) ∈ MCPManager.clients manager /\ n <> server
                  /\ key ∈ dom (MCPClient.getTools c)).
Proof.
  intros server manager host. unfold MCPManager.removeServer.
  destruct (JsMap.get server (MCPManager.clients manager)) as [c|] eqn:Hget.
  - assert (exists host',
               MCPClient.stop (c, host)
               = (Return tt, (fst (snd (MCPClient.stop (c, host))), host'))
               /\ io host'
                  = io host ++ match MCPClient.process c with
                               | Some p => [Kill (MCPClient.pid p)]
                               | None => []
                               end) as (host' & -> & Hio).
    { unfold MCPClient.stop. destruct (MCPClient.process c).
      - by eexists.
      - exists host. by rewrite app_nil_r. }
    eexists _, host'. split; [reflexivity|].
    cbn [MCPManager.clients]. split; [apply has_false_get, get_delete_eq|].
    split; [intros n Hn; by apply get_delete_ne|].
    split; [done|]. split; [done|].
    intros key. rewrite getAllTools_dom. cbn [MCPManager.clients].
    split.
    + intros (n & c' & [Hin Hne]%elem_of_delete & Hkey). by exists n, c'.
    + intros (n & c' & Hin & Hne & Hkey). exists n, c'.
      split; [by apply elem_of_delete|done].
  - exists manager, host. split; [done|]. split; [by apply has_false_get|].
    split; [done|]. split; [by rewrite app_nil_r|]. split; [done|].
    intros key. rewrite getAllTools_dom. split.
    + intros (n & c' & Hin & Hkey). exists n, c'. split; [done|].
      split; [|done]. intros ->. apply elem_get_is_Some in Hin as [? ?].
      congruence.
    + intros (n & c' & Hin & _ & Hkey). eauto.
Qed.

(** [stopAll] always returns; it kills every child that is still running,
    each one once and in the order of registration, and leaves a manager
    that holds no session and offers no tool. *)
Theorem stopAll_contract :
  forall manager host,
    exists manager' host',
      MCPManager.stopAll (manager, host) = (Return tt, (manager', host'))
      /\ MCPManager.clients manager' = []
      /\ MCPManager.getAllTools manager' = ∅
      /\ io host'
         = io host
           ++ omap (fun c => (fun p => Kill (MCPClient.pid p))
                               <$> MCPClient.process c)
                   (JsMap.values (MCPManager.clients manager))
      /\ forall host1,
           exists host2,
             MCPManager.stopAll (manager', host1) = (Return tt, (manager', host2))
             /\ io host2 = io host1.
Proof.
  intros manager host.
  destruct (stopAll_spec manager host) as (host' & Hrun & Hio & _).
  eexists _, host'. split; [exact Hrun|]. split; [done|]. split; [done|].
  split; [exact Hio|]. intros host1. by exists host1.
Qed.

(** ** What a load leaves alone *)

(** What [loadMCPTools] ends with, from the two blocks of its [try]. *)
Lemma loadMCPTools_run w servers store host :
  exists r1 store1 host1,
    loadStdio w (stdioServersOf servers) ∅ (store, host) = (r1, (store1, host1))
    /\ ((exists e,
           r1 = Throw e
           /\ loadMCPTools w servers (store, host)
              = (Return ∅,
                 (store1, logger LogError "Failed to load MCP tools:" host1)))
        \/ (r1 = Hang
            /\ loadMCPTools w servers (store, host) = (Hang, (store1, host1)))
        \/ (exists acc result store' host',
              r1 = Return acc
              /\ HttpLoad w (httpServersOf servers) acc store1 host1
                   result store' host'
              /\ loadMCPTools w servers (store, host)
                 = (Return result,
                    (store',
                     logger LogInfo
                       ("Loaded " +:+ pretty (size result) +:+ " total MCP tools")
                       host')))).
Proof.
  destruct (loadMCPTools_try_spec w servers store host)
    as (r1 & store1 & host1 & Hstdio
        & [(Hfail & Htry)|(acc & result & store' & host' & Hr & _ & Hhttp & Htry)]).
  - exists r1, store1, host1. split; [done|].
    destruct r1 as [?|e|]; [done| |].
    + left. exists e. split; [done|].
      unfold loadMCPTools, tryCatch. by rewrite Htry.
    + right. left. split; [done|].
      unfold loadMCPTools, tryCatch. by rewrite Htry.
  - exists r1, store1, host1. split; [done|]. right. right.
    exists acc, result, store', host'. split; [done|]. split; [done|].
    unfold loadMCPTools, tryCatch. by rewrite Htry.
Qed.

(** A load never removes, replaces or stops a registered HTTP session. *)
Theorem load_keeps_http_sessions :
  forall w servers store host n c,
    JsMap.get n (globalHTTPClients store) = Some c ->
    JsMap.get n (globalHTTPClients
                   (fst (snd (loadMCPTools w servers (store, host)))))
    = Some c.
Proof.
  intros w servers store host n c Hget.
  destruct (loadMCPTools_run w servers store host)
    as (r1 & store1 & host1 & Hstdio
        & [(e & _ & ->)|[(_ & ->)|(acc & result & store' & host' & _ & Hhttp & ->)]]).
  - destruct (loadStdio_spec w (stdioServersOf servers) ∅ store host)
      as (? & ? & ? & Hrun & _ & _ & Hkeep & _).
    rewrite Hstdio in Hrun. injection Hrun as <- <- <-. cbn. by rewrite Hkeep.
  - destruct (loadStdio_spec w (stdioServersOf servers) ∅ store host)
      as (? & ? & ? & Hrun & _ & _ & Hkeep & _).
    rewrite Hstdio in Hrun. injection Hrun as <- <- <-. cbn. by rewrite Hkeep.
  - destruct (loadStdio_spec w (stdioServersOf servers) ∅ store host)
      as (? & ? & ? & Hrun & _ & _ & Hkeep & _).
    rewrite Hstdio in Hrun. injection Hrun as <- <- <-. cbn.
    apply (http_persist _ _ _ _ _ _ _ _ Hhttp). by rewrite Hkeep.
Qed.

(** When the list names no process-transport server, or the deployment is
    serverless, a load leaves the manager, its sessions and the recorded
    fingerprint as they are, and returns tools of HTTP sessions only. *)
Theorem load_without_process_servers :
  forall w servers store host,
    stdioServersOf servers = [] \/ isServerless w = true ->
    exists r store' host',
      loadMCPTools w servers (store, host) = (Return r, (store', host'))
      /\ globalMCPManager store' = globalMCPManager store
      /\ currentServerConfigs store' = currentServerConfigs store
      /\ forall key,
           key ∈ dom r
           <-> exists server c,
                 server ∈ httpServersOf servers
                 /\ truthy (MCPServerConfig.url server) = true
                 /\ JsMap.get (MCPServerConfig.name server)
                      (globalHTTPClients store') = Some c
                 /\ key ∈ dom (HTTPMCPClient.getTools c).
Proof.
  intros w servers store host Hskip.
  destruct (loadMCPTools_run w servers store host)
    as (r1 & store1 & host1 & Hstdio & Hcase).
  destruct (loadStdio_spec w (stdioServersOf servers) ∅ store host)
    as (? & ? & ? & Hrun & _ & _ & _ & Hstd).
  rewrite Hstdio in Hrun. injection Hrun as <- <- <-.
  destruct Hstd as [(_ & -> & -> & _)|[(Hne & Hsl & _)|(Hne & Hsl & _)]];
    [|destruct Hskip; congruence..].
  destruct Hcase
    as [(e & [=] & _)
       |[([=] & _)|(acc & result & store' & host' & [= <-] & Hhttp & ->)]].
  eexists result, store', _. split; [reflexivity|].
  destruct Hhttp as [Hm Hf _ _ _ Hkeys _]. split; [done|]. split; [done|].
  intros key. rewrite Hkeys, dom_empty, elem_of_empty. tauto.
Qed.

(** A load reaches nothing outside the program and changes nothing in the
    module when the fingerprint of the process-transport servers is the
    recorded one (or they are not looked at) and a session is registered
    under the name of every HTTP server that has a url: the registered
    session is used whatever url and headers the list now gives for the
    name. *)
Theorem registered_sessions_reused :
  forall w servers store host,
    stdioServersOf servers = [] \/ isServerless w = true
    \/ currentServerConfigs store = configHash (stdioServersOf servers) ->
    (forall server,
        server ∈ httpServersOf servers ->
        truthy (MCPServerConfig.url server) = true ->
        JsMap.has (MCPServerConfig.name server) (globalHTTPClients store) = true) ->
    exists r host',
      loadMCPTools w servers (store, host) = (Return r, (store, host'))
      /\ io host' = io host
      /\ next_oid host' = next_oid host /\ next_pid host' = next_pid host
      /\ forall key,
           key ∈ dom r
           <-> (stdioServersOf servers <> [] /\ isServerless w = false
                /\ key ∈ dom (managerTools store))
               \/ (exists server c,
                      server ∈ httpServersOf servers
                      /\ truthy (MCPServerConfig.url server) = true
                      /\ JsMap.get (MCPServerConfig.name server)
                           (globalHTTPClients store) = Some c
                      /\ key ∈ dom (HTTPMCPClient.getTools c)).
Proof.
  intros w servers store host Hfp Hreg.
  destruct (loadMCPTools_run w servers store host)
    as (r1 & store1 & host1 & Hstdio & Hcase).
  destruct (loadStdio_spec w (stdioServersOf servers) ∅ store host)
    as (? & ? & ? & Hrun & _ & _ & _ & Hstd).
  rewrite Hstdio in Hrun. injection Hrun as <- <- <-.
  assert (store1 = store /\ io host1 = io host
          /\ next_oid host1 = next_oid host /\ next_pid host1 = next_pid host
          /\ exists acc,
               r1 = Return acc
               /\ forall key,
                    key ∈ dom acc
                    <-> stdioServersOf servers <> [] /\ isServerless w = false
                        /\ key ∈ dom (managerTools store))
    as (-> & Hio1 & Ho1 & Hp1 & acc & -> & Hacc).
  { destruct Hstd
      as [(Hskip & -> & -> & ? & ? & ?)
         |[(Hne & Hsl & _ & -> & -> & ->)|(Hne & Hsl & Hdiff & _)]].
    - repeat split; try done. exists ∅. split; [done|]. intros key.
      rewrite dom_empty, elem_of_empty. split; [done|].
      intros (? & ? & _). destruct Hskip; congruence.
    - repeat split; try done. eexists. split; [done|]. intros key.
      rewrite dom_Object_assign, dom_empty, elem_of_empty. tauto.
    - destruct Hfp as [?|[?|?]]; congruence. }
  destruct Hcase
    as [(e & [=] & _)
       |[([=] & _)|(acc' & result & store' & host' & [= <-] & Hhttp & ->)]].
  destruct Hhttp as [_ _ _ _ _ Hkeys Hidle].
  destruct (Hidle Hreg) as (-> & Hio & Ho & Hp).
  eexists result, _. split; [reflexivity|]. cbn [io logger next_oid next_pid].
  split; [congruence|]. split; [congruence|]. split; [congruence|].
  intros key. rewrite Hkeys, Hacc. tauto.
Qed.

Lemma http_stops_host clients :
  forall host,
    let host' :=
      foldl (fun host client => snd (snd (HTTPMCPClient.stop (client, host))))
            host clients in
    io host' = io host
    /\ next_oid host' = next_oid host /\ next_pid host' = next_pid host.
Proof.
  induction clients as [|c clients IH]; intros host; [done|].
  cbn zeta. cbn [foldl].
  match goal with |- context [foldl _ ?h1 clients] =>
    destruct (IH h1) as (-> & -> & ->) end.
  done.
Qed.

(** [cleanupMCPServers] always returns; it kills the children of the
    manager's sessions that are still running and reaches nothing else,
    and leaves the module without manager and without HTTP session.  The
    module is then as it was when first imported; for this the recorded
    fingerprint has to be empty whenever there is no manager, which holds
    when the module is first imported and is kept by every load. *)
Theorem cleanup_resets :
  Tidy initialStore
  /\ (forall w servers store host,
        Tidy store ->
        Tidy (fst (snd (loadMCPTools w servers (store, host)))))
  /\ (forall store host,
        exists store' host',
          cleanupMCPServers (store, host) = (Return tt, (store', host'))
          /\ globalMCPManager store' = None
          /\ globalHTTPClients store' = []
          /\ io host' = io host ++ killsOf (globalMCPManager store)
          /\ (Tidy store -> store' = initialStore)).
Proof.
  split; [done|]. split.
  - intros w servers store host Htidy.
    destruct (loadMCPTools_run w servers store host)
      as (r1 & store1 & host1 & Hstdio & Hcase).
    destruct (loadStdio_spec w (stdioServersOf servers) ∅ store host)
      as (? & ? & ? & Hrun & _ & _ & _ & Hstd).
    rewrite Hstdio in Hrun. injection Hrun as <- <- <-.
    assert (Tidy store1) as Htidy1.
    { destruct Hstd
        as [(_ & _ & -> & _)
           |[(_ & _ & _ & _ & -> & _)|(_ & _ & _ & manager' & Hm & _)]];
        try done.
      intros Hnone. congruence. }
    destruct Hcase
      as [(e & _ & ->)|[(_ & ->)|(acc & result & store' & host' & _ & Hhttp & ->)]];
      [done|done|].
    destruct Hhttp as [Hm Hf _ _ _ _ _]. cbn [fst snd]. unfold Tidy.
    rewrite Hm, Hf. exact Htidy1.
  - intros store host. unfold cleanupMCPServers. unfold bind at 1.
    assert (exists host1,
               (fun '(store, host) =>
                  match globalMCPManager store with
                  | Some _ =>
                      (let! _ := log LogInfo "Cleaning up stdio MCP servers" in
                       let! _ := onManager MCPManager.stopAll in
                       modify (fun '(store, host) =>
                         (set_currentServerConfigs EmptyString
                            (set_globalMCPManager None store), host)))
                        (store, host)
                  | None => (Return tt, (store, host))
                  end) (store, host)
               = (Return tt,
                  (match globalMCPManager store with
                   | Some _ =>
                       set_currentServerConfigs EmptyString
                         (set_globalMCPManager None store)
                   | None => store
                   end, host1))
               /\ io host1 = io host ++ killsOf (globalMCPManager store))
      as (host1 & -> & Hio1).
    { cbn beta iota. destruct (globalMCPManager store) as [manager|] eqn:Hm.
      - unfold bind, log, modify, onManager. rewrite Hm.
        destruct (stopAll_spec manager
                    (logger LogInfo "Cleaning up stdio MCP servers" host))
          as (host1 & -> & Hio & _).
        exists host1. by split.
      - exists host. split; [done|]. cbn. by rewrite app_nil_r. }
    set (store1 := match globalMCPManager store with
                   | Some _ =>
                       set_currentServerConfigs EmptyString
                         (set_globalMCPManager None store)
                   | None => store
                   end).
    assert (globalMCPManager store1 = None) as Hm1.
    { subst store1. by destruct (globalMCPManager store) eqn:Hm. }
    assert (Tidy store -> currentServerConfigs store1 = EmptyString) as Hf1.
    { subst store1. intros Htidy. destruct (globalMCPManager store) eqn:Hm; [done|].
      by apply Htidy. }
    assert (globalHTTPClients store1 = globalHTTPClients store) as Hh1.
    { subst store1. by destruct (globalMCPManager store). }
    cbn beta iota.
    destruct (bool_decide (0 < JsMap.size (globalHTTPClients store1))%nat) eqn:Hsize.
    + match goal with |- context [foldl ?f ?h0 ?l] =>
        destruct (http_stops_host l h0) as (Hio2 & _)
      end.
      cbn zeta in Hio2.
      eexists _, _. split; [reflexivity|]. split; [done|]. split; [done|].
      split; [by rewrite Hio2|].
      intros Htidy. specialize (Hf1 Htidy). destruct store1. cbn in *.
      unfold initialStore, set_globalHTTPClients, JsMap.clear. cbn. congruence.
    + exists store1, host1. split; [done|]. split; [done|].
      apply bool_decide_eq_false in Hsize.
      assert (globalHTTPClients store1 = []) as Hnil.
      { destruct (globalHTTPClients store1); [done|]. cbn in Hsize. lia. }
      split; [done|]. split; [done|].
      intros Htidy. specialize (Hf1 Htidy). destruct store1. cbn in *.
      unfold initialStore. congruence.
Qed.


Lemma load_keeps_http_sessions_witness :
  JsMap.get "remote"
    (globalHTTPClients
       (fst (snd (loadMCPTools exampleWorld exampleServers
                    (registeredStore, initialHost)))))
  = Some (HTTPMCPClient.new 0 remoteConfig).
Proof.
  apply (load_keeps_http_sessions exampleWorld exampleServers registeredStore
           initialHost "remote" (HTTPMCPClient.new 0 remoteConfig)).
  reflexivity.
Defined.

Lemma load_without_process_servers_witness :
  exists r store' host',
    loadMCPTools exampleWorld [httpServer "remote" (Some "https://remote.example")]
      (initialStore, initialHost)
    = (Return r, (store', host'))
    /\ globalMCPManager store' = None.
Proof.
  destruct (load_without_process_servers exampleWorld
              [httpServer "remote" (Some "https://remote.example")]
              initialStore initialHost (or_introl eq_refl))
    as (r & store' & host' & Hrun & Hm & _).
  exists r, store', host'. split; [exact Hrun | exact Hm].
Defined.

Lemma registered_sessions_reused_witness :
  exists r host',
    loadMCPTools exampleWorld [httpServer "remote" (Some "https://other.example")]
      (registeredStore, initialHost)
    = (Return r, (registeredStore, host'))
    /\ io host' = io initialHost.
Proof.
  destruct (registered_sessions_reused exampleWorld
              [httpServer "remote" (Some "https://other.example")]
              registeredStore initialHost (or_introl eq_refl))
    as (r & host' & Hrun & Hio & _).
  - intros server Hin _. apply list_elem_of_singleton in Hin. subst server.
    reflexivity.
  - exists r, host'. split; [exact Hrun | exact Hio].
Defined.


(** ** Qualified names and the tools behind them *)

Lemma underscore_splits (s s' t t' : string) :
  contains "_" s = false -> contains "_" s' = false ->
  s +:+ String "_" t = s' +:+ String "_" t' -> s = s' /\ t = t'.
Proof.
  revert s'. induction s as [|c s IH]; intros [|c' s'] Hs Hs'.
  - by intros [= ->].
  - change (String "_" t = String c' (s' +:+ String "_" t') -> EmptyString = String c' s' /\ t = t').
    intros [= <- _]. done.
  - change (String c (s +:+ String "_" t) = String "_" t' -> String c s = EmptyString /\ t = t').
    intros [= -> _]. done.
  - change (String c (s +:+ String "_" t) = String c' (s' +:+ String "_" t')
            -> String c s = String c' s' /\ t = t').
    cbn in Hs, Hs'. apply orb_false_elim in Hs as [_ Hs].
    apply orb_false_elim in Hs' as [_ Hs'].
    intros [= <- Heq]. destruct (IH s' Hs Hs' Heq) as [-> ->]. done.
Qed.

Lemma qualifiedName_tool server t t' :
  qualifiedName server t = qualifiedName server t' -> t = t'.
Proof.
  unfold qualifiedName. intros H.
  by do 3 apply string_app_inv_head in H.
Qed.

(** A qualified name tells the server and the tool when server names hold no
    underscore, so the tools of two such servers never override one
    another; with an underscore in a server name it does not. *)
Theorem qualifiedName_unambiguous :
  (forall s t s' t',
      contains "_" s = false -> contains "_" s' = false ->
      qualifiedName s t = qualifiedName s' t' -> s = s' /\ t = t')
  /\ (forall c1 c2 key,
        contains "_" (MCPClient.name (MCPClient.config c1)) = false ->
        contains "_" (MCPClient.name (MCPClient.config c2)) = false ->
        MCPClient.name (MCPClient.config c1) <> MCPClient.name (MCPClient.config c2) ->
        key ∈ dom (MCPClient.getTools c1) -> key ∉ dom (MCPClient.getTools c2))
  /\ qualifiedName "a" "b_c" = qualifiedName "a_b" "c".
Proof.
  assert (forall s t s' t',
             contains "_" s = false -> contains "_" s' = false ->
             qualifiedName s t = qualifiedName s' t' -> s = s' /\ t = t') as Hinj.
  { intros s t s' t' Hs Hs'. unfold qualifiedName. intros H.
    apply string_app_inv_head in H. by apply underscore_splits. }
  split; [exact Hinj|]. split; [|done].
  intros c1 c2 key H1 H2 Hne.
  unfold MCPClient.getTools. rewrite !getToolsOf_dom.
  intros (t1 & _ & ->) (t2 & _ & Heq).
  by destruct (Hinj _ _ _ _ H1 H2 Heq).
Qed.

Lemma getToolsOf_snoc self server tools t :
  getToolsOf self server (tools ++ [t])
  = <[qualifiedName server (tool_name t) :=
        {| description := descriptionOrName t;
           parameters := convertJsonSchemaToZod (inputSchema t);
           execute := (self, tool_name t) |}]>
      (getToolsOf self server tools).
Proof. unfold getToolsOf. by rewrite foldl_app. Qed.

Lemma getToolsOf_last self server pre t post :
  Forall (fun t' => tool_name t' <> tool_name t) post ->
  getToolsOf self server (pre ++ t :: post) !! qualifiedName server (tool_name t)
  = Some {| description := descriptionOrName t;
            parameters := convertJsonSchemaToZod (inputSchema t);
            execute := (self, tool_name t) |}.
Proof.
  induction post as [|t' post IH] using rev_ind; intros Hpost.
  - rewrite getToolsOf_snoc.
    by rewrite lookup_insert_eq.
  - apply Forall_app in Hpost as [Hpost Ht']. rewrite Forall_singleton in Ht'.
    rewrite app_comm_cons, app_assoc, getToolsOf_snoc.
    rewrite lookup_insert_ne; [by apply IH|].
    intros Heq%qualifiedName_tool. congruence.
Qed.

(** The tool that [getTools] offers under a qualified name is made from the
    last descriptor of that name in the session's list: its description,
    or its name when the description is missing or empty, its translated
    schema, and a call of that tool on this session.  A name that no
    descriptor has is not offered. *)
Theorem getTools_last_wins :
  (forall c pre t post,
      MCPClient.tools c = pre ++ t :: post ->
      Forall (fun t' => tool_name t' <> tool_name t) post ->
      MCPClient.getTools c
        !! qualifiedName (MCPClient.name (MCPClient.config c)) (tool_name t)
      = Some {| description := if truthy (tool_description t)
                               then default EmptyString (tool_description t)
                               else tool_name t;
                parameters := convertJsonSchemaToZod (inputSchema t);
                execute := (ProcessClient (MCPClient.oid c), tool_name t) |})
  /\ (forall c pre t post,
        HTTPMCPClient.tools c = pre ++ t :: post ->
        Forall (fun t' => tool_name t' <> tool_name t) post ->
        HTTPMCPClient.getTools c
          !! qualifiedName (HTTPMCPClient.name (HTTPMCPClient.config c))
               (tool_name t)
        = Some {| description := if truthy (tool_description t)
                                 then default EmptyString (tool_description t)
                                 else tool_name t;
                  parameters := convertJsonSchemaToZod (inputSchema t);
                  execute := (HttpClient (HTTPMCPClient.oid c), tool_name t) |})
  /\ (forall c toolName,
        (forall t, t ∈ MCPClient.tools c -> tool_name t <> toolName) ->
        MCPClient.getTools c
          !! qualifiedName (MCPClient.name (MCPClient.config c)) toolName
        = None).
Proof.
  split; [|split].
  - intros c pre t post Htools Hpost. unfold MCPClient.getTools.
    rewrite Htools. by apply getToolsOf_last.
  - intros c pre t post Htools Hpost. unfold HTTPMCPClient.getTools.
    rewrite Htools. by apply getToolsOf_last.
  - intros c toolName Hnone. apply not_elem_of_dom. unfold MCPClient.getTools.
    rewrite getToolsOf_dom. intros (t & Hin & Heq%qualifiedName_tool).
    by apply (Hnone t).
Qed.

(** ** Object spread *)

Lemma get_spread base extra :
  forall k,
    NoDup extra.*1 ->
    JsMap.get k (spread base extra)
    = match JsMap.get k extra with
      | Some v => Some v
      | None => JsMap.get k base
      end.
Proof.
  unfold spread. revert base.
  induction extra as [|[k0 v0] extra IH]; intros base k Hnd; [done|].
  rewrite fmap_cons in Hnd. apply NoDup_cons in Hnd as [Hnotin Hnd].
  cbn [foldl]. rewrite IH by done. cbn [JsMap.get].
  destruct (decide (k = k0)) as [->|Hne].
  - destruct (JsMap.get k0 extra) as [v|] eqn:Hget.
    + exfalso. apply Hnotin. apply get_Some_elem in Hget.
      apply list_elem_of_fmap. by exists (k0, v).
    + apply get_set_eq.
  - destruct (JsMap.get k extra); [done|]. by apply get_set_ne.
Qed.

(** The environment of the spawned child is the hosting process's own
    with the configured variables put over it, and the headers of a POST
    are [Content-Type: application/json] with the configured headers put
    over it: a configured entry wins. *)
Theorem configured_entries_win :
  (forall processEnv c h k,
      NoDup (default [] (MCPClient.env (MCPClient.config c))).*1 ->
      exists childEnv,
        io (snd (MCPClient.spawn processEnv (c, h)))
        = io h ++ [Spawn (next_pid h) (MCPClient.command (MCPClient.config c))
                     (MCPClient.args (MCPClient.config c)) childEnv]
        /\ JsMap.get k childEnv
           = match JsMap.get k (default [] (MCPClient.env (MCPClient.config c))) with
             | Some v => Some v
             | None => JsMap.get k processEnv
             end)
  /\ (forall c k,
        NoDup (default [] (HTTPMCPClient.headers (HTTPMCPClient.config c))).*1 ->
        JsMap.get k (HTTPMCPClient.requestHeaders c)
        = match JsMap.get k
                  (default [] (HTTPMCPClient.headers (HTTPMCPClient.config c))) with
          | Some v => Some v
          | None =>
              if decide (k = "Content-Type") then Some "application/json"
              else None
          end).
Proof.
  split.
  - intros processEnv c h k Hnd. eexists. split; [reflexivity|].
    by apply get_spread.
  - intros c k Hnd. unfold HTTPMCPClient.requestHeaders.
    rewrite get_spread by done. cbn [JsMap.get].
    by destruct (JsMap.get k _).
Qed.

(** ** The fingerprint tells every fingerprinted field apart *)

Lemma join_tail x items : JSON.join "," (x :: items) = x +:+ tailOf items.
Proof.
  revert x. induction items as [|y items IH]; intros x.
  - cbn. by rewrite string_app_nil_r.
  - change (JSON.join "," (x :: y :: items))
      with (x +:+ "," +:+ JSON.join "," (y :: items)).
    by rewrite IH.
Qed.

Section JoinedItems.
Context {A K : Type} (enc : A -> string) (key : A -> K) (close : ascii).
Hypothesis enc_inj :
  forall a1 a2 r1 r2,
    enc a1 +:+ r1 = enc a2 +:+ r2 -> key a1 = key a2 /\ r1 = r2.
Hypothesis enc_start :
  forall a, exists c rest, enc a = String c rest /\ c <> close.
Hypothesis close_comma : close <> ","%char.

Lemma tail_inj l1 :
  forall l2 r1 r2,
    tailOf (map enc l1) +:+ String close r1
    = tailOf (map enc l2) +:+ String close r2 ->
    key <$> l1 = key <$> l2 /\ r1 = r2.
Proof.
  induction l1 as [|x l1 IH]; intros [|y l2] r1 r2;
    cbn [map tailOf String.append].
  - by intros [= ->].
  - intros [= ? _]. congruence.
  - intros [= ? _]. congruence.
  - rewrite !string_app_assoc. intros [= [Hk Hrest]%enc_inj].
    rewrite !fmap_cons, Hk. by destruct (IH _ _ _ Hrest) as [-> ->].
Qed.

Lemma joined_inj l1 l2 r1 r2 :
  JSON.join "," (map enc l1) +:+ String close r1
  = JSON.join "," (map enc l2) +:+ String close r2 ->
  key <$> l1 = key <$> l2 /\ r1 = r2.
Proof.
  destruct l1 as [|x l1], l2 as [|y l2]; cbn [map].
  - cbn [JSON.join String.append]. by intros [= ->].
  - rewrite join_tail. destruct (enc_start y) as (c & rest & -> & Hc).
    cbn [JSON.join String.append]. intros [= ? _]. congruence.
  - rewrite join_tail. destruct (enc_start x) as (c & rest & -> & Hc).
    cbn [JSON.join String.append]. intros [= ? _]. congruence.
  - rewrite !join_tail, !string_app_assoc. intros [Hk Hrest]%enc_inj.
    rewrite !fmap_cons, Hk. by destruct (tail_inj _ _ _ _ Hrest) as [-> ->].
Qed.
End JoinedItems.

Lemma strings_inj l1 l2 r1 r2 :
  JSON.strings l1 +:+ r1 = JSON.strings l2 +:+ r2 -> l1 = l2 /\ r1 = r2.
Proof.
  unfold JSON.strings, JSON.array. rewrite !string_app_assoc.
  intros [= H]. cbn [String.append] in H.
  apply (joined_inj JSON.quote (fun x => x) "]") in H as [H ->]; [| | |done].
  - by rewrite !list_fmap_id in H.
  - intros a1 a2 r1' r2' Heq. by apply quote_inj_prefix in Heq.
  - intros a. eexists _, _. split; [reflexivity|done].
Qed.

Lemma record_entries r :
  JSON.record r = "{" +:+ JSON.join "," (map entryOf r) +:+ "}".
Proof.
  unfold JSON.record, JSON.object. do 3 f_equal.
  induction r as [|[k v] r IH]; [done|].
  cbn [map omap list_omap fmap option_fmap option_map]. by f_equal.
Qed.

Lemma record_inj e1 e2 r1 r2 :
  JSON.record e1 +:+ r1 = JSON.record e2 +:+ r2 -> e1 = e2 /\ r1 = r2.
Proof.
  rewrite !record_entries, !string_app_assoc. intros [= H].
  cbn [String.append] in H.
  apply (joined_inj entryOf (fun x => x) "}") in H as [H ->]; [| | |done].
  - by rewrite !list_fmap_id in H.
  - intros [k1 v1] [k2 v2] r1' r2'. unfold entryOf. cbn [fst snd].
    rewrite !string_app_assoc. intros [-> H']%quote_inj_prefix.
    apply string_app_inv_head in H'. by apply quote_inj_prefix in H' as [-> ->].
  - intros a. eexists _, _. split; [reflexivity|done].
Qed.

Lemma members_some k v fields :
  JSON.members ((k, Some v) :: fields)
  = "," +:+ JSON.quote k +:+ ":" +:+ v +:+ JSON.members fields.
Proof. done. Qed.

Lemma members_none k fields :
  JSON.members ((k, None) :: fields) = JSON.members fields.
Proof. done. Qed.

Lemma env_member_inj e1 e2 r1 r2 :
  JSON.members [("env", JSON.record <$> e1)] +:+ String "}" r1
  = JSON.members [("env", JSON.record <$> e2)] +:+ String "}" r2 ->
  e1 = e2 /\ r1 = r2.
Proof.
  destruct e1 as [e1|], e2 as [e2|]; cbn [fmap option_fmap option_map];
    rewrite ?members_some, ?members_none; intros H.
  - rewrite !string_app_assoc in H. do 3 apply string_app_inv_head in H.
    apply record_inj in H as [-> H]. by injection H as ->.
  - cbn in H. discriminate H.
  - cbn in H. discriminate H.
  - by injection H as ->.
Qed.

Lemma args_member_inj a1 a2 e1 e2 r1 r2 :
  JSON.members [("args", JSON.strings <$> a1); ("env", JSON.record <$> e1)]
    +:+ String "}" r1
  = JSON.members [("args", JSON.strings <$> a2); ("env", JSON.record <$> e2)]
      +:+ String "}" r2 ->
  a1 = a2 /\ e1 = e2 /\ r1 = r2.
Proof.
  destruct a1 as [a1|], a2 as [a2|]; cbn [fmap option_fmap option_map];
    rewrite ?members_some, ?members_none; intros H.
  - rewrite !string_app_assoc in H. do 3 apply string_app_inv_head in H.
    apply strings_inj in H as [-> H]. by apply env_member_inj in H as [-> ->].
  - destruct e2; cbn in H; discriminate H.
  - destruct e1; cbn in H; discriminate H.
  - by apply env_member_inj in H as [-> ->].
Qed.

Lemma command_member_inj c1 c2 a1 a2 e1 e2 r1 r2 :
  JSON.members [("command", JSON.quote <$> c1); ("args", JSON.strings <$> a1);
                ("env", JSON.record <$> e1)] +:+ String "}" r1
  = JSON.members [("command", JSON.quote <$> c2); ("args", JSON.strings <$> a2);
                  ("env", JSON.record <$> e2)] +:+ String "}" r2 ->
  c1 = c2 /\ a1 = a2 /\ e1 = e2 /\ r1 = r2.
Proof.
  destruct c1 as [c1|], c2 as [c2|]; cbn [fmap option_fmap option_map];
    rewrite ?members_some, ?members_none; intros H.
  - rewrite !string_app_assoc in H. do 3 apply string_app_inv_head in H.
    apply quote_inj_prefix in H as [-> H].
    by apply args_member_inj in H as (-> & -> & ->).
  - destruct a2, e2; cbn in H; discriminate H.
  - destruct a1, e1; cbn in H; discriminate H.
  - by apply args_member_inj in H as (-> & -> & ->).
Qed.

Lemma fingerprintOf_inj s1 s2 r1 r2 :
  fingerprintOf s1 +:+ r1 = fingerprintOf s2 +:+ r2 ->
  fingerprinted s1 = fingerprinted s2 /\ r1 = r2.
Proof.
  unfold fingerprintOf, fingerprinted. rewrite !object_first, !string_app_assoc.
  intros H. do 3 apply string_app_inv_head in H.
  apply quote_inj_prefix in H as [-> H].
  change ("}" +:+ ?r) with (String "}" r) in H.
  by apply command_member_inj in H as (-> & -> & -> & ->).
Qed.

Lemma configHash_inj l l' :
  configHash l = configHash l' -> fingerprinted <$> l = fingerprinted <$> l'.
Proof.
  unfold configHash, JSON.array. intros [= H]. cbn [String.append] in H.
  apply (joined_inj fingerprintOf fingerprinted "]") in H as [H _]; [done|..|done].
  - apply fingerprintOf_inj.
  - intros a. unfold fingerprintOf. rewrite object_first.
    eexists _, _. split; [reflexivity|done].
Qed.

(** Two lists of process-transport servers have the same fingerprint
    exactly when they agree, server by server and in order, on name,
    command, args and env. *)
Theorem configHash_exact :
  forall l l',
    configHash l = configHash l' <-> fingerprinted <$> l = fingerprinted <$> l'.
Proof.
  intros l l'. split; [apply configHash_inj | apply configHash_fingerprinted].
Qed.

(** ** The table of configured servers *)

Lemma find_elem {A} (f : A -> bool) (l : list A) x :
  List.find f l = Some x -> x ∈ l /\ f x = true.
Proof. intros [? ?]%List.find_some. by rewrite list_elem_of_In. Qed.

Lemma find_none_elem {A} (f : A -> bool) (l : list A) x :
  List.find f l = None -> x ∈ l -> f x = false.
Proof. intros H Hin. apply (List.find_none f l H). by rewrite <- list_elem_of_In. Qed.

Lemma elem_of_byMemberId member db d :
  d ∈ mcpServers.byMemberId member db
  <-> d ∈ mcpServers.docs db /\ mcpServers.memberId d = member.
Proof.
  unfold mcpServers.byMemberId. rewrite elem_of_List_filter.
  by rewrite Nat.eqb_eq.
Qed.

Lemma byName_Some member n db d :
  mcpServers.byName member n db = Some d ->
  d ∈ mcpServers.docs db /\ mcpServers.memberId d = member
  /\ mcpServers.name (mcpServers.fields d) = n.
Proof.
  intros [[? ?]%elem_of_byMemberId ?%String.eqb_eq]%find_elem. done.
Qed.

Lemma byName_None member n db d :
  mcpServers.byName member n db = None ->
  d ∈ mcpServers.docs db -> mcpServers.memberId d = member ->
  mcpServers.name (mcpServers.fields d) <> n.
Proof.
  intros Hnone Hin Hm Hn.
  apply (find_none_elem _ _ d) in Hnone; [|by apply elem_of_byMemberId].
  apply String.eqb_neq in Hnone. done.
Qed.

Lemma get_Some id db d :
  mcpServers.get id db = Some d -> d ∈ mcpServers.docs db /\ mcpServers._id d = id.
Proof. intros [? ?%Nat.eqb_eq]%find_elem. done. Qed.

Lemma get_unique id db d :
  NoDup (mcpServers._id <$> mcpServers.docs db) ->
  d ∈ mcpServers.docs db -> mcpServers._id d = id ->
  mcpServers.get id db = Some d.
Proof.
  unfold mcpServers.get. intros Hnd Hin Hid.
  destruct (List.find _ _) as [d'|] eqn:Hfind.
  - apply find_elem in Hfind as [Hin' Hid'%Nat.eqb_eq]. f_equal.
    apply (NoDup_fmap_eq mcpServers._id (mcpServers.docs db)); congruence.
  - apply (find_none_elem _ _ d) in Hfind; [|done].
    apply Nat.eqb_neq in Hfind. done.
Qed.

(** The outcome of the owner's check. *)
Lemma owned_run member serverId verb db :
  (exists e, mcpServers.owned member serverId verb db = (Throw e, db))
  \/ (exists server,
         mcpServers.owned member serverId verb db = (Return server, db)
         /\ server ∈ mcpServers.docs db
         /\ mcpServers._id server = serverId
         /\ mcpServers.memberId server = member).
Proof.
  unfold mcpServers.owned.
  destruct (mcpServers.get serverId db) as [server|] eqn:Hget; [|eauto].
  apply get_Some in Hget as [Hin Hid].
  destruct (Nat.eqb_spec (mcpServers.memberId server) member); cbn [negb];
    [right|left]; eauto.
Qed.

Lemma validate_run a db :
  (hasEndpoint a = true /\ mcpServers.validate a db = (Return tt, db))
  \/ (hasEndpoint a = false /\ exists e, mcpServers.validate a db = (Throw e, db)).
Proof.
  unfold mcpServers.validate, hasEndpoint.
  destruct (mcpServers.transport a).
  - destruct (truthy (mcpServers.command a)); cbn; eauto.
  - destruct (truthy (mcpServers.url a)); cbn; eauto.
Qed.

(** What [add] does. *)
Lemma add_run auth a db :
  (exists e, mcpServers.add auth a db = (Throw e, db))
  \/ (exists member,
         auth = inr member
         /\ mcpServers.byName member (mcpServers.name a) db = None
         /\ hasEndpoint a = true
         /\ mcpServers.add auth a db
            = (Return (mcpServers.next_id db),
               {| mcpServers.docs :=
                    mcpServers.docs db
                    ++ [{| mcpServers._id := mcpServers.next_id db;
                           mcpServers._creationTime := mcpServers.clock db;
                           mcpServers.memberId := member;
                           mcpServers.fields := a |}];
                  mcpServers.next_id := S (mcpServers.next_id db);
                  mcpServers.clock := (mcpServers.clock db + 1)%N |})).
Proof.
  unfold mcpServers.add, mcpServers.getCurrentMember.
  destruct auth as [e|member]; [left; by exists e|].
  unfold bind, ret, mcpServers.insert. cbn beta iota.
  destruct (mcpServers.byName member (mcpServers.name a) db) eqn:Hname;
    [left; eauto|].
  destruct (validate_run a db) as [[Hv ->]|[Hv [e ->]]]; [right|left; eauto].
  exists member. by repeat split.
Qed.

(** What [update] does. *)
Lemma update_run auth serverId updates db :
  (exists e, mcpServers.update auth serverId updates db = (Throw e, db))
  \/ (exists member server,
         auth = inr member
         /\ server ∈ mcpServers.docs db
         /\ mcpServers._id server = serverId
         /\ mcpServers.memberId server = member
         /\ hasEndpoint updates = true
         /\ (forall d,
               d ∈ mcpServers.docs db -> mcpServers.memberId d = member ->
               mcpServers.name (mcpServers.fields d) = mcpServers.name updates ->
               Sound db -> mcpServers._id d = serverId)
         /\ mcpServers.update auth serverId updates db
            = mcpServers.patch serverId (fun _ => updates) db).
Proof.
  unfold mcpServers.update, mcpServers.getCurrentMember.
  destruct auth as [e|member]; [left; by exists e|].
  unfold bind, ret. cbn beta iota.
  destruct (owned_run member serverId "update" db)
    as [[e ->]|(server & -> & Hin & Hid & Hm)]; [left; eauto|].
  destruct (negb (String.eqb (mcpServers.name updates)
                    (mcpServers.name (mcpServers.fields server)))) eqn:Hchanged.
  - destruct (mcpServers.byName member (mcpServers.name updates) db)
      as [existing|] eqn:Hname.
    + destruct (Nat.eqb_spec (mcpServers._id existing) serverId) as [Hsame|Hother];
        cbn [negb]; [|left; eauto].
      destruct (validate_run updates db) as [[Hv ->]|[Hv [e ->]]]; [right|left; eauto].
      exists member, server. repeat split; try done.
      intros d Hd Hdm Hdn Hsound.
      apply byName_Some in Hname as (Hein & Hem & Hen).
      rewrite (names_distinct db Hsound d existing); try done; congruence.
    + destruct (validate_run updates db) as [[Hv ->]|[Hv [e ->]]]; [right|left; eauto].
      exists member, server. repeat split; try done.
      intros d Hd Hdm Hdn _. by destruct (byName_None _ _ _ d Hname).
  - destruct (validate_run updates db) as [[Hv ->]|[Hv [e ->]]]; [right|left; eauto].
    exists member, server. repeat split; try done.
    intros d Hd Hdm Hdn Hsound.
    apply negb_false_iff, String.eqb_eq in Hchanged.
    rewrite (names_distinct db Hsound d server); try done; congruence.
Qed.

Lemma remove_run auth serverId db :
  (exists e, mcpServers.remove auth serverId db = (Throw e, db))
  \/ (exists member server,
         auth = inr member
         /\ server ∈ mcpServers.docs db
         /\ mcpServers._id server = serverId
         /\ mcpServers.memberId server = member
         /\ mcpServers.remove auth serverId db = mcpServers.delete serverId db).
Proof.
  unfold mcpServers.remove, mcpServers.getCurrentMember.
  destruct auth as [e|member]; [left; by exists e|].
  unfold bind, ret. cbn beta iota.
  destruct (owned_run member serverId "delete" db)
    as [[e ->]|(server & -> & Hin & Hid & Hm)]; [left; eauto|].
  right. by exists member, server.
Qed.

Lemma toggleEnabled_run auth serverId db :
  (exists e, mcpServers.toggleEnabled auth serverId db = (Throw e, db))
  \/ (exists member server,
         auth = inr member
         /\ mcpServers.get serverId db = Some server
         /\ mcpServers.memberId server = member
         /\ mcpServers.toggleEnabled auth serverId db
            = (Return (negb (mcpServers.enabled (mcpServers.fields server))),
               snd (mcpServers.patch serverId
                      (mcpServers.set_enabled
                         (negb (mcpServers.enabled (mcpServers.fields server))))
                      db))).
Proof.
  unfold mcpServers.toggleEnabled, mcpServers.getCurrentMember.
  destruct auth as [e|member]; [left; by exists e|].
  unfold bind, ret, mcpServers.owned. cbn beta iota.
  destruct (mcpServers.get serverId db) as [server|] eqn:Hget; [|left; eauto].
  destruct (Nat.eqb_spec (mcpServers.memberId server) member); cbn [negb];
    [right|left; eauto].
  by exists member, server.
Qed.

Lemma Sound_empty : Sound mcpServers.empty.
Proof.
  split; cbn.
  - constructor.
  - by intros d ?%elem_of_nil.
  - by intros d1 d2 ?%elem_of_nil.
Qed.

Lemma Sound_insert member a db :
  Sound db -> mcpServers.byName member (mcpServers.name a) db = None ->
  Sound (snd (mcpServers.insert member a db)).
Proof.
  intros [Hnd Hused Hnames] Hfree. split; cbn.
  - rewrite fmap_app. apply NoDup_app. split; [done|]. split; [|apply NoDup_singleton].
    intros i (d & -> & Hin)%list_elem_of_fmap Heq%list_elem_of_singleton.
    specialize (Hused d Hin). cbn in Heq. lia.
  - intros d [Hin| ->%list_elem_of_singleton]%elem_of_app; [|cbn; lia].
    specialize (Hused d Hin). lia.
  - intros d1 d2 [H1| ->%list_elem_of_singleton]%elem_of_app
                 [H2| ->%list_elem_of_singleton]%elem_of_app; cbn; try done.
    + by apply Hnames.
    + intros Hm Hn. by destruct (byName_None _ _ _ d1 Hfree H1 Hm).
    + intros Hm Hn. by destruct (byName_None _ _ _ d2 Hfree H2).
Qed.

Lemma elem_of_patch id f db d' :
  d' ∈ mcpServers.docs (snd (mcpServers.patch id f db))
  <-> exists d,
        d ∈ mcpServers.docs db
        /\ d' = if Nat.eqb (mcpServers._id d) id
                then {| mcpServers._id := mcpServers._id d;
                        mcpServers._creationTime := mcpServers._creationTime d;
                        mcpServers.memberId := mcpServers.memberId d;
                        mcpServers.fields := f (mcpServers.fields d) |}
                else d.
Proof.
  cbn. change (map ?g ?l) with (g <$> l). rewrite list_elem_of_fmap.
  split; [intros (d & -> & Hin); by exists d | intros (d & Hin & ->); by exists d].
Qed.

Lemma Sound_patch id f db :
  Sound db ->
  (forall d1 d2,
      d1 ∈ mcpServers.docs db -> d2 ∈ mcpServers.docs db ->
      mcpServers.memberId d1 = mcpServers.memberId d2 ->
      mcpServers.name (if Nat.eqb (mcpServers._id d1) id
                       then f (mcpServers.fields d1) else mcpServers.fields d1)
      = mcpServers.name (if Nat.eqb (mcpServers._id d2) id
                         then f (mcpServers.fields d2) else mcpServers.fields d2) ->
      d1 = d2) ->
  Sound (snd (mcpServers.patch id f db)).
Proof.
  intros [Hnd Hused Hnames] Hkeep.
  assert (mcpServers._id <$> mcpServers.docs (snd (mcpServers.patch id f db))
          = mcpServers._id <$> mcpServers.docs db) as Hids.
  { cbn. change (map ?g ?l) with (g <$> l).
    rewrite <- list_fmap_compose. apply list_fmap_ext.
    intros _ d _. cbn. by destruct (Nat.eqb _ _). }
  split.
  - by rewrite Hids.
  - intros d' (d & Hin & ->)%elem_of_patch. specialize (Hused d Hin).
    cbn. by destruct (Nat.eqb _ _).
  - intros d1' d2' (d1 & H1 & ->)%elem_of_patch (d2 & H2 & ->)%elem_of_patch Hm Hn.
    rewrite (Hkeep d1 d2 H1 H2); [done| |].
    + by destruct (Nat.eqb (mcpServers._id d1) id), (Nat.eqb (mcpServers._id d2) id).
    + by destruct (Nat.eqb (mcpServers._id d1) id), (Nat.eqb (mcpServers._id d2) id).
Qed.

Lemma Sound_delete id db : Sound db -> Sound (snd (mcpServers.delete id db)).
Proof.
  intros [Hnd Hused Hnames]. split; cbn.
  - by apply NoDup_fmap_List_filter.
  - intros d [Hin _]%elem_of_List_filter. by apply Hused.
  - intros d1 d2 [H1 _]%elem_of_List_filter [H2 _]%elem_of_List_filter.
    by apply Hnames.
Qed.

Lemma Sound_add auth a db : Sound db -> Sound (snd (mcpServers.add auth a db)).
Proof.
  intros Hs. destruct (add_run auth a db) as [[e ->]|(member & _ & Hfree & _ & ->)];
    [done|].
  by apply (Sound_insert member a db).
Qed.

Lemma Sound_update auth serverId updates db :
  Sound db -> Sound (snd (mcpServers.update auth serverId updates db)).
Proof.
  intros Hs.
  destruct (update_run auth serverId updates db)
    as [[e ->]|(member & server & _ & Hin & Hid & Hm & _ & Hname & ->)]; [done|].
  apply Sound_patch; [done|]. intros d1 d2 H1 H2 Hmem.
  destruct (Nat.eqb_spec (mcpServers._id d1) serverId) as [E1|E1],
           (Nat.eqb_spec (mcpServers._id d2) serverId) as [E2|E2]; intros Hn.
  - apply (NoDup_fmap_eq mcpServers._id (mcpServers.docs db));
      [apply Hs|done|done|congruence].
  - exfalso. apply E2. apply Hname; try done.
    assert (d1 = server) as ->; [|congruence].
    apply (NoDup_fmap_eq mcpServers._id (mcpServers.docs db));
      [apply Hs|done|done|congruence].
  - exfalso. apply E1. apply Hname; try done.
    assert (d2 = server) as ->; [|congruence].
    apply (NoDup_fmap_eq mcpServers._id (mcpServers.docs db));
      [apply Hs|done|done|congruence].
  - by apply (names_distinct db Hs).
Qed.

Lemma Sound_remove auth serverId db :
  Sound db -> Sound (snd (mcpServers.remove auth serverId db)).
Proof.
  intros Hs.
  destruct (remove_run auth serverId db) as [[e ->]|(? & ? & _ & _ & _ & _ & ->)];
    [done|].
  by apply Sound_delete.
Qed.

Lemma Sound_toggleEnabled auth serverId db :
  Sound db -> Sound (snd (mcpServers.toggleEnabled auth serverId db)).
Proof.
  intros Hs.
  destruct (toggleEnabled_run auth serverId db)
    as [[e ->]|(? & server & _ & _ & _ & ->)]; [done|].
  apply Sound_patch; [done|]. intros d1 d2 H1 H2 Hmem Hn.
  apply (names_distinct db Hs); try done.
  by destruct (Nat.eqb (mcpServers._id d1) serverId),
              (Nat.eqb (mcpServers._id d2) serverId).
Qed.

(** Whatever is called on the table, by whomever and with whatever
    arguments, no member comes to have two servers of the same name, and
    ids stay distinct. *)
Theorem names_stay_unique :
  Sound mcpServers.empty
  /\ forall db,
       Sound db ->
       (forall auth a, Sound (snd (mcpServers.add auth a db)))
       /\ (forall auth serverId updates,
             Sound (snd (mcpServers.update auth serverId updates db)))
       /\ (forall auth serverId, Sound (snd (mcpServers.remove auth serverId db)))
       /\ (forall auth serverId,
             Sound (snd (mcpServers.toggleEnabled auth serverId db))).
Proof.
  split; [apply Sound_empty|]. intros db Hs. split; [|split; [|split]].
  - intros. by apply Sound_add.
  - intros. by apply Sound_update.
  - intros. by apply Sound_remove.
  - intros. by apply Sound_toggleEnabled.
Qed.

Lemma Valid_patch id f db :
  Valid db ->
  (forall d, d ∈ mcpServers.docs db -> mcpServers._id d = id ->
             hasEndpoint (f (mcpServers.fields d)) = true) ->
  Valid (snd (mcpServers.patch id f db)).
Proof.
  intros Hv Hf d' (d & Hin & ->)%elem_of_patch.
  destruct (Nat.eqb_spec (mcpServers._id d) id); [by apply Hf | by apply Hv].
Qed.

(** Whatever is called on the table, every server in it has the endpoint
    of its transport: a command on the process transport, a url on the
    HTTP transport. *)
Theorem endpoints_stay_valid :
  Valid mcpServers.empty
  /\ forall db,
       Valid db ->
       (forall auth a, Valid (snd (mcpServers.add auth a db)))
       /\ (forall auth serverId updates,
             Valid (snd (mcpServers.update auth serverId updates db)))
       /\ (forall auth serverId, Valid (snd (mcpServers.remove auth serverId db)))
       /\ (forall auth serverId,
             Valid (snd (mcpServers.toggleEnabled auth serverId db))).
Proof.
  split; [by intros d ?%elem_of_nil|]. intros db Hv. split; [|split; [|split]].
  - intros auth a.
    destruct (add_run auth a db) as [[e ->]|(member & _ & _ & Ha & ->)]; [done|].
    intros d [Hin| ->%list_elem_of_singleton]%elem_of_app; [by apply Hv|done].
  - intros auth serverId updates.
    destruct (update_run auth serverId updates db)
      as [[e ->]|(member & server & _ & _ & _ & _ & Ha & _ & ->)]; [done|].
    by apply Valid_patch.
  - intros auth serverId.
    destruct (remove_run auth serverId db) as [[e ->]|(? & ? & _ & _ & _ & _ & ->)];
      [done|].
    intros d [Hin _]%elem_of_List_filter. by apply Hv.
  - intros auth serverId.
    destruct (toggleEnabled_run auth serverId db)
      as [[e ->]|(? & server & _ & _ & _ & ->)]; [done|].
    apply Valid_patch; [done|]. intros d Hin _. by apply Hv.
Qed.

Lemma patch_others id f db server member d :
  Sound db ->
  server ∈ mcpServers.docs db -> mcpServers._id server = id ->
  mcpServers.memberId server = member ->
  mcpServers.memberId d <> member ->
  d ∈ mcpServers.docs db <-> d ∈ mcpServers.docs (snd (mcpServers.patch id f db)).
Proof.
  intros Hs Hin Hid Hm Hd. rewrite elem_of_patch. split.
  - intros Hd'. exists d. split; [done|].
    destruct (Nat.eqb_spec (mcpServers._id d) id) as [E|E]; [|done].
    exfalso. apply Hd. rewrite <- Hm. f_equal.
    apply (NoDup_fmap_eq mcpServers._id (mcpServers.docs db));
      [apply Hs|done|done|congruence].
  - intros (d0 & Hin0 & ->).
    destruct (Nat.eqb_spec (mcpServers._id d0) id) as [E|E]; [|done].
    exfalso. apply Hd. cbn. rewrite <- Hm. f_equal.
    apply (NoDup_fmap_eq mcpServers._id (mcpServers.docs db));
      [apply Hs|done|done|congruence].
Qed.

(** A call that throws leaves the table as it was; a call made without a
    member throws what [getCurrentMember] threw; and a call made by a
    member leaves every server of another member in the table, unchanged,
    and brings none in. *)
Theorem table_calls_respect_owner :
  forall db,
    Sound db ->
    (forall auth a serverId e,
        (fst (mcpServers.add auth a db) = Throw e ->
         snd (mcpServers.add auth a db) = db)
        /\ (fst (mcpServers.update auth serverId a db) = Throw e ->
            snd (mcpServers.update auth serverId a db) = db)
        /\ (fst (mcpServers.remove auth serverId db) = Throw e ->
            snd (mcpServers.remove auth serverId db) = db)
        /\ (fst (mcpServers.toggleEnabled auth serverId db) = Throw e ->
            snd (mcpServers.toggleEnabled auth serverId db) = db))
    /\ (forall e a serverId,
          mcpServers.add (inl e) a db = (Throw e, db)
          /\ mcpServers.update (inl e) serverId a db = (Throw e, db)
          /\ mcpServers.remove (inl e) serverId db = (Throw e, db)
          /\ mcpServers.toggleEnabled (inl e) serverId db = (Throw e, db))
    /\ (forall member a serverId d,
          mcpServers.memberId d <> member ->
          (d ∈ mcpServers.docs db
           <-> d ∈ mcpServers.docs (snd (mcpServers.add (inr member) a db)))
          /\ (d ∈ mcpServers.docs db
              <-> d ∈ mcpServers.docs
                        (snd (mcpServers.update (inr member) serverId a db)))
          /\ (d ∈ mcpServers.docs db
              <-> d ∈ mcpServers.docs
                        (snd (mcpServers.remove (inr member) serverId db)))
          /\ (d ∈ mcpServers.docs db
              <-> d ∈ mcpServers.docs
                        (snd (mcpServers.toggleEnabled (inr member) serverId db)))).
Proof.
  intros db Hs. split; [|split].
  - intros auth a serverId e. split; [|split; [|split]].
    + by destruct (add_run auth a db) as [[e' ->]|(? & _ & _ & _ & ->)].
    + by destruct (update_run auth serverId a db)
        as [[e' ->]|(? & ? & _ & _ & _ & _ & _ & _ & ->)].
    + by destruct (remove_run auth serverId db)
        as [[e' ->]|(? & ? & _ & _ & _ & _ & ->)].
    + by destruct (toggleEnabled_run auth serverId db)
        as [[e' ->]|(? & ? & _ & _ & _ & ->)].
  - done.
  - intros member a serverId d Hd. split; [|split; [|split]].
    + destruct (add_run (inr member) a db)
        as [[e' ->]|(member' & [= <-] & _ & _ & ->)]; [done|].
      cbn. rewrite elem_of_app, list_elem_of_singleton. split; [by left|].
      intros [?| ->]; [done|]. by destruct Hd.
    + destruct (update_run (inr member) serverId a db)
        as [[e' ->]|(member' & server & [= <-] & Hin & Hid & Hm & _ & _ & ->)];
        [done|].
      by apply (patch_others serverId _ db server member).
    + destruct (remove_run (inr member) serverId db)
        as [[e' ->]|(member' & server & [= <-] & Hin & Hid & Hm & ->)]; [done|].
      cbn. rewrite elem_of_List_filter. split; [|by intros [? _]].
      intros Hd'. split; [done|]. apply negb_true_iff, Nat.eqb_neq. intros E.
      apply Hd. rewrite <- Hm. f_equal.
      apply (NoDup_fmap_eq mcpServers._id (mcpServers.docs db));
        [apply Hs|done|done|congruence].
    + destruct (toggleEnabled_run (inr member) serverId db)
        as [[e' ->]|(member' & server & [= <-] & [Hin Hid]%get_Some & Hm & ->)];
        [done|].
      by apply (patch_others serverId _ db server member).
Qed.

(** Toggling a server twice leaves the table as it was before; each call
    returns the flag the server then has. *)
Theorem toggleEnabled_twice :
  forall auth serverId db b db1,
    Sound db ->
    mcpServers.toggleEnabled auth serverId db = (Return b, db1) ->
    (exists server,
        mcpServers.get serverId db1 = Some server
        /\ mcpServers.enabled (mcpServers.fields server) = b)
    /\ mcpServers.toggleEnabled auth serverId db1 = (Return (negb b), db).
Proof.
  intros auth serverId db b db1 Hs Hrun.
  destruct (toggleEnabled_run auth serverId db)
    as [[e He]|(member & server & -> & Hget & Hm & Heq)]; [congruence|].
  rewrite Heq in Hrun. injection Hrun as <- <-.
  pose proof Hget as [Hin Hid]%get_Some.
  set (b := negb (mcpServers.enabled (mcpServers.fields server))).
  set (db1 := snd (mcpServers.patch serverId (mcpServers.set_enabled b) db)).
  set (server1 := {| mcpServers._id := mcpServers._id server;
                     mcpServers._creationTime := mcpServers._creationTime server;
                     mcpServers.memberId := mcpServers.memberId server;
                     mcpServers.fields :=
                       mcpServers.set_enabled b (mcpServers.fields server) |}).
  assert (Sound db1) as Hs1.
  { apply Sound_patch; [done|]. intros d1 d2 H1 H2 Hmem Hn.
    apply (names_distinct db Hs); try done.
    by destruct (Nat.eqb (mcpServers._id d1) serverId),
                (Nat.eqb (mcpServers._id d2) serverId). }
  assert (mcpServers.get serverId db1 = Some server1) as Hget1.
  { apply get_unique; [apply Hs1| |done].
    apply elem_of_patch. exists server. split; [done|].
    by destruct (Nat.eqb_spec (mcpServers._id server) serverId). }
  split; [by exists server1|].
  destruct (toggleEnabled_run (inr member) serverId db1)
    as [[e He]|(member' & server' & [= <-] & Hget' & Hm' & Heq')].
  { exfalso. revert He. unfold mcpServers.toggleEnabled, mcpServers.getCurrentMember,
      bind, ret, mcpServers.owned. cbn beta iota. rewrite Hget1. cbn.
    rewrite Hm, Nat.eqb_refl. done. }
  change (mcpServers.toggleEnabled (inr member) serverId db1 = (Return (negb b), db)).
  rewrite Heq'. rewrite Hget1 in Hget'. injection Hget' as <-.
  cbn [mcpServers.fields server1 mcpServers.enabled mcpServers.set_enabled].
  f_equal. subst db1. unfold mcpServers.patch, modify. cbn [snd mcpServers.docs mcpServers.next_id mcpServers.clock].
  destruct db as [docs nid clk]. cbn [mcpServers.docs mcpServers.next_id mcpServers.clock].
  f_equal. rewrite List.map_map. rewrite <- (List.map_id docs) at 2.
  apply List.map_ext_in. intros d Hd.
  destruct (Nat.eqb_spec (mcpServers._id d) serverId) as [E|E]; cbn [mcpServers._id].
  - rewrite E, Nat.eqb_refl. cbn.
    assert (d = server) as ->.
    { apply (NoDup_fmap_eq mcpServers._id docs); [apply Hs| |done|congruence].
      by apply list_elem_of_In. }
    subst b. rewrite negb_involutive. clear -E. subst serverId.
    by destruct server as [? ? ? []].
  - by apply Nat.eqb_neq in E as ->.
Qed.

Lemma Sound_exampleTable : Sound exampleTable.
Proof. apply Sound_add, Sound_empty. Qed.

Lemma table_calls_respect_owner_witness :
  mcpServers.remove (inl (Error "Unauthorized")) 0%nat exampleTable
  = (Throw (Error "Unauthorized"), exampleTable).
Proof.
  destruct (table_calls_respect_owner exampleTable Sound_exampleTable)
    as (_ & Hauth & _).
  exact (proj1 (proj2 (proj2 (Hauth (Error "Unauthorized") fsArgs 0%nat)))).
Defined.

Lemma toggleEnabled_twice_witness :
  mcpServers.toggleEnabled (inr 1%nat) 0%nat
    (snd (mcpServers.toggleEnabled (inr 1%nat) 0%nat exampleTable))
  = (Return true, exampleTable).
Proof.
  apply (toggleEnabled_twice (inr 1%nat) 0%nat exampleTable false
           (snd (mcpServers.toggleEnabled (inr 1%nat) 0%nat exampleTable))
           Sound_exampleTable).
  reflexivity.
Defined.

Lemma byMemberId_insert member a db other :
  mcpServers.byMemberId other (snd (mcpServers.insert member a db))
  = mcpServers.byMemberId other db
    ++ (if Nat.eqb member other
        then [{| mcpServers._id := mcpServers.next_id db;
                 mcpServers._creationTime := mcpServers.clock db;
                 mcpServers.memberId := member;
                 mcpServers.fields := a |}]
        else []).
Proof.
  unfold mcpServers.byMemberId. cbn. rewrite List.filter_app. cbn.
  by destruct (Nat.eqb member other).
Qed.

(** A server that was added is found under the id that [add] returned, as
    it was given and owned by the caller; it is the last of the caller's
    servers that [list] shows, and of those that [listEnabled] shows when
    it is enabled; the lists of other members are as before; and adding a
    server of the same name again throws. *)
Theorem add_then_listed :
  forall member a db serverId db',
    Sound db ->
    mcpServers.add (inr member) a db = (Return serverId, db') ->
    let doc := {| mcpServers._id := serverId;
                  mcpServers._creationTime := mcpServers.clock db;
                  mcpServers.memberId := member;
                  mcpServers.fields := a |} in
    mcpServers.get serverId db' = Some doc
    /\ mcpServers.list (inr member) db'
       = (Return (Some (mcpServers.byMemberId member db ++ [doc])), db')
    /\ mcpServers.listEnabled (inr member) db'
       = (Return (Some (List.filter
                          (fun d => mcpServers.enabled (mcpServers.fields d))
                          (mcpServers.byMemberId member db)
                        ++ if mcpServers.enabled a then [doc] else [])), db')
    /\ (forall other,
          other <> member ->
          mcpServers.list (inr other) db'
          = (Return (Some (mcpServers.byMemberId other db)), db'))
    /\ (forall a',
          mcpServers.name a' = mcpServers.name a ->
          mcpServers.add (inr member) a' db'
          = (Throw (mcpServers.alreadyExists (mcpServers.name a)), db')).
Proof.
  intros member a db serverId db' Hs Hadd. cbn zeta.
  destruct (add_run (inr member) a db)
    as [[e He]|(member' & [= <-] & Hfree & _ & Hrun)]; [congruence|].
  rewrite Hrun in Hadd. injection Hadd as <- <-.
  pose proof (Sound_insert member a db Hs Hfree) as Hs'.
  pose proof (byMemberId_insert member a db) as Hby.
  cbn [mcpServers.insert snd] in Hs', Hby.
  split; [|split; [|split; [|split]]].
  - apply get_unique; [apply Hs'| |done].
    cbn. apply elem_of_app. right. by apply list_elem_of_singleton.
  - unfold mcpServers.list, tryCatch, bind, mcpServers.getCurrentMember, ret.
    cbn beta iota. by rewrite Hby, Nat.eqb_refl.
  - unfold mcpServers.listEnabled, tryCatch, bind, mcpServers.getCurrentMember, ret.
    cbn beta iota. rewrite Hby, Nat.eqb_refl, List.filter_app. cbn [List.filter].
    cbn [mcpServers.fields]. by destruct (mcpServers.enabled a).
  - intros other Hne.
    unfold mcpServers.list, tryCatch, bind, mcpServers.getCurrentMember, ret.
    cbn beta iota. rewrite Hby.
    destruct (Nat.eqb_spec member other); [congruence|]. by rewrite app_nil_r.
  - intros a' Hname.
    unfold mcpServers.add, bind, mcpServers.getCurrentMember, ret. cbn beta iota.
    rewrite Hname.
    match goal with |- context [mcpServers.byName member ?n ?d] =>
      destruct (mcpServers.byName member n d) eqn:Hfind end; [done|].
    exfalso.
    refine (byName_None member _ _
              {| mcpServers._id := mcpServers.next_id db;
                 mcpServers._creationTime := mcpServers.clock db;
                 mcpServers.memberId := member;
                 mcpServers.fields := a |} Hfind _ eq_refl eq_refl).
    cbn. apply elem_of_app. right. by apply list_elem_of_singleton.
Qed.

Lemma add_then_listed_witness :
  mcpServers.list (inr 1%nat) exampleTable
  = (Return (Some [{| mcpServers._id := 0; mcpServers._creationTime := 0;
                      mcpServers.memberId := 1; mcpServers.fields := fsArgs |}]),
     exampleTable).
Proof.
  destruct (add_then_listed 1%nat fsArgs mcpServers.empty 0%nat exampleTable
              Sound_empty eq_refl) as (_ & Hlist & _).
  exact Hlist.
Defined.

Lemma find_delete (docs : list mcpServers.Doc) id serverId :
  id <> serverId ->
  List.find (fun d => Nat.eqb (mcpServers._id d) id)
    (List.filter (fun d => negb (Nat.eqb (mcpServers._id d) serverId)) docs)
  = List.find (fun d => Nat.eqb (mcpServers._id d) id) docs.
Proof.
  intros Hne. induction docs as [|d docs IH]; [done|].
  cbn. destruct (Nat.eqb_spec (mcpServers._id d) serverId) as [E|E]; cbn.
  - destruct (Nat.eqb_spec (mcpServers._id d) id); [congruence|]. apply IH.
  - destruct (Nat.eqb (mcpServers._id d) id); [done|]. apply IH.
Qed.

Lemma filter_swap {A} (f g : A -> bool) (l : list A) :
  List.filter f (List.filter g l) = List.filter g (List.filter f l).
Proof.
  induction l as [|x l IH]; [done|].
  cbn. destruct (f x) eqn:Hf, (g x) eqn:Hg; cbn; by rewrite ?Hf, ?Hg, ?IH.
Qed.

(** A server that was removed is not found any more and is not listed;
    the other servers are as they were; removing it again throws. *)
Theorem remove_then_gone :
  forall member serverId db db',
    mcpServers.remove (inr member) serverId db = (Return tt, db') ->
    mcpServers.get serverId db' = None
    /\ (forall id, id <> serverId -> mcpServers.get id db' = mcpServers.get id db)
    /\ (forall other,
          mcpServers.list (inr other) db'
          = (Return (Some (List.filter
                             (fun d => negb (Nat.eqb (mcpServers._id d) serverId))
                             (mcpServers.byMemberId other db))), db'))
    /\ mcpServers.remove (inr member) serverId db'
       = (Throw (Error "MCP server not found"), db').
Proof.
  intros member serverId db db' Hrm.
  destruct (remove_run (inr member) serverId db)
    as [[e He]|(member' & server & [= <-] & Hin & Hid & Hm & Hrun)]; [congruence|].
  rewrite Hrun in Hrm. injection Hrm as <-.
  assert (mcpServers.get serverId
            {| mcpServers.docs :=
                 List.filter (fun d => negb (Nat.eqb (mcpServers._id d) serverId))
                   (mcpServers.docs db);
               mcpServers.next_id := mcpServers.next_id db;
               mcpServers.clock := mcpServers.clock db |} = None) as Hgone.
  { unfold mcpServers.get. cbn.
    match goal with |- ?f = None => destruct f as [d|] eqn:Hfind end; [|done].
    apply find_elem in Hfind as [[_ Hd]%elem_of_List_filter Hd'].
    by rewrite Hd' in Hd. }
  split; [exact Hgone|]. split; [|split].
  - intros id Hne. unfold mcpServers.get. cbn. by apply find_delete.
  - intros other.
    unfold mcpServers.list, tryCatch, bind, mcpServers.getCurrentMember, ret.
    cbn beta iota. do 3 f_equal. unfold mcpServers.byMemberId. cbn.
    apply filter_swap.
  - unfold mcpServers.remove, bind, mcpServers.getCurrentMember, ret,
      mcpServers.owned. cbn beta iota.
    cbn [mcpServers.delete modify snd]. by rewrite Hgone.
Qed.

Lemma remove_then_gone_witness :
  mcpServers.get 0%nat (snd (mcpServers.remove (inr 1%nat) 0%nat exampleTable))
  = None.
Proof.
  apply (remove_then_gone 1%nat 0%nat exampleTable
           (snd (mcpServers.remove (inr 1%nat) 0%nat exampleTable))).
  reflexivity.
Defined.

(** ** Which changes of the list restart the process-transport servers *)

(** Where process transport is permitted and the list names a
    process-transport server, a load restarts the sessions of the manager
    exactly when the process-transport servers differ from those of the
    recorded fingerprint in the name, command, args or env of a server, in
    their number or in their order.  Any other change of the list leaves
    the manager and its sessions as they are. *)
Theorem restart_exactly_on_fingerprinted_change :
  forall w old servers store host,
    isServerless w = false ->
    stdioServersOf servers <> [] ->
    currentServerConfigs store = configHash old ->
    (fingerprinted <$> stdioServersOf servers = fingerprinted <$> old ->
     globalMCPManager (fst (snd (loadMCPTools w servers (store, host))))
     = globalMCPManager store
     /\ currentServerConfigs (fst (snd (loadMCPTools w servers (store, host))))
        = currentServerConfigs store)
    /\ (fingerprinted <$> stdioServersOf servers <> fingerprinted <$> old ->
        exists manager' rest,
          globalMCPManager (fst (snd (loadMCPTools w servers (store, host))))
          = Some manager'
          /\ io (snd (snd (loadMCPTools w servers (store, host))))
             = io host ++ killsOf (globalMCPManager store) ++ rest
          /\ forall n c,
               (n, c) ∈ MCPManager.clients manager' -> StartedProcess w host c).
Proof.
  intros w old servers store host Hsl Hne Hfp.
  destruct (loadMCPTools_run w servers store host)
    as (r1 & store1 & host1 & Hstdio & Hcase).
  destruct (loadStdio_spec w (stdioServersOf servers) ∅ store host)
    as (? & ? & ? & Hrun & _ & _ & _ & Hstd).
  rewrite Hstdio in Hrun. injection Hrun as <- <- <-.
  split.
  - intros Hsame.
    assert (configHash (stdioServersOf servers) = currentServerConfigs store)
      as Hhash by (rewrite Hfp; by apply configHash_fingerprinted).
    destruct Hstd
      as [([?|?] & _)
         |[(_ & _ & _ & -> & -> & ->)|(_ & _ & Hdiff & _)]]; [congruence..| |done].
    destruct Hcase
      as [(e & [=] & _)
         |[([=] & _)|(acc & result & store' & host' & _ & Hhttp & ->)]].
    destruct Hhttp as [Hm Hf _ _ _ _ _]. by cbn.
  - intros Hdiff.
    destruct Hstd
      as [([?|?] & _)
         |[(_ & _ & Heq & _)
          |(_ & _ & _ & manager' & Hm' & [rest Hio] & Hnew & _)]];
      [congruence..| |].
    { exfalso. apply Hdiff. apply configHash_inj. congruence. }
    destruct Hcase
      as [(e & _ & ->)
         |[(_ & ->)|(acc & result & store' & host' & _ & Hhttp & ->)]].
    + exists manager', rest. split; [done|]. split; [done|].
      intros n c Hin. by destruct (Hnew n c Hin).
    + exists manager', rest. split; [done|]. split; [done|].
      intros n c Hin. by destruct (Hnew n c Hin).
    + destruct Hhttp as [Hm _ [[rest' Hio'] _ _] _ _ _ _].
      exists manager', (rest ++ rest'). cbn [fst snd io logger].
      split; [congruence|]. split; [by rewrite Hio', Hio, <- !app_assoc|].
      intros n c Hin. by destruct (Hnew n c Hin).
Qed.

Lemma restart_exactly_on_fingerprinted_change_witness :
  globalMCPManager
    (fst (snd (loadMCPTools exampleWorld exampleServersDescribed
                 (fst (snd exampleLoaded), snd (snd exampleLoaded)))))
  = globalMCPManager (fst (snd exampleLoaded)).
Proof.
  destruct (restart_exactly_on_fingerprinted_change exampleWorld
              (stdioServersOf exampleServers) exampleServersDescribed
              (fst (snd exampleLoaded)) (snd (snd exampleLoaded)))
    as [Hsame _].
  - reflexivity.
  - discriminate.
  - reflexivity.
  - exact (proj1 (Hsame eq_refl)).
Defined.
